(** * Freshservice MCP server: pagination, lookup cache and analytics

    A shallow embedding of the paginated-collection and aggregation code of
    [src/freshservice_mcp/server.py]:

    - [parse_link_header]              (server.py 148-177)
    - [get_agent_lookup]               (server.py 3269-3421)
    - [search_tickets_all]             (server.py 3424-3540)
    - [get_ticket_stats]               (server.py 3543-3719)
    - [get_agent_workload]             (server.py 3722-3927)
    - [get_team_comparison]            (server.py 3930-4146)
    - [_parse_period], [_map_status_name], [_map_priority_name],
      [_calculate_resolution_time]     (server.py 4151-4226)

    Modelling conventions.
    - A Python [str] is a [string]; its characters are the code points below
      256.  The character classes of [re] and [str.strip] are the ones CPython
      uses on that range.
    - A Python [int] is a [Z]; [int(s)] is taken without CPython's limit on
      the number of digits.
    - A Python [float] is the rational it stands for ([Q]), and every float
      operation is the exact operation followed by [binary64], the rounding
      to the nearest IEEE 754 double (ties to even, gradual underflow).
      Overflow to infinity is left out: hours between two datetimes and rates
      between 0 and 1 are far from it.  A zero stands for both [0.0] and
      [-0.0], which Python holds equal.  [sum] adds from left to right, as
      CPython does up to 3.11.
    - A [dict] keyed by strings is a [gmap string _]; a dict keyed by values
      read from JSON is a [gmap py_value _]; an insertion-ordered dict whose
      order is observable is an association list.
    - The fields the code reads from a record are [None], integers or
      strings, as the collaborator's schema has them.
    - The collaborator is a function from requests to responses; every
      request is logged in the state, so that a run without a network call is
      a run that leaves the log as it was.  The clock is a sequence of
      readings.  An [httpx] response is true in a condition, so an HTTP
      status error always yields its status code and body.
    - The [while True] loops take a fuel argument; running out of fuel is the
      outcome [Diverge], distinct from every Python outcome. *)

From Stdlib Require Import ZArith QArith Qround Qabs Qpower List String Ascii Lia Bool Lqa.
From stdpp Require Import base option list gmap strings pretty.

Local Open Scope string_scope.
Local Open Scope Z_scope.

(** ** Python strings *)

Module PyStr.

Definition is_char (c : ascii) (n : nat) : bool := Nat.eqb (nat_of_ascii c) n.

(** [str.isspace] on one character; also the class [\s] of [re]. *)
Definition is_space (c : ascii) : bool :=
  let n := nat_of_ascii c in
  (Nat.leb 9 n && Nat.leb n 13) || (Nat.leb 28 n && Nat.leb n 32)
  || Nat.eqb n 133 || Nat.eqb n 160.

(** The class [\d] of [re]. *)
Definition is_digit (c : ascii) : bool :=
  let n := nat_of_ascii c in Nat.leb 48 n && Nat.leb n 57.

Definition digit_value (c : ascii) : Z := Z.of_nat (nat_of_ascii c) - 48.

(** The class [.] of [re] without DOTALL: anything but a line feed. *)
Definition is_dot (c : ascii) : bool := negb (is_char c 10).

Definition comma : ascii := ascii_of_nat 44.
Definition dquote : ascii := ascii_of_nat 34.
Definition dq : string := String dquote EmptyString.

(** [s.split(',')]: the list is never empty. *)
Fixpoint split_on (sep : ascii) (s : string) : list string :=
  match s with
  | EmptyString => [EmptyString]
  | String c r =>
      if Ascii.eqb c sep then EmptyString :: split_on sep r
      else match split_on sep r with
           | [] => [String c EmptyString]
           | h :: t => String c h :: t
           end
  end.

(** [s.startswith(p)], returning what follows the prefix. *)
Fixpoint strip_prefix (p s : string) : option string :=
  match p, s with
  | EmptyString, _ => Some s
  | String a p', String b s' =>
      if Ascii.eqb a b then strip_prefix p' s' else None
  | String _ _, EmptyString => None
  end.

Fixpoint drop_while (f : ascii → bool) (s : string) : string :=
  match s with
  | EmptyString => EmptyString
  | String c r => if f c then drop_while f r else s
  end.

Fixpoint take_while (f : ascii → bool) (s : string) : string :=
  match s with
  | EmptyString => EmptyString
  | String c r => if f c then String c (take_while f r) else EmptyString
  end.

Fixpoint rev_onto (s acc : string) : string :=
  match s with
  | EmptyString => acc
  | String c r => rev_onto r (String c acc)
  end.

Definition rev (s : string) : string := rev_onto s EmptyString.

(** [s.strip()] *)
Definition strip (s : string) : string :=
  rev (drop_while is_space (rev (drop_while is_space s))).

(** [s.endswith('d')] together with [s[:-1]]: [Some] of the string without
    its last character when that character is [c]. *)
Fixpoint chop_suffix_char (c : ascii) (s : string) : option string :=
  match s with
  | EmptyString => None
  | String a EmptyString => if Ascii.eqb a c then Some EmptyString else None
  | String a r => String a <$> chop_suffix_char c r
  end.

(** Decimal value of a run of digits, most significant first. *)
Fixpoint digits_value (acc : Z) (s : string) : Z :=
  match s with
  | EmptyString => acc
  | String c r => digits_value (10 * acc + digit_value c) r
  end.

End PyStr.

(** ** The two regular expressions of [parse_link_header] *)

Module Re.
Import PyStr.

(** The second group [(.+?)] of the first pattern, closed by a double
    quote, once the first character of the group is taken: the shortest
    extension that reaches a double quote. *)
Fixpoint lazy_to_quote (s : string) : option string :=
  match s with
  | EmptyString => None
  | String c r =>
      if Ascii.eqb c dquote then Some EmptyString
      else if is_dot c then String c <$> lazy_to_quote r
      else None
  end.

(** The second group and its closing double quote at [s]. *)
Definition rel_group (s : string) : option string :=
  match s with
  | EmptyString => None
  | String c r => if is_dot c then String c <$> lazy_to_quote r else None
  end.

(** What follows the first group: [>;], white space, [rel=], a double
    quote, the second group and its closing quote.  The greedy [\s*] is
    followed by the letter [r], which is no white space, so only its
    longest run can succeed. *)
Definition link_tail (s : string) : option string :=
  s1 ← strip_prefix ">;" s;
  s2 ← strip_prefix ("rel=" +:+ dq) (drop_while is_space s1);
  rel_group s2.

(** The lazy group [(.+?)] of the URL once its first character is taken:
    try the tail here, else take one more character. *)
Fixpoint lazy_url (s : string) : option (string * string) :=
  match link_tail s with
  | Some rel => Some (EmptyString, rel)
  | None =>
      match s with
      | EmptyString => None
      | String c r =>
          if is_dot c
          then (λ g : string * string, (String c g.1, g.2)) <$> lazy_url r
          else None
      end
  end.

(** The first pattern, [<(.+?)>;\s*rel=Q(.+?)Q] with [Q] the double quote,
    matched at the head of [s]. *)
Definition link_at (s : string) : option (string * string) :=
  match s with
  | String a (String c r) =>
      if is_char a 60 && is_dot c
      then (λ g : string * string, (String c g.1, g.2)) <$> lazy_url r
      else None
  | _ => None
  end.

(** [re.search] of the first pattern: the leftmost match; the result is
    the pair of groups (url, rel). *)
Fixpoint search_link (s : string) : option (string * string) :=
  match link_at s with
  | Some g => Some g
  | None =>
      match s with
      | EmptyString => None
      | String _ r => search_link r
      end
  end.

(** [re.match(r'page=(\d+)', s)]: the group is the longest run of digits. *)
Definition page_at (s : string) : option string :=
  s1 ← strip_prefix "page=" s;
  match take_while is_digit s1 with
  | EmptyString => None
  | ds => Some ds
  end.

(** [re.search(r'page=(\d+)', s)] *)
Fixpoint search_page (s : string) : option string :=
  match page_at s with
  | Some ds => Some ds
  | None =>
      match s with
      | EmptyString => None
      | String _ r => search_page r
      end
  end.

End Re.

(** ** Pagination cursor parser (server.py 148-177) *)

(** One iteration of the [for link in links] loop: the relation and page
    number the entry assigns, or [None] when the entry is skipped. *)
Definition link_entry (link : string) : option (string * Z) :=
  '(url, rel) ← Re.search_link link;
  ds ← Re.search_page url;
  Some (rel, PyStr.digits_value 0 ds).

Definition pagination_init : gmap string (option Z) :=
  <["next" := None]> (<["prev" := None]> ∅).

Definition parse_link_step (pagination : gmap string (option Z)) (link : string)
  : gmap string (option Z) :=
  match link_entry link with
  | Some (rel, page_num) => <[rel := Some page_num]> pagination
  | None => pagination
  end.

Definition parse_link_header (link_header : string) : gmap string (option Z) :=
  match link_header with
  | EmptyString => pagination_init
  | _ => foldl parse_link_step pagination_init (PyStr.split_on PyStr.comma link_header)
  end.

(** [pagination_info.get] of the key next, followed by a truth test: a page
    number that is present and not zero. *)
Definition next_page (pagination : gmap string (option Z)) : option Z :=
  match pagination !! "next" with
  | Some (Some n) => if n =? 0 then None else Some n
  | _ => None
  end.

(** ** Python values and JSON objects *)

(** The values the analytics code reads out of a record: [None] (a missing
    key or a JSON null), an integer or a string. *)
Inductive py_value : Type :=
| PNone
| PInt (n : Z)
| PStr (s : string).

Global Instance py_value_eq_dec : EqDecision py_value.
Proof. solve_decision. Defined.

Definition py_value_enc (v : py_value) : option (Z + string) :=
  match v with
  | PNone => None
  | PInt n => Some (inl n)
  | PStr s => Some (inr s)
  end.

Definition py_value_dec (x : option (Z + string)) : py_value :=
  match x with
  | None => PNone
  | Some (inl n) => PInt n
  | Some (inr s) => PStr s
  end.

Global Instance py_value_countable : Countable py_value.
Proof.
  apply (inj_countable' py_value_enc py_value_dec).
  by intros [].
Defined.

(** Truth value of [v] in [if v:] and [v or w]. *)
Definition truthy (v : py_value) : bool :=
  match v with
  | PNone => false
  | PInt n => negb (n =? 0)
  | PStr s => negb (String.eqb s "")
  end.

(** [str(v)], as used by f-strings. *)
Definition py_str (v : py_value) : string :=
  match v with
  | PNone => "None"
  | PInt n => pretty n
  | PStr s => s
  end.

(** [v or w] *)
Definition py_or (v w : py_value) : py_value := if truthy v then v else w.

(** A JSON object: a ticket, an agent or a group. *)
Abbreviation py_dict := (gmap string py_value).

(** [d.get(k)] *)
Definition dict_get (d : py_dict) (k : string) : py_value := default PNone (d !! k).

(** [d.get(k, dflt)] *)
Definition dict_get_or (d : py_dict) (k : string) (dflt : py_value) : py_value :=
  default dflt (d !! k).

(** ** The HTTP collaborator *)

(** A GET request.  Scheme, host and the authorization header are the same
    in every request and are left out; [rq_query] is the filter expression as
    it is before percent-encoding, the enclosing double quotes included. *)
Record request : Type := mk_request {
  rq_path : string;
  rq_query : option string;
  rq_workspace_id : option Z;
  rq_page : Z;
  rq_per_page : option Z
}.

(** The body of an error response: [e.response.json()] when it parses, else
    [e.response.text]. *)
Inductive error_body : Type :=
| JsonBody (j : string)
| TextBody (t : string).

(** What one GET leads to: a 2xx response whose body parses (its arrays by
    envelope key, and the Link header when there is one); a response on which
    [raise_for_status] raises; or another exception of the transport or of
    [response.json()]. *)
Inductive response : Type :=
| Ok200 (data : gmap string (list py_dict)) (link : option string)
| StatusError (msg : string) (status_code : Z) (body : error_body)
| Broken (msg : string).

Inductive exn : Type :=
| HTTPStatusError (msg : string) (status_code : Z) (body : error_body)
| OtherException (msg : string)
| ValueError (msg : string)
| AttributeError (msg : string)
| OverflowError (msg : string).

(** [str(e)] *)
Definition exn_str (e : exn) : string :=
  match e with
  | HTTPStatusError msg _ _ => msg
  | OtherException msg => msg
  | ValueError msg => msg
  | AttributeError msg => msg
  | OverflowError msg => msg
  end.

(** ** Results *)

Inductive detail : Type :=
| BodyDetail (b : error_body)
| LookupDetail (error : string) (status_code : option Z) (body : option error_body).

(** The discriminated result of a public operation: the dict with
    [success: True], or the one with [success: False], its [error] message
    and, after an HTTP status error, [status_code] and [details]. *)
Inductive result (A : Type) : Type :=
| Success (a : A)
| Failure (error : string) (status_code : option Z) (details : option detail).
Arguments Success {A} a.
Arguments Failure {A} error status_code details.

(** The two [except] clauses that follow every fetch loop. *)
Definition except_fetch {A} (on_status on_other : string) (e : exn) : result A :=
  match e with
  | HTTPStatusError msg st body =>
      Failure (on_status +:+ msg) (Some st) (Some (BodyDetail body))
  | _ => Failure (on_other +:+ exn_str e) None None
  end.

(** ** Time *)

(** A naive [datetime]: microseconds since 0001-01-01T00:00:00. *)
Definition usec_per_day : Z := 86400 * 1000000.
Definition datetime_max : Z := 3652059 * usec_per_day - 1.
Definition timedelta_max_days : Z := 999999999.

(** What [datetime.fromisoformat] returns: the instant in microseconds (in
    UTC when the string carries an offset) and whether it carries one. *)
Record parsed_datetime : Type := mk_parsed {
  pd_usec : Z;
  pd_aware : bool
}.

(** ** The process state *)

Record agent_info : Type := mk_agent_info {
  ai_name : py_value;
  ai_email : py_value
}.

Abbreviation agents_map := (gmap py_value agent_info).
Abbreviation groups_map := (gmap py_value py_value).

(** The module-level [_lookup_cache]. *)
Record lookup_cache : Type := mk_cache {
  cache_agents : option agents_map;
  cache_groups : option groups_map;
  cache_timestamp : option Z
}.

Definition empty_cache : lookup_cache := mk_cache None None None.

(** The state the operations act on: the cache, the requests sent so far
    (oldest first) and how often the clock has been read. *)
Record world : Type := mk_world {
  w_cache : lookup_cache;
  w_log : list request;
  w_ticks : nat
}.

Definition initial_world : world := mk_world empty_cache [] 0.

(** ** Outcomes and their monad *)

Inductive outcome (A : Type) : Type :=
| Val (a : A) (w : world)
| Exc (e : exn) (w : world)
| Diverge.
Arguments Val {A} a w.
Arguments Exc {A} e w.
Arguments Diverge {A}.

Definition M (A : Type) : Type := world → outcome A.

Definition ret {A} (a : A) : M A := λ w, Val a w.
Definition raise {A} (e : exn) : M A := λ w, Exc e w.
Definition diverge {A} : M A := λ _, Diverge.

Definition bind {A B} (m : M A) (k : A → M B) : M B :=
  λ w, match m w with
       | Val a w' => k a w'
       | Exc e w' => Exc e w'
       | Diverge => Diverge
       end.

(** [try: m except ValueError as e: h e] *)
Definition try_except_ValueError {A} (m : M A) (h : string → M A) : M A :=
  λ w, match m w with
       | Val a w' => Val a w'
       | Exc (ValueError msg) w' => h msg w'
       | Exc e w' => Exc e w'
       | Diverge => Diverge
       end.

Declare Scope py_scope.
Delimit Scope py_scope with py.
Notation "'let*' x ':=' m 'in' k" := (bind m (λ x, k))
  (at level 10, x name, m at level 100, k at level 200) : py_scope.
Notation "'let*' ' p ':=' m 'in' k" := (bind m (λ x, match x with p => k end))
  (at level 10, p pattern, m at level 100, k at level 200) : py_scope.
Local Open Scope py_scope.

Definition get_cache : M lookup_cache := λ w, Val (w_cache w) w.
Definition set_cache (c : lookup_cache) : M unit :=
  λ w, Val tt (mk_world c (w_log w) (w_ticks w)).

(** [try: body] followed by the two [except] clauses of a fetch loop, both
    of which return a failure result; [k] is the code after the [try]
    statement. *)
Definition try_fetch {A B} (body : M A) (on_status on_other : string)
    (k : A → M (result B)) : M (result B) :=
  λ w, match body w with
       | Val a w' => k a w'
       | Exc e w' => Val (except_fetch on_status on_other e) w'
       | Diverge => Diverge
       end.

(** ** Floats

    The integer nearest to [x], ties to the even one. *)
Definition round_half_even (x : Q) : Z :=
  let f := Qfloor x in
  match ((x - inject_Z f) ?= (1 # 2))%Q with
  | Lt => f
  | Gt => f + 1
  | Eq => if Z.even f then f else f + 1
  end.

(** The exponent [e] with [2^e <= |x| < 2^(e+1)], for [x] other than 0. *)
Definition ilog2 (x : Q) : Z :=
  let e := Z.log2 (Z.abs (Qnum x)) - Z.log2 (Zpos (Qden x)) in
  if Qle_bool (2 ^ e) (Qabs x) then e else e - 1.

(** The exponent of the last place of the double nearest to [x]: 53
    significant bits, and no exponent below -1074. *)
Definition ulp_exponent (x : Q) : Z := Z.max (ilog2 x - 52) (-1074).

(** The double nearest to [x], ties to the even significand. *)
Definition binary64 (x : Q) : Q :=
  if Qeq_bool x 0 then 0%Q
  else (inject_Z (round_half_even (x / 2 ^ ulp_exponent x)) * 2 ^ ulp_exponent x)%Q.

(** [float(z)], also where an [int] meets a float in an operation. *)
Definition float_of_int (z : Z) : Q := binary64 (inject_Z z).

(** [a / b] on two [int]s: the quotient, correctly rounded. *)
Definition int_truediv (a b : Z) : Q := binary64 (inject_Z a / inject_Z b).

(** [x + y] and [x / y] on floats *)
Definition float_add (x y : Q) : Q := binary64 (x + y).
Definition float_div (x y : Q) : Q := binary64 (x / y).

(** [(later - earlier).total_seconds()]: the microseconds divided by
    [10**6], as [int]s. *)
Definition total_seconds (delta_usec : Z) : Q := int_truediv delta_usec 1000000.

(** [round(x, n)]: the decimal with [n] places nearest to the value of [x],
    ties to the even last digit, and then the double nearest to that
    decimal. *)
Definition py_round (x : Q) (n : nat) : Q :=
  int_truediv (round_half_even (x * inject_Z (10 ^ Z.of_nat n))) (10 ^ Z.of_nat n).

(** [sum(l)] and [sum(l) / len(l)] on floats *)
Definition py_sum (l : list Q) : Q := foldl float_add 0%Q l.
Definition py_mean (l : list Q) : Q :=
  float_div (py_sum l) (float_of_int (Z.of_nat (length l))).

(** Truth value of a float: [0.0] is false. *)
Definition Qtruthy (x : Q) : bool := negb (Qeq_bool x 0).

(** ** The operations *)

Section Operations.

(** The collaborator answers a request by its content alone. *)
Variable server : request → response.
(** [clock n] is what the [n]-th call of [datetime.now()] returns. *)
Variable clock : nat → Z.
(** [datetime.isoformat] and [datetime.fromisoformat] of the standard
    library; the latter is [None] where it raises [ValueError]. *)
Variable isoformat : Z → string.
Variable fromisoformat : string → option parsed_datetime.

(** [await client.get(...)], [response.raise_for_status()],
    [response.json()] and [response.headers.get] of the Link header. *)
Definition http_get (rq : request) : M (gmap string (list py_dict) * option string) :=
  λ w, let w' := mk_world (w_cache w) (w_log w ++ [rq])%list (w_ticks w) in
       match server rq with
       | Ok200 data link => Val (data, link) w'
       | StatusError msg st body => Exc (HTTPStatusError msg st body) w'
       | Broken msg => Exc (OtherException msg) w'
       end.

(** [datetime.now()] *)
Definition datetime_now : M Z :=
  λ w, Val (clock (w_ticks w)) (mk_world (w_cache w) (w_log w) (S (w_ticks w))).

(** [data.get(key, [])] *)
Definition envelope (data : gmap string (list py_dict)) (key : string) : list py_dict :=
  default [] (data !! key).

(** [parse_link_header(response.headers.get("Link", ""))] and the truth
    test on its next relation. *)
Definition link_next (link : option string) : option Z :=
  next_page (parse_link_header (default EmptyString link)).

(** *** search_tickets_all (server.py 3424-3540) *)

Record search_result : Type := mk_search_result {
  sr_tickets : list py_dict;
  sr_total_fetched : nat;
  sr_pages_fetched : Z;
  sr_truncated : bool
}.

(** [{field: ticket.get(field) for field in fields if field in ticket}] *)
Definition filter_fields (fields : list string) (ticket : py_dict) : py_dict :=
  foldl (λ acc field,
           match ticket !! field with
           | Some v => <[field := v]> acc
           | None => acc
           end) ∅ fields.

(** [if fields: tickets = filtered_tickets] *)
Definition apply_fields (fields : option (list string)) (tickets : list py_dict)
  : list py_dict :=
  match fields with
  | Some (f :: fs) => filter_fields (f :: fs) <$> tickets
  | _ => tickets
  end.

Definition tickets_request (query : string) (workspace_id : option Z) (page : Z)
  : request :=
  mk_request "/api/v2/tickets/filter" (Some (PyStr.dq +:+ query +:+ PyStr.dq)) workspace_id page None.

(** The [while True] loop of lines 3475-3513; the value is
    (all_tickets, page, truncated) at the [break]. *)
Fixpoint search_loop (fuel : nat) (query : string) (workspace_id : option Z)
    (max_results : Z) (fields : option (list string))
    (all_tickets : list py_dict) (page : Z) : M (list py_dict * Z * bool) :=
  match fuel with
  | O => diverge
  | S fuel' =>
      let* '(data, link) := http_get (tickets_request query workspace_id page) in
      let tickets := envelope data "tickets" in
      match tickets with
      | [] => ret (all_tickets, page, false)
      | _ :: _ =>
          let tickets := apply_fields fields tickets in
          let all_tickets := (all_tickets ++ tickets)%list in
          if max_results <=? Z.of_nat (length all_tickets)
          then ret (take (Z.to_nat max_results) all_tickets, page, true)
          else
            if (Z.of_nat (length tickets) <? 30) && negb (bool_decide (is_Some (link_next link)))
            then ret (all_tickets, page, false)
            else search_loop fuel' query workspace_id max_results fields all_tickets (page + 1)
      end
  end.

Definition search_tickets_all (fuel : nat) (query : string) (max_results : Z)
    (fields : option (list string)) (workspace_id : option Z)
  : M (result search_result) :=
  let max_results := if 1000 <? max_results then 1000 else max_results in
  if max_results <? 1
  then ret (Failure "max_results must be at least 1" None None)
  else
    try_fetch (search_loop fuel query workspace_id max_results fields [] 1)
      "Failed to search tickets: " "Unexpected error: "
      (λ '(all_tickets, page, truncated),
         ret (Success (mk_search_result all_tickets (length all_tickets) page truncated))).

(** *** get_agent_lookup (server.py 3269-3421) *)

Definition cache_ttl : Z := 300.

Record lookup_result : Type := mk_lookup_result {
  lk_agents : agents_map;
  lk_groups : groups_map;
  lk_cached_at : string;
  lk_ttl_seconds : Z;
  lk_cache_age_seconds : Q
}.

(** The body of [for agent in agents] (lines 3323-3333). *)
Definition add_agent (agents_dict : agents_map) (agent : py_dict) : agents_map :=
  let agent_id := dict_get agent "id" in
  let first_name := dict_get_or agent "first_name" (PStr "") in
  let last_name := dict_get_or agent "last_name" (PStr "") in
  let email := dict_get_or agent "email" (PStr "") in
  let full_name :=
    py_or (PStr (PyStr.strip (py_str first_name +:+ " " +:+ py_str last_name))) email in
  <[agent_id := mk_agent_info full_name email]> agents_dict.

(** The body of [for group in groups] (lines 3376-3379). *)
Definition add_group (groups_dict : groups_map) (group : py_dict) : groups_map :=
  let group_id := dict_get group "id" in
  let group_name := dict_get_or group "name" (PStr ("Group-" +:+ py_str group_id)) in
  <[group_id := group_name]> groups_dict.

Definition directory_request (path : string) (page : Z) : request :=
  mk_request path None None page (Some 30).

(** The [while True] loop of lines 3313-3342. *)
Fixpoint agents_loop (fuel : nat) (agents_dict : agents_map) (page : Z) : M agents_map :=
  match fuel with
  | O => diverge
  | S fuel' =>
      let* '(data, link) := http_get (directory_request "/api/v2/agents" page) in
      let agents_dict := foldl add_agent agents_dict (envelope data "agents") in
      match link_next link with
      | None => ret agents_dict
      | Some next => agents_loop fuel' agents_dict next
      end
  end.

(** The [while True] loop of lines 3366-3388. *)
Fixpoint groups_loop (fuel : nat) (groups_dict : groups_map) (page : Z) : M groups_map :=
  match fuel with
  | O => diverge
  | S fuel' =>
      let* '(data, link) := http_get (directory_request "/api/v2/groups" page) in
      let groups_dict := foldl add_group groups_dict (envelope data "groups") in
      match link_next link with
      | None => ret groups_dict
      | Some next => groups_loop fuel' groups_dict next
      end
  end.

(** The test of lines 3290-3294: the cached directories and their age when
    all three slots are set and the age is below the time to live. *)
Definition cached_lookup (now : Z) (c : lookup_cache) : option lookup_result :=
  match cache_timestamp c, cache_agents c, cache_groups c with
  | Some ts, Some agents, Some groups =>
      let cache_age := total_seconds (now - ts) in
      if Qle_bool (inject_Z cache_ttl) cache_age then None
      else Some (mk_lookup_result agents groups (isoformat ts) cache_ttl cache_age)
  | _, _, _ => None
  end.

(** Lines 3304-3421: both drains, then the update of the cache. *)
Definition refresh_lookup (fuel : nat) (now : Z) : M (result lookup_result) :=
  try_fetch (agents_loop fuel ∅ 1)
    "Failed to fetch agents: " "Unexpected error fetching agents: "
    (λ agents_dict,
       try_fetch (groups_loop fuel ∅ 1)
         "Failed to fetch groups: " "Unexpected error fetching groups: "
         (λ groups_dict,
            let* _ := set_cache (mk_cache (Some agents_dict) (Some groups_dict) (Some now)) in
            ret (Success (mk_lookup_result agents_dict groups_dict (isoformat now)
                            cache_ttl 0)))).

Definition get_agent_lookup (fuel : nat) : M (result lookup_result) :=
  let* now := datetime_now in
  let* c := get_cache in
  match cached_lookup now c with
  | Some r => ret (Success r)
  | None => refresh_lookup fuel now
  end.

(** *** The uncapped ticket walk

    The loop of get_ticket_stats (lines 3620-3644), repeated verbatim in
    get_agent_workload (3818-3842) and get_team_comparison (4022-4046). *)
Fixpoint tickets_loop (fuel : nat) (query : string) (workspace_id : option Z)
    (all_tickets : list py_dict) (page : Z) : M (list py_dict) :=
  match fuel with
  | O => diverge
  | S fuel' =>
      let* '(data, link) := http_get (tickets_request query workspace_id page) in
      let tickets := envelope data "tickets" in
      match tickets with
      | [] => ret all_tickets
      | _ :: _ =>
          let all_tickets := (all_tickets ++ tickets)%list in
          if (Z.of_nat (length tickets) <? 30) && negb (bool_decide (is_Some (link_next link)))
          then ret all_tickets
          else tickets_loop fuel' query workspace_id all_tickets (page + 1)
      end
  end.

(** [" AND ".join(parts)] *)
Definition join_and (parts : list string) : string :=
  match parts with
  | [] => EmptyString
  | p :: ps => foldl (λ acc q, acc +:+ " AND " +:+ q) p ps
  end.

(** The failure returned when [get_agent_lookup] did not succeed; its
    [details] is the lookup's own result. *)
Definition lookup_failed {A} (error : string) (status_code : option Z)
    (details : option detail) : result A :=
  Failure "Failed to fetch agent/group lookup" None
    (Some (LookupDetail error status_code
             (match details with Some (BodyDetail b) => Some b | _ => None end))).

(** *** Helpers (server.py 4151-4226) *)

Definition _map_status_name (status_id : py_value) : string :=
  match status_id with
  | PInt 2 => "Open"
  | PInt 3 => "Pending"
  | PInt 4 => "Resolved"
  | PInt 5 => "Closed"
  | PInt 6 => "In Progress"
  | PInt 7 => "Pending Return"
  | _ => "Status-" +:+ py_str status_id
  end.

Definition _map_priority_name (priority_id : py_value) : string :=
  match priority_id with
  | PInt 1 => "Low"
  | PInt 2 => "Medium"
  | PInt 3 => "High"
  | PInt 4 => "Urgent"
  | _ => "Priority-" +:+ py_str priority_id
  end.

(** [s.replace('Z', '+00:00')] *)
Fixpoint replace_Z (s : string) : string :=
  match s with
  | EmptyString => EmptyString
  | String c r =>
      if PyStr.is_char c 90 then "+00:00" +:+ replace_Z r else String c (replace_Z r)
  end.

(** [_calculate_resolution_time]: [None] on each of the three exceptions it
    catches: a value that is no string has no [replace] (AttributeError),
    [fromisoformat] rejects the string (ValueError), one datetime carries
    an offset and the other does not (TypeError). *)
Definition _calculate_resolution_time (created_at resolved_at : py_value) : option Q :=
  match created_at, resolved_at with
  | PStr c, PStr r =>
      created ← fromisoformat (replace_Z c);
      resolved ← fromisoformat (replace_Z r);
      if Bool.eqb (pd_aware created) (pd_aware resolved)
      then Some (float_div (total_seconds (pd_usec resolved - pd_usec created))
                   (float_of_int 3600))
      else None
  | _, _ => None
  end.

(** White space that [int] strips. *)
Definition int_space (c : ascii) : bool :=
  let n := nat_of_ascii c in
  (Nat.leb 9 n && Nat.leb n 13) || Nat.eqb n 32 || Nat.eqb n 133 || Nat.eqb n 160.

(** Digits with single underscores between them. *)
Fixpoint int_digits (acc : Z) (after_digit : bool) (s : string) : option Z :=
  match s with
  | EmptyString => if after_digit then Some acc else None
  | String c r =>
      if PyStr.is_digit c then int_digits (10 * acc + PyStr.digit_value c) true r
      else if PyStr.is_char c 95 && after_digit then int_digits acc false r
      else None
  end.

(** [int(s)]; [None] where it raises [ValueError]. *)
Definition py_int (s : string) : option Z :=
  let t := PyStr.rev (PyStr.drop_while int_space (PyStr.rev (PyStr.drop_while int_space s))) in
  match t with
  | String c r =>
      if PyStr.is_char c 43 then int_digits 0 false r
      else if PyStr.is_char c 45 then Z.opp <$> int_digits 0 false r
      else int_digits 0 false t
  | EmptyString => None
  end.

(** [timedelta(days=days)] *)
Definition timedelta_days (days : Z) : M Z :=
  if timedelta_max_days <? Z.abs days
  then raise (OverflowError ("days=" +:+ pretty days +:+ "; must have magnitude <= 999999999"))
  else ret (days * usec_per_day).

(** [dt - delta] *)
Definition datetime_sub (dt delta : Z) : M Z :=
  let r := dt - delta in
  if (r <? 0) || (datetime_max <? r)
  then raise (OverflowError "date value out of range")
  else ret r.

Definition _parse_period (period : option string) : M Z :=
  match period with
  | None => raise (AttributeError "'NoneType' object has no attribute 'endswith'")
  | Some p =>
      match PyStr.chop_suffix_char (ascii_of_nat 100) p with
      | Some prefix =>
          try_except_ValueError
            (match py_int prefix with
             | None => raise (ValueError "invalid literal for int()")
             | Some days =>
                 let* now := datetime_now in
                 let* delta := timedelta_days days in
                 datetime_sub now delta
             end)
            (λ _, raise (ValueError ("Invalid period format: " +:+ p)))
      | None =>
          raise (ValueError ("Invalid period format: " +:+ p
                             +:+ ". Use format like '7d', '30d', '90d'"))
      end
  end.

(** *** get_ticket_stats (server.py 3543-3719) *)

(** [d[k] += 1] on a [defaultdict(int)] *)
Definition incr `{Countable K} (k : K) (d : gmap K nat) : gmap K nat :=
  <[k := S (default O (d !! k))]> d.

Record ticket_stats : Type := mk_ticket_stats {
  total_tickets : nat;
  by_status : gmap string nat;
  by_priority : gmap string nat;
  by_agent : gmap py_value nat;
  by_type : gmap py_value nat
}.

Record stats_result : Type := mk_stats_result {
  st_stats : ticket_stats;
  st_group_id : option Z;
  st_group_name : py_value;
  st_created_after : option string;
  st_created_before : option string;
  st_workspace_id : option Z
}.

(** Lines 3683-3689. *)
Definition agent_label (agents_lookup : agents_map) (responder_id : py_value) : py_value :=
  if truthy responder_id then
    match agents_lookup !! responder_id with
    | Some info => ai_name info
    | None => PStr ("Agent-" +:+ py_str responder_id)
    end
  else PStr "Unassigned".

(** Lines 3693-3697. *)
Definition type_label (ticket_type : py_value) : py_value :=
  if truthy ticket_type then ticket_type else PStr "Unknown".

(** The four counters, in the order status, priority, agent, type. *)
Definition counters : Type :=
  gmap string nat * gmap string nat * gmap py_value nat * gmap py_value nat.

(** The body of [for ticket in all_tickets] (lines 3671-3697). *)
Definition count_ticket (agents_lookup : agents_map) (acc : counters) (ticket : py_dict)
  : counters :=
  let '(stats_by_status, stats_by_priority, stats_by_agent, stats_by_type) := acc in
  (incr (_map_status_name (dict_get ticket "status")) stats_by_status,
   incr (_map_priority_name (dict_get ticket "priority")) stats_by_priority,
   incr (agent_label agents_lookup (dict_get ticket "responder_id")) stats_by_agent,
   incr (type_label (dict_get ticket "type")) stats_by_type).

Definition aggregate_stats (agents_lookup : agents_map) (all_tickets : list py_dict)
  : ticket_stats :=
  let '(s, p, a, t) := foldl (count_ticket agents_lookup) (∅, ∅, ∅, ∅) all_tickets in
  mk_ticket_stats (length all_tickets) s p a t.

(** [groups_lookup.get(group_id) if group_id else None] *)
Definition group_name_of (groups_lookup : groups_map) (group_id : option Z) : py_value :=
  match group_id with
  | Some g => if g =? 0 then PNone else default PNone (groups_lookup !! PInt g)
  | None => PNone
  end.

Definition opt_part (prefix suffix : string) (v : option string) : list string :=
  match v with
  | Some x => [prefix +:+ x +:+ suffix]
  | None => []
  end.

Definition get_ticket_stats (fuel : nat) (group_id : option Z)
    (created_after created_before : option string) (workspace_id : option Z)
  : M (result stats_result) :=
  let query_parts :=
    (opt_part "group_id:" "" (pretty <$> group_id)
     ++ opt_part "created_at:>'" "'" created_after
     ++ opt_part "created_at:<'" "'" created_before)%list in
  match query_parts with
  | [] =>
      ret (Failure
             "At least one filter parameter must be provided (group_id, created_after, or created_before)"
             None None)
  | _ :: _ =>
      let query := join_and query_parts in
      let* lookup_result := get_agent_lookup fuel in
      match lookup_result with
      | Failure error status_code details => ret (lookup_failed error status_code details)
      | Success lk =>
          try_fetch (tickets_loop fuel query workspace_id [] 1)
            "Failed to fetch tickets: " "Unexpected error: "
            (λ all_tickets,
               ret (Success (mk_stats_result
                               (aggregate_stats (lk_agents lk) all_tickets)
                               group_id (group_name_of (lk_groups lk) group_id)
                               created_after created_before workspace_id)))
      end
  end.

(** *** get_agent_workload (server.py 3722-3927) *)

Record agent_metric : Type := mk_agent_metric {
  am_agent_id : py_value;
  am_agent_name : py_value;
  am_email : py_value;
  am_tickets_assigned : nat;
  am_tickets_resolved : nat;
  am_tickets_closed : nat;
  am_tickets_open : nat;
  am_avg_resolution_hours : option Q;
  am_resolution_times : list Q
}.

Record workload_result : Type := mk_workload_result {
  wl_agents : list agent_metric;
  wl_start : string;
  wl_end : string;
  wl_group_name : py_value
}.

(** [tickets_by_agent[responder_id].append(ticket)] on a
    [defaultdict(list)]; the keys stay in the order of first insertion. *)
Fixpoint group_append (responder_id : py_value) (ticket : py_dict)
    (groups : list (py_value * list py_dict)) : list (py_value * list py_dict) :=
  match groups with
  | [] => [(responder_id, [ticket])]
  | (k, ts) :: rest =>
      if decide (k = responder_id) then (k, (ts ++ [ticket])%list) :: rest
      else (k, ts) :: group_append responder_id ticket rest
  end.

(** Lines 3864-3868. *)
Definition group_by_responder (all_tickets : list py_dict)
  : list (py_value * list py_dict) :=
  foldl (λ acc ticket,
           let responder_id := dict_get ticket "responder_id" in
           if truthy responder_id then group_append responder_id ticket acc else acc)
        [] all_tickets.

(** [sum(1 for t in tickets if t.get("status") == code)] *)
Definition count_status (code : Z) (tickets : list py_dict) : nat :=
  length (filter (λ t, dict_get t "status" = PInt code) tickets).

(** Lines 3888-3897 and, verbatim, 4079-4088. *)
Definition resolution_times_of (tickets : list py_dict) : list Q :=
  foldl (λ acc ticket,
           let status := dict_get ticket "status" in
           if bool_decide (status = PInt 4 ∨ status = PInt 5) then
             let created_at := dict_get ticket "created_at" in
             let resolved_at :=
               py_or (dict_get ticket "resolved_at") (dict_get ticket "updated_at") in
             if truthy created_at && truthy resolved_at then
               match _calculate_resolution_time created_at resolved_at with
               | Some res_time => (acc ++ [res_time])%list
               | None => acc
               end
             else acc
           else acc)
        [] tickets.

(** Lines 3900-3902 and 4090-4092. *)
Definition average_of (resolution_times : list Q) : option Q :=
  match resolution_times with
  | [] => None
  | _ :: _ => Some (py_mean resolution_times)
  end.

(** [round(avg, 2) if avg else None] (lines 3912 and 4122) *)
Definition report_average (avg_resolution_hours : option Q) : option Q :=
  match avg_resolution_hours with
  | Some avg => if Qtruthy avg then Some (py_round avg 2) else None
  | None => None
  end.

(** The body of the loop over [tickets_by_agent.items()] (lines 3873-3914). *)
Definition agent_entry (agents_lookup : agents_map) (responder_id : py_value)
    (tickets : list py_dict) : agent_metric :=
  let '(agent_name, agent_email) :=
    match agents_lookup !! responder_id with
    | Some info => (ai_name info, ai_email info)
    | None => (PStr ("Agent-" +:+ py_str responder_id), PStr "unknown")
    end in
  let resolution_times := resolution_times_of tickets in
  mk_agent_metric responder_id agent_name agent_email
    (length tickets) (count_status 4 tickets) (count_status 5 tickets)
    (count_status 2 tickets)
    (report_average (average_of resolution_times))
    ((λ t, py_round t 2) <$> resolution_times).

(** [l.sort(key=key, reverse=True)]: descending and stable. *)
Fixpoint insert_desc {A} (key : A → nat) (x : A) (sorted : list A) : list A :=
  match sorted with
  | [] => [x]
  | y :: ys =>
      if Nat.ltb (key x) (key y) then y :: insert_desc key x ys else x :: y :: ys
  end.

Definition sort_desc {A} (key : A → nat) (l : list A) : list A :=
  foldr (insert_desc key) [] l.

(** The [try] statement of lines 3771-3779; [k] is the code after it. *)
Definition try_period {A B} (body : M A) (k : A → M (result B)) : M (result B) :=
  λ w, match body w with
       | Val a w' => k a w'
       | Exc (ValueError msg) w' => Val (Failure msg None None) w'
       | Exc e w' => Exc e w'
       | Diverge => Diverge
       end.

(** Lines 3784-3794. *)
Definition workload_query (agent_id group_id : option Z) (created_after created_before : string)
  : string :=
  join_and
    [match agent_id with
     | Some a => "responder_id:" +:+ pretty a
     | None => "group_id:" +:+ from_option pretty "None" group_id
     end;
     "created_at:>'" +:+ created_after +:+ "'";
     "created_at:<'" +:+ created_before +:+ "'"].

(** Lines 3796-3927, with both date bounds resolved. *)
Definition workload_collect (fuel : nat) (agent_id group_id : option Z)
    (created_after created_before : string) : M (result workload_result) :=
  let query := workload_query agent_id group_id created_after created_before in
  let* lookup_result := get_agent_lookup fuel in
  match lookup_result with
  | Failure error status_code details => ret (lookup_failed error status_code details)
  | Success lk =>
      try_fetch (tickets_loop fuel query None [] 1)
        "Failed to fetch tickets: " "Unexpected error: "
        (λ all_tickets,
           let agent_metrics :=
             fmap (M:=list) (λ '(responder_id, tickets), agent_entry (lk_agents lk) responder_id tickets)
                 (group_by_responder all_tickets) in
           ret (Success (mk_workload_result
                           (sort_desc am_tickets_assigned agent_metrics)
                           created_after created_before
                           (group_name_of (lk_groups lk) group_id))))
  end.

(** Lines 3781-3782 onwards. *)
Definition workload_from (fuel : nat) (agent_id group_id : option Z)
    (created_after : string) (created_before : option string)
  : M (result workload_result) :=
  match created_before with
  | Some cb => workload_collect fuel agent_id group_id created_after cb
  | None =>
      let* now := datetime_now in
      workload_collect fuel agent_id group_id created_after (isoformat now)
  end.

Definition get_agent_workload (fuel : nat) (agent_id group_id : option Z)
    (period : option string) (created_after created_before : option string)
  : M (result workload_result) :=
  match agent_id, group_id with
  | None, None => ret (Failure "Either agent_id or group_id must be provided" None None)
  | _, _ =>
      match created_after with
      | Some ca => workload_from fuel agent_id group_id ca created_before
      | None =>
          try_period (_parse_period period)
            (λ start_date,
               workload_from fuel agent_id group_id (isoformat start_date) created_before)
      end
  end.

(** *** get_team_comparison (server.py 3930-4146) *)

Record group_entry : Type := mk_group_entry {
  ge_group_id : Z;
  ge_group_name : py_value;
  ge_total_tickets : nat;
  ge_open_tickets : nat;
  ge_resolved_tickets : nat;
  ge_closed_tickets : nat;
  ge_closure_rate : Q;
  ge_avg_resolution_hours : option Q;
  ge_top_agents : list (py_value * nat)
}.

Record comparison_result : Type := mk_comparison_result {
  cr_comparison : list group_entry;
  cr_start : string;
  cr_end : string;
  cr_total_tickets_all_groups : nat;
  cr_average_closure_rate : Q
}.

(** Lines 4074-4076: the rate before it is rounded. *)
Definition closure_rate_of (resolved_tickets closed_tickets total_tickets : nat) : Q :=
  if Nat.ltb 0 total_tickets
  then int_truediv (Z.of_nat (resolved_tickets + closed_tickets)) (Z.of_nat total_tickets)
  else 0%Q.

(** [agent_ticket_counts[responder_id] += 1], keys in the order of first
    insertion. *)
Fixpoint count_append (responder_id : py_value) (counts : list (py_value * nat))
  : list (py_value * nat) :=
  match counts with
  | [] => [(responder_id, 1%nat)]
  | (k, n) :: rest =>
      if decide (k = responder_id) then (k, S n) :: rest
      else (k, n) :: count_append responder_id rest
  end.

(** Lines 4095-4111. *)
Definition top_agents_of (agents_lookup : agents_map) (all_tickets : list py_dict)
  : list (py_value * nat) :=
  let agent_ticket_counts :=
    foldl (λ acc ticket,
             let responder_id := dict_get ticket "responder_id" in
             if truthy responder_id then count_append responder_id acc else acc)
          [] all_tickets in
  fmap (M:=list) (λ '(agent_id, count),
         (match agents_lookup !! agent_id with
          | Some info => ai_name info
          | None => PStr ("Agent-" +:+ py_str agent_id)
          end, count))
      (take 5 (sort_desc snd agent_ticket_counts)).

(** Lines 4068-4124: the entry of one group, and its unrounded rate. *)
Definition analyze_group (lk : lookup_result) (group_id : Z) (all_tickets : list py_dict)
  : group_entry * Q :=
  let total_tickets := length all_tickets in
  let open_tickets := count_status 2 all_tickets in
  let resolved_tickets := count_status 4 all_tickets in
  let closed_tickets := count_status 5 all_tickets in
  let closure_rate := closure_rate_of resolved_tickets closed_tickets total_tickets in
  (mk_group_entry group_id
     (default (PStr ("Group-" +:+ pretty group_id)) (lk_groups lk !! PInt group_id))
     total_tickets open_tickets resolved_tickets closed_tickets
     (py_round closure_rate 3)
     (report_average (average_of (resolution_times_of all_tickets)))
     (top_agents_of (lk_agents lk) all_tickets),
   closure_rate).

(** Lines 4131-4133. *)
Definition average_rate (total_closure_rates : list Q) : Q :=
  match total_closure_rates with
  | [] => 0%Q
  | _ :: _ => py_mean total_closure_rates
  end.

Definition group_query (group_id : Z) (created_after created_before : string) : string :=
  "group_id:" +:+ pretty group_id +:+ " AND created_at:>'" +:+ created_after
  +:+ "' AND created_at:<'" +:+ created_before +:+ "'".

(** The loop [for group_id in group_ids] (lines 4010-4128) and the summary
    after it (lines 4130-4146). *)
Fixpoint compare_groups (fuel : nat) (lk : lookup_result)
    (created_after created_before : string) (group_ids : list Z)
    (comparison_results : list group_entry) (total_tickets_all_groups : nat)
    (total_closure_rates : list Q) : M (result comparison_result) :=
  match group_ids with
  | [] =>
      ret (Success (mk_comparison_result comparison_results created_after created_before
                      total_tickets_all_groups
                      (py_round (average_rate total_closure_rates) 3)))
  | group_id :: rest =>
      try_fetch (tickets_loop fuel (group_query group_id created_after created_before)
                   None [] 1)
        ("Failed to fetch tickets for group " +:+ pretty group_id +:+ ": ")
        ("Unexpected error for group " +:+ pretty group_id +:+ ": ")
        (λ all_tickets,
           let '(entry, closure_rate) := analyze_group lk group_id all_tickets in
           compare_groups fuel lk created_after created_before rest
             (comparison_results ++ [entry])%list
             (total_tickets_all_groups + ge_total_tickets entry)%nat
             (total_closure_rates ++ [closure_rate])%list)
  end.

(** [created_after] and [created_before] with their defaults (lines
    3984-3989). *)
Definition default_window (created_after created_before : option string)
  : M (string * string) :=
  let* ca :=
    match created_after with
    | Some ca => ret ca
    | None =>
        let* now := datetime_now in
        let* delta := timedelta_days 30 in
        let* start_date := datetime_sub now delta in
        ret (isoformat start_date)
    end in
  let* cb :=
    match created_before with
    | Some cb => ret cb
    | None => let* now := datetime_now in ret (isoformat now)
    end in
  ret (ca, cb).

Definition get_team_comparison (fuel : nat) (group_ids : list Z)
    (created_after created_before : option string) : M (result comparison_result) :=
  if Nat.ltb (length group_ids) 2
  then ret (Failure "At least 2 group_ids must be provided for comparison" None None)
  else if Nat.ltb 10 (length group_ids)
  then ret (Failure "Maximum 10 groups can be compared at once" None None)
  else
    let* '(ca, cb) := default_window created_after created_before in
    let* lookup_result := get_agent_lookup fuel in
    match lookup_result with
    | Failure error status_code details => ret (lookup_failed error status_code details)
    | Success lk => compare_groups fuel lk ca cb group_ids [] 0 []
    end.

End Operations.

(** ** A concrete calendar

    [isoformat] and [fromisoformat] on the timestamps the collaborator
    sends: [YYYY-MM-DDTHH:MM:SS], with an offset [+HH:MM] or [-HH:MM] or
    without one.  This [fromisoformat] is a fragment of the library's: a
    fraction of a second, a date alone and the other forms that
    [datetime.fromisoformat] reads as well are [None] here.  The operations
    above take both functions as parameters and the theorems hold for every
    such pair; these instances only serve to run the operations on examples. *)

Module Iso.

(** The proleptic Gregorian ordinal of a date ([date.toordinal]). *)
Definition ordinal_of (y m d : Z) : Z :=
  let y' := if m <=? 2 then y - 1 else y in
  let era := y' / 400 in
  let yoe := y' - era * 400 in
  let doy := (153 * (if 2 <? m then m - 3 else m + 9) + 2) / 5 + d - 1 in
  let doe := yoe * 365 + yoe / 4 - yoe / 100 + doy in
  era * 146097 + doe - 305.

(** The date of an ordinal ([date.fromordinal]). *)
Definition date_of (ordinal : Z) : Z * Z * Z :=
  let z := ordinal + 305 in
  let era := z / 146097 in
  let doe := z - era * 146097 in
  let yoe := (doe - doe / 1460 + doe / 36524 - doe / 146096) / 365 in
  let doy := doe - (365 * yoe + yoe / 4 - yoe / 100) in
  let mp := (5 * doy + 2) / 153 in
  let d := doy - (153 * mp + 2) / 5 + 1 in
  let m := if mp <? 10 then mp + 3 else mp - 9 in
  let y := yoe + era * 400 in
  (if m <=? 2 then y + 1 else y, m, d).

Fixpoint zeros (n : nat) : string :=
  match n with
  | O => EmptyString
  | S n' => "0" +:+ zeros n'
  end.

(** [n] written with at least [width] digits. *)
Definition digits (width : nat) (n : Z) : string :=
  let s := pretty n in zeros (width - String.length s) +:+ s.

Definition isoformat (usec : Z) : string :=
  let days := usec / usec_per_day in
  let rest := usec mod usec_per_day in
  let '(y, m, d) := date_of (days + 1) in
  let secs := rest / 1000000 in
  let micro := rest mod 1000000 in
  digits 4 y +:+ "-" +:+ digits 2 m +:+ "-" +:+ digits 2 d +:+ "T"
  +:+ digits 2 (secs / 3600) +:+ ":" +:+ digits 2 (secs / 60 mod 60) +:+ ":"
  +:+ digits 2 (secs mod 60)
  +:+ (if micro =? 0 then EmptyString else "." +:+ digits 6 micro).

(** Exactly [n] digits at the head of [s]: their value and the rest. *)
Fixpoint number (n : nat) (acc : Z) (s : string) : option (Z * string) :=
  match n with
  | O => Some (acc, s)
  | S n' =>
      match s with
      | String c r =>
          if PyStr.is_digit c then number n' (10 * acc + PyStr.digit_value c) r else None
      | EmptyString => None
      end
  end.

Definition literal (c : string) (s : string) : option string := PyStr.strip_prefix c s.

Definition days_in_month (y m : Z) : Z :=
  ordinal_of (if m =? 12 then y + 1 else y) (if m =? 12 then 1 else m + 1) 1
  - ordinal_of y m 1.

Definition offset (s : string) : option (option Z) :=
  match s with
  | EmptyString => Some None
  | String sign r =>
      if PyStr.is_char sign 43 || PyStr.is_char sign 45 then
        '(hh, r) ← number 2 0 r;
        r ← literal ":" r;
        '(mm, r) ← number 2 0 r;
        match r with
        | EmptyString =>
            if (hh <? 24) && (mm <? 60)
            then Some (Some ((if PyStr.is_char sign 45 then -1 else 1) * (hh * 60 + mm)))
            else None
        | _ => None
        end
      else None
  end.

Definition fromisoformat (s : string) : option parsed_datetime :=
  '(y, s) ← number 4 0 s;
  s ← literal "-" s;
  '(m, s) ← number 2 0 s;
  s ← literal "-" s;
  '(d, s) ← number 2 0 s;
  s ← literal "T" s;
  '(hh, s) ← number 2 0 s;
  s ← literal ":" s;
  '(mi, s) ← number 2 0 s;
  s ← literal ":" s;
  '(ss, s) ← number 2 0 s;
  off ← offset s;
  if (1 <=? y) && (1 <=? m) && (m <=? 12) && (1 <=? d) && (d <=? days_in_month y m)
     && (hh <? 24) && (mi <? 60) && (ss <? 60)
  then
    let local := ((ordinal_of y m d - 1) * 86400 + hh * 3600 + mi * 60 + ss) * 1000000 in
    Some match off with
         | None => mk_parsed local false
         | Some minutes => mk_parsed (local - minutes * 60 * 1000000) true
         end
  else None.

End Iso.

(** ** Paged listings outside the analytics code

    [get_tickets] (server.py 190-232), [get_all_agents] (2144-2190) and
    [filter_agents] (2194-2219): the callers of [parse_link_header] that
    fetch with GET and no other parameters than those of [request]. *)

Section Listings.

Variable server : request → response.

(** [try: m except Exception as e: h e] *)
Definition try_except {A} (m : M A) (h : exn → M A) : M A :=
  λ w, match m w with
       | Val a w' => Val a w'
       | Exc e w' => h e w'
       | Diverge => Diverge
       end.

(** [pagination_info.get(rel)]: the page number stored under [rel], [None]
    when the key is missing or holds [None]. *)
Definition pagination_get (pagination : gmap string (option Z)) (rel : string) : option Z :=
  default None (pagination !! rel).

(** The [pagination] dict of a listing. *)
Record page_info : Type := mk_page_info {
  pi_current_page : Z;
  pi_next_page : option Z;
  pi_prev_page : option Z;
  pi_per_page : Z
}.

(** What [get_tickets] returns: the body with its pagination, or a dict
    with the single key [error]. *)
Inductive tickets_reply : Type :=
| TicketsPage (body : gmap string (list py_dict)) (pagination : page_info)
| TicketsError (error : string).

Definition get_tickets (page per_page : Z) : M tickets_reply :=
  if page <? 1 then ret (TicketsError "Page number must be greater than 0")
  else if (per_page <? 1) || (100 <? per_page)
  then ret (TicketsError "Page size must be between 1 and 100")
  else
    try_except
      (let* '(data, link) :=
         http_get server (mk_request "/api/v2/tickets" None None page (Some per_page)) in
       let pagination_info := parse_link_header (default EmptyString link) in
       ret (TicketsPage data
              (mk_page_info page (pagination_get pagination_info "next")
                 (pagination_get pagination_info "prev") per_page)))
      (λ e,
         ret (TicketsError
                match e with
                | HTTPStatusError msg _ _ => "Failed to fetch tickets: " +:+ msg
                | _ => "An unexpected error occurred: " +:+ exn_str e
                end)).

(** What [get_all_agents] returns: the page of agents with its pagination
    and [has_more]; the validation failure; or, after an HTTP status error,
    the dict with [error], [status_code] and [details]. *)
Inductive agents_reply : Type :=
| AgentsPage (agents : list py_dict) (pagination : page_info) (has_more : bool)
| AgentsInvalid (error : string)
| AgentsHttpError (error : string) (status_code : Z) (details : error_body).

(** Only [httpx.HTTPStatusError] is caught (lines 2179-2190). *)
Definition get_all_agents (page per_page : Z) : M agents_reply :=
  if page <? 1 then ret (AgentsInvalid "Page number must be greater than 0")
  else if (per_page <? 1) || (100 <? per_page)
  then ret (AgentsInvalid "Page size must be between 1 and 100")
  else
    λ w,
      match
        (let* '(data, link) :=
           http_get server (mk_request "/api/v2/agents" None None page (Some per_page)) in
         let agents := envelope data "agents" in
         let pagination_info := parse_link_header (default EmptyString link) in
         ret (AgentsPage agents
                (mk_page_info page (pagination_get pagination_info "next")
                   (pagination_get pagination_info "prev") per_page)
                (bool_decide (is_Some (pagination_get pagination_info "next"))))) w
      with
      | Exc (HTTPStatusError msg st body) w' =>
          Val (AgentsHttpError ("Failed to get all agents: " +:+ msg) st body) w'
      | o => o
      end.

Definition agents_query_request (query : string) (page : Z) : request :=
  mk_request "/api/v2/agents" (Some (PyStr.dq +:+ query +:+ PyStr.dq)) None page None.

(** The [while True] loop of [filter_agents] (lines 2204-2217); there is no
    [try] around it. *)
Fixpoint filter_agents_loop (fuel : nat) (query : string) (all_agents : list py_dict)
    (page : Z) : M (list py_dict) :=
  match fuel with
  | O => diverge
  | S fuel' =>
      let* '(data, link) := http_get server (agents_query_request query page) in
      let all_agents := (all_agents ++ envelope data "agents")%list in
      match link_next link with
      | None => ret all_agents
      | Some next => filter_agents_loop fuel' query all_agents next
      end
  end.

Definition filter_agents (fuel : nat) (query : string) : M (list py_dict) :=
  filter_agents_loop fuel query [] 1.

End Listings.

(** * Definitions used by the statements *)

(** ** Pagination cursor parser *)

(** The entries of a header that the loop does not skip, in order. *)
Definition valid_entries (link_header : string) : list (string * Z) :=
  omap link_entry (PyStr.split_on PyStr.comma link_header).

Definition store_entry (pagination : gmap string (option Z)) (e : string * Z)
  : gmap string (option Z) :=
  <[e.1 := Some e.2]> pagination.

(** A header whose only entry has the relation last. *)
Definition header_last : string :=
  "<https://x/api/v2/agents?page=5>; rel=" +:+ PyStr.dq +:+ "last" +:+ PyStr.dq.

(** ** Paged collections *)

(** Page [page] (counted from 1) of [xs], [per_page] records to a page. *)
Definition page_of {A} (per_page : nat) (xs : list A) (page : Z) : list A :=
  take per_page (drop (Z.to_nat (page - 1) * per_page) xs).

(** The collaborator answers every page of the ticket query with success,
    and the pages are those of the backing collection [xs]. *)
Definition serves_tickets (server : request → response) (query : string)
    (workspace_id : option Z) (per_page : nat) (xs : list py_dict) : Prop :=
  ∀ page, 1 ≤ page →
    ∃ data link,
      server (tickets_request query workspace_id page) = Ok200 data link
      ∧ envelope data "tickets" = page_of per_page xs page.

(** A collaborator that serves [xs] under every ticket query, thirty to a
    page, with no Link header. *)
Definition ticket_server (xs : list py_dict) : request → response :=
  λ rq, Ok200 {["tickets" := page_of 30 xs (rq_page rq)]} None.

Definition ticket (id : Z) : py_dict := {["id" := PInt id]}.

(** ** The Bulk Fetch Walker of the specification

    Written from the words of the specification (section 4.2), not from the
    code, to compare the refresh loops of [get_agent_lookup] with it.  After
    each page fetch, in this order: stop on a page of zero records; stop,
    truncating to the cap, when the accumulator has reached the cap; stop on
    a page shorter than the page size whose cursor has no next relation;
    otherwise go to the page the cursor names, or to the following page when
    there is no cursor.  An uncapped walk has no cap ([None]).  The value is
    the records and the [truncated] flag. *)
Fixpoint spec_bulk_fetch_walker (server : request → response) (fuel : nat)
    (request_of : Z → request) (key : string) (page_size : nat) (cap : option nat)
    (records : list py_dict) (page : Z) : M (list py_dict * bool) :=
  match fuel with
  | O => diverge
  | S fuel' =>
      let* '(data, link) := http_get server (request_of page) in
      let fetched := envelope data key in
      let records' := (records ++ fetched)%list in
      if bool_decide (fetched = []) then ret (records, false)
      else if from_option (λ c, bool_decide (c ≤ length records')%nat) false cap
      then ret (take (default O cap) records', true)
      else if bool_decide (length fetched < page_size)%nat
              && negb (bool_decide (is_Some (link_next link)))
      then ret (records', false)
      else spec_bulk_fetch_walker server fuel' request_of key page_size cap records'
             (default (page + 1) (link_next link))
  end.

(** The collaborator answers every page of a directory with success, thirty
    records to a page, and its cursor names the following page exactly when
    records remain after this one. *)
Definition serves_directory (server : request → response) (path key : string)
    (xs : list py_dict) : Prop :=
  ∀ page, 1 ≤ page →
    ∃ data link,
      server (directory_request path page) = Ok200 data link
      ∧ envelope data key = page_of 30 xs page
      ∧ link_next link
        = if bool_decide (Z.to_nat page * 30 < length xs)%nat then Some (page + 1) else None.

(** The Link header of page [page] of a directory of [total] records. *)
Definition next_link (path : string) (total : nat) (page : Z) : option string :=
  if bool_decide (Z.to_nat page * 30 < total)%nat
  then Some ("<https://example.freshservice.com" +:+ path +:+ "?page=" +:+ pretty (page + 1)
             +:+ "&per_page=30>; rel=" +:+ PyStr.dq +:+ "next" +:+ PyStr.dq)
  else None.

(** A collaborator with the two directories, thirty records to a page;
    [cursor] says whether it sends Link headers. *)
Definition directory_server (cursor : bool) (agents groups : list py_dict)
  : request → response :=
  λ rq,
    if String.eqb (rq_path rq) "/api/v2/agents"
    then Ok200 {["agents" := page_of 30 agents (rq_page rq)]}
           (if cursor then next_link (rq_path rq) (length agents) (rq_page rq) else None)
    else Ok200 {["groups" := page_of 30 groups (rq_page rq)]}
           (if cursor then next_link (rq_path rq) (length groups) (rq_page rq) else None).

(** A collaborator on which every request fails with status 500. *)
Definition failing_server : request → response :=
  λ _, StatusError "Server error '500 Internal Server Error'" 500
         (JsonBody "{'message': 'unexpected'}").

(** A collaborator whose agent directory works and whose group directory
    fails with status 403. *)
Definition groups_failing_server (agents : list py_dict) : request → response :=
  λ rq,
    if String.eqb (rq_path rq) "/api/v2/agents"
    then Ok200 {["agents" := page_of 30 agents (rq_page rq)]} None
    else StatusError "Client error '403 Forbidden'" 403 (TextBody "Forbidden").

Definition agent (id : Z) (first_name last_name : string) : py_dict :=
  <["id" := PInt id]> (<["first_name" := PStr first_name]>
    (<["last_name" := PStr last_name]>
       {["email" := PStr (first_name +:+ "@example.com")]})).

Definition group (id : Z) (name : string) : py_dict :=
  <["id" := PInt id]> {["name" := PStr name]}.

(** [n] agents with the ids [start], [start + 1], ... *)
Fixpoint agents_from (start : Z) (n : nat) : list py_dict :=
  match n with
  | O => []
  | S n' => agent start "Agent" (pretty start) :: agents_from (start + 1) n'
  end.

(** A clock that stands at noon of 2024-01-03 and advances one second a
    reading. *)
Definition noon : Z := 63839880000 * 1000000.
Definition example_clock (n : nat) : Z := noon + Z.of_nat n * 1000000.

(** A cache filled ten minutes before [noon]. *)
Definition stale_cache : lookup_cache :=
  mk_cache (Some (add_agent ∅ (agent 7 "Old" "Entry")))
           (Some (add_group ∅ (group 3 "Old group")))
           (Some (noon - 600 * 1000000)).

Definition stale_world : world := mk_world stale_cache [] 0.

(** The state after one reading of the clock. *)
Definition tick (w : world) : world :=
  mk_world (w_cache w) (w_log w) (S (w_ticks w)).

(** An outcome that leaves the cache of [w] as it is. *)
Definition keeps_cache {A} (w : world) (o : outcome A) : Prop :=
  match o with
  | Val _ w' | Exc _ w' => w_cache w' = w_cache w
  | Diverge => True
  end.

(** The status code and the error body an exception carries. *)
Definition exn_status (e : exn) : option Z :=
  match e with
  | HTTPStatusError _ st _ => Some st
  | _ => None
  end.

Definition exn_details (e : exn) : option detail :=
  match e with
  | HTTPStatusError _ _ body => Some (BodyDetail body)
  | _ => None
  end.

(** Thirty-one agents and one group: two pages of agents. *)
Definition agents31 : list py_dict := agents_from 1 31.
Definition groups1 : list py_dict := [group 1 "Support"].

(** The value of an outcome that is a normal return, and the payload of a
    returned success result. *)
Definition value_of {A} (o : outcome A) : option A :=
  match o with
  | Val a _ => Some a
  | _ => None
  end.

Definition returned {A} (o : outcome (result A)) : option A :=
  match o with
  | Val (Success a) _ => Some a
  | _ => None
  end.

(** ** Statistics *)

(** [sum(d.values())] *)
Definition sum_values `{Countable K} (d : gmap K nat) : nat :=
  map_fold (λ _ v acc, (v + acc)%nat) O d.

(** A collaborator with both directories (no Link headers) and, under every
    ticket query, the tickets [tickets], thirty to a page. *)
Definition helpdesk_server (agents groups tickets : list py_dict) : request → response :=
  λ rq,
    if String.eqb (rq_path rq) "/api/v2/tickets/filter" then ticket_server tickets rq
    else directory_server false agents groups rq.

(** A ticket as the collaborator sends it; [None] leaves the field out. *)
Definition mk_ticket (id : Z) (status priority responder_id : option Z)
    (type : option string) : py_dict :=
  <["id" := PInt id]>
    (from_option (λ v, {["status" := PInt v]}) ∅ status
     ∪ from_option (λ v, {["priority" := PInt v]}) ∅ priority
     ∪ from_option (λ v, {["responder_id" := PInt v]}) ∅ responder_id
     ∪ from_option (λ v, {["type" := PStr v]}) ∅ type).

(** Four tickets: a known status and agent; an unknown status and priority
    with an agent missing from the directory; no fields at all; a second
    ticket of the first kind. *)
Definition mixed_tickets : list py_dict :=
  [mk_ticket 1 (Some 2) (Some 1) (Some 1) (Some "Incident");
   mk_ticket 2 (Some 42) (Some 9) (Some 77) (Some "Incident");
   mk_ticket 3 None None None None;
   mk_ticket 4 (Some 2) (Some 1) (Some 1) (Some "Service Request")].

(** How many of [tickets] carry the label [l] under [label]. *)
Definition label_count `{Countable K} (label : py_dict → K) (l : K)
    (tickets : list py_dict) : nat :=
  length (filter (λ t, label t = l) tickets).

Definition status_label (ticket : py_dict) : string :=
  _map_status_name (dict_get ticket "status").
Definition priority_label (ticket : py_dict) : string :=
  _map_priority_name (dict_get ticket "priority").
Definition responder_label (agents_lookup : agents_map) (ticket : py_dict) : py_value :=
  agent_label agents_lookup (dict_get ticket "responder_id").
Definition ticket_type_label (ticket : py_dict) : py_value :=
  type_label (dict_get ticket "type").

(** The id→name tables of [_map_status_name] and [_map_priority_name] (the
    [mapping] literals of lines 4181-4188 and 4201-4206), as lists. *)
Definition status_names : list (Z * string) :=
  [(2, "Open"); (3, "Pending"); (4, "Resolved"); (5, "Closed"); (6, "In Progress");
   (7, "Pending Return")].
Definition priority_names : list (Z * string) :=
  [(1, "Low"); (2, "Medium"); (3, "High"); (4, "Urgent")].

(** ** Workload *)

(** The date range of a call of [get_agent_workload] (lines 3770-3782): a
    bound that is given is kept, a missing [created_after] is the start of
    the period and a missing [created_before] is the present time. *)
Definition date_range (clock : nat → Z) (isoformat : Z → string)
    (period created_after created_before : option string) : M (string * string) :=
  let* created_after :=
    match created_after with
    | Some ca => ret ca
    | None => let* start_date := _parse_period clock period in ret (isoformat start_date)
    end in
  let* created_before :=
    match created_before with
    | Some cb => ret cb
    | None => let* now := datetime_now clock in ret (isoformat now)
    end in
  ret (created_after, created_before).

(** A result with its [group_name] field blanked, and the same under an
    outcome: what is left is every other field, the final state and its
    request log. *)
Definition without_group_name (r : result workload_result) : result workload_result :=
  match r with
  | Success out => Success (mk_workload_result (wl_agents out) (wl_start out) (wl_end out) PNone)
  | Failure error status_code details => Failure error status_code details
  end.

Definition outcome_map {A B} (f : A → B) (o : outcome A) : outcome B :=
  match o with
  | Val a w => Val (f a) w
  | Exc e w => Exc e w
  | Diverge => Diverge
  end.

(** Whether an outcome is a returned success. *)
Definition succeeded {A} (o : outcome (result A)) : bool :=
  match o with
  | Val (Success _) _ => true
  | _ => false
  end.

(** The float a decimal numeral denotes: [decimal 267 2] is the float
    written [2.67]. *)
Definition decimal (digits : Z) (places : nat) : Q :=
  int_truediv digits (10 ^ Z.of_nat places).

(** A ticket with a status, a responder and its two timestamps. *)
Definition timed_ticket (id status responder_id : Z) (created_at resolved_at : string)
  : py_dict :=
  <["id" := PInt id]>
    (<["status" := PInt status]>
       (<["responder_id" := PInt responder_id]>
          (<["created_at" := PStr created_at]> {["resolved_at" := PStr resolved_at]}))).

(** One ticket of agent 5, resolved 225 seconds (a sixteenth of an hour)
    after its creation. *)
Definition quick_ticket : list py_dict :=
  [timed_ticket 1 4 5 "2024-01-01T00:00:00Z" "2024-01-01T00:03:45Z"].

(** One ticket of agent 5, resolved 9630 seconds (2.675 hours) after its
    creation. *)
Definition slow_ticket : list py_dict :=
  [timed_ticket 1 4 5 "2024-01-01T00:00:00Z" "2024-01-01T02:40:30Z"].

(** One ticket of agent 5, resolved in the second of its creation. *)
Definition instant_ticket : list py_dict :=
  [timed_ticket 1 4 5 "2024-01-01T00:00:00Z" "2024-01-01T00:00:00Z"].

(** The unrounded closure rate that belongs to an entry's counts. *)
Definition entry_rate (e : group_entry) : Q :=
  closure_rate_of (ge_resolved_tickets e) (ge_closed_tickets e) (ge_total_tickets e).

(** A collaborator with the two directories (no Link headers) and, for the
    ticket query of each listed group id, that group's tickets, thirty to a
    page; a query of no listed group has no tickets. *)
Fixpoint group_tickets (by_group : list (Z * list py_dict)) (query : string)
  : list py_dict :=
  match by_group with
  | [] => []
  | (g, tickets) :: rest =>
      match PyStr.strip_prefix (PyStr.dq +:+ "group_id:" +:+ pretty g +:+ " AND") query with
      | Some _ => tickets
      | None => group_tickets rest query
      end
  end.

Definition team_server (agents groups : list py_dict) (by_group : list (Z * list py_dict))
  : request → response :=
  λ rq,
    if String.eqb (rq_path rq) "/api/v2/tickets/filter"
    then ticket_server (group_tickets by_group (default EmptyString (rq_query rq))) rq
    else directory_server false agents groups rq.

(** [n] tickets of one status, with the ids [start], [start + 1], ... *)
Fixpoint tickets_with_status (status : Z) (start : Z) (n : nat) : list py_dict :=
  match n with
  | O => []
  | S n' => mk_ticket start (Some status) (Some 1) (Some 5) (Some "Incident")
            :: tickets_with_status status (start + 1) n'
  end.

(** A group of [tickets_by_agent] that holds tickets of its own responder
    only. *)
Definition own_tickets (g : py_value * list py_dict) : Prop :=
  Forall (λ t, dict_get t "responder_id" = g.1) g.2.

(** Group 1 has three tickets, one of them resolved; group 2 has none. *)
Definition thirds_server : request → response :=
  team_server [] []
    [(1, (tickets_with_status 4 1 1 ++ tickets_with_status 2 2 2)%list); (2, [])].

(** Group 1 has ten tickets, six of them resolved; group 2 has five, none
    resolved. *)
Definition scenario_server : request → response :=
  team_server [] []
    [(1, (tickets_with_status 4 1 6 ++ tickets_with_status 2 7 4)%list);
     (2, tickets_with_status 2 11 5)].

(** * Definitions used by the further statements *)

(** Three hundred seconds in microseconds. *)
Definition ttl_usec : Z := 300 * 1000000.

(** The last element of [l] that satisfies [P]. *)
Definition last_such {A} (P : A → Prop) `{∀ x, Decision (P x)} (l : list A) : option A :=
  last (filter P l).

(** A cache filled a hundred seconds before [noon]. *)
Definition fresh_cache : lookup_cache :=
  mk_cache (Some (add_agent ∅ (agent 7 "Old" "Entry")))
           (Some (add_group ∅ (group 3 "Old group")))
           (Some (noon - 100 * 1000000)).

Definition fresh_world : world := mk_world fresh_cache [] 0.

(** The state an outcome ends in. *)
Definition world_of {A} (o : outcome A) : option world :=
  match o with
  | Val _ w | Exc _ w => Some w
  | Diverge => None
  end.

(** The parts of the filter expression of [get_ticket_stats] (lines
    3576-3585). *)
Definition stats_query_parts (group_id : option Z) (created_after created_before : option string)
  : list string :=
  (opt_part "group_id:" "" (pretty <$> group_id)
   ++ opt_part "created_at:>'" "'" created_after
   ++ opt_part "created_at:<'" "'" created_before)%list.

(** What a ticket restricted to [fields] holds under [k]. *)
Definition restricted (fields : option (list string)) (ticket : py_dict) (k : string)
  : option py_value :=
  match fields with
  | Some (f :: fs) => if decide (k ∈ f :: fs) then ticket !! k else None
  | _ => ticket !! k
  end.

(** The validation message of [get_ticket_stats]. *)
Definition no_filter_error : string :=
  "At least one filter parameter must be provided (group_id, created_after, or created_before)".

(** An outcome that is a raised exception. *)
Definition raises {A} (o : outcome A) : Prop :=
  match o with
  | Exc _ _ => True
  | _ => False
  end.

(** A list whose keys never increase from left to right. *)
Fixpoint descending {A} (key : A → nat) (l : list A) : Prop :=
  match l with
  | [] => True
  | x :: rest => Forall (λ y, (key y ≤ key x)%nat) rest ∧ descending key rest
  end.

(** The entries of [agent_metrics] before the sort (lines 3871-3914). *)
Definition unsorted_metrics (fromisoformat : string → option parsed_datetime)
    (agents_lookup : agents_map) (all_tickets : list py_dict) : list agent_metric :=
  (λ '(responder_id, tickets), agent_entry fromisoformat agents_lookup responder_id tickets)
    <$> group_by_responder all_tickets.

(** The responder of a ticket. *)
Definition responder_of (ticket : py_dict) : py_value := dict_get ticket "responder_id".

(** The value an insertion-ordered dict holds under [k]. *)
Fixpoint assoc {V} (k : py_value) (d : list (py_value * V)) : option V :=
  match d with
  | [] => None
  | (k', v) :: rest => if decide (k' = k) then Some v else assoc k rest
  end.

(** The tickets of [tickets] whose responder is [k]. *)
Definition tickets_of (k : py_value) (tickets : list py_dict) : list py_dict :=
  filter (λ t, responder_of t = k) tickets.

(** The tickets that have a responder. *)
Definition assigned_tickets (tickets : list py_dict) : list py_dict :=
  filter (λ t, truthy (responder_of t) = true) tickets.

(** The [agent_ticket_counts] of lines 4095-4099, as [top_agents_of] builds
    it. *)
Definition agent_ticket_counts (all_tickets : list py_dict) : list (py_value * nat) :=
  foldl (λ acc ticket,
           let responder_id := dict_get ticket "responder_id" in
           if truthy responder_id then count_append responder_id acc else acc)
        [] all_tickets.

(** The name [top_agents_of] gives an agent (lines 4103-4106). *)
Definition agent_name_of (agents_lookup : agents_map) (agent_id : py_value) : py_value :=
  match agents_lookup !! agent_id with
  | Some info => ai_name info
  | None => PStr ("Agent-" +:+ py_str agent_id)
  end.

(** The sizes of the groups of an insertion-ordered dict of lists. *)
Definition sizes (groups : list (py_value * list py_dict)) : list (py_value * nat) :=
  (λ '(k, ts), (k, length ts)) <$> groups.

(** A number between 0 and 1. *)
Definition unit_interval (q : Q) : Prop := (0 <= q)%Q ∧ (q <= 1)%Q.

(** Every character of [s] satisfies [f]. *)
Fixpoint all_chars (f : ascii → bool) (s : string) : bool :=
  match s with
  | EmptyString => true
  | String c r => f c && all_chars f r
  end.

(** The characters of a URL in a Link header: anything but a line feed, a
    closing angle bracket and a comma. *)
Definition url_char (c : ascii) : bool :=
  PyStr.is_dot c && negb (PyStr.is_char c 62) && negb (PyStr.is_char c 44).

(** The characters of a relation name: anything but a line feed, a double
    quote and a comma. *)
Definition rel_char (c : ascii) : bool :=
  PyStr.is_dot c && negb (PyStr.is_char c 34) && negb (PyStr.is_char c 44).

(** No equals sign. *)
Definition no_equals (c : ascii) : bool := negb (PyStr.is_char c 61).

(** A Link header with one entry, whose URL has the page number [n] in its
    first page parameter. *)
Definition canonical_link (prefix : string) (n : Z) (suffix rel : string) : string :=
  "<" +:+ (prefix +:+ "page=" +:+ pretty n +:+ suffix)
  +:+ ">; rel=" +:+ PyStr.dq +:+ rel +:+ PyStr.dq.

(** A string that does not begin with a digit. *)
Definition no_leading_digit (s : string) : Prop :=
  match s with
  | String c _ => PyStr.is_digit c = false
  | EmptyString => True
  end.

(** The request of a listing: a page of a given size, no query. *)
Definition listing_request (path : string) (page per_page : Z) : request :=
  mk_request path None None page (Some per_page).

(** The arguments a listing accepts. *)
Definition valid_page (page per_page : Z) : Prop :=
  1 ≤ page ∧ 1 ≤ per_page ∧ per_page ≤ 100.

(** The page number the last valid entry with relation [rel] of a Link
    header gives; [None] without a header or without such an entry. *)
Definition cursor (rel : string) (link : option string) : option Z :=
  snd <$> last_such (λ e, e.1 = rel) (valid_entries (default EmptyString link)).

(** The state after the requests [rqs] have been sent. *)
Definition sent (rqs : list request) (w : world) : world :=
  mk_world (w_cache w) (w_log w ++ rqs) (w_ticks w).

(** The collaborator answers the pages 1, 2, ... of the agent query with
    the lists [chunks], whatever their sizes, and names the following page in
    the Link header of every page but the last. *)
Definition serves_chunks (server : request → response) (query : string)
    (chunks : list (list py_dict)) : Prop :=
  ∀ (i : nat) chunk, chunks !! i = Some chunk →
    ∃ data link,
      server (agents_query_request query (Z.of_nat (S i))) = Ok200 data link
      ∧ envelope data "agents" = chunk
      ∧ link_next link
        = if bool_decide (S i < length chunks)%nat then Some (Z.of_nat (S (S i))) else None.

(** A Link header with the one relation next. *)
Definition next_header (page : Z) : string :=
  canonical_link "https://x.freshservice.com/api/v2/agents?" page EmptyString "next".

(** A collaborator for [serves_chunks]. *)
Definition chunk_server (chunks : list (list py_dict)) : request → response :=
  λ rq,
    let i := Z.to_nat (rq_page rq - 1) in
    Ok200 {["agents" := default [] (chunks !! i)]}
      (if bool_decide (S i < length chunks)%nat then Some (next_header (rq_page rq + 1))
       else None).

(** A collaborator whose every page names page 1 as the next one. *)
Definition stuck_server : request → response :=
  λ _, Ok200 ∅ (Some (next_header 1)).

(** A collaborator that serves [xs] under every ticket query, [per_page]
    to a page, with no Link header. *)
Definition short_page_server (per_page : nat) (xs : list py_dict) : request → response :=
  λ rq, Ok200 {["tickets" := page_of per_page xs (rq_page rq)]} None.

(** A collaborator whose every page holds the same thirty tickets. *)
Definition endless_server : request → response :=
  λ _, Ok200 {["tickets" := tickets_with_status 2 1 30]} None.

(** An outcome that is a divergence. *)
Definition runs_on {A} (o : outcome A) : bool :=
  match o with
  | Diverge => true
  | _ => false
  end.

(** * Properties *)

(** ** Rounding to the nearest double *)

Section Floats.
Local Open Scope Q_scope.

Lemma pow2_pos (e : Z) : 0 < 2 ^ e.
Proof. apply Qpower_0_lt. reflexivity. Qed.

Lemma pow2_plus (a b : Z) : 2 ^ (a + b) == 2 ^ a * 2 ^ b.
Proof. apply Qpower_plus. discriminate. Qed.

Lemma pow2_succ (a : Z) : 2 ^ (a + 1) == 2 * 2 ^ a.
Proof. rewrite pow2_plus. change (2 ^ 1) with 2. ring. Qed.

Lemma pow2_Z (a : Z) : (0 <= a)%Z → 2 ^ a == inject_Z (2 ^ a).
Proof. intros Ha. symmetry. apply Zpower_Qpower. exact Ha. Qed.

Lemma pow2_le (a b : Z) : (a <= b)%Z → 2 ^ a <= 2 ^ b.
Proof. intros H. apply Qpower_le_compat_l; [exact H|]. unfold Qle; cbn; lia. Qed.

Lemma pow2_lt (a b : Z) : (a < b)%Z → 2 ^ a < 2 ^ b.
Proof. intros H. apply Qpower_lt_compat_l; [exact H|]. reflexivity. Qed.

Lemma pow2_lt_inv (a b : Z) : 2 ^ a < 2 ^ b → (a < b)%Z.
Proof.
  intros H. destruct (Z_lt_le_dec a b) as [|Hle]; [assumption|].
  apply pow2_le in Hle. lra.
Qed.

Lemma pow2_split (a b : Z) : 2 ^ (a - b) * 2 ^ b == 2 ^ a.
Proof. rewrite <- pow2_plus. replace (a - b + b)%Z with a by lia. reflexivity. Qed.

Lemma Qabs_frac (x : Q) :
  Qabs x * inject_Z (Zpos (Qden x)) == inject_Z (Z.abs (Qnum x)).
Proof.
  destruct x as [n d]. unfold Qabs, Qeq, Qmult, inject_Z. cbn [Qnum Qden].
  rewrite Pos.mul_1_r. ring.
Qed.

Lemma ilog2_spec (x : Q) :
  ¬ x == 0 → 2 ^ ilog2 x <= Qabs x ∧ Qabs x < 2 ^ (ilog2 x + 1).
Proof.
  intros Hx. unfold ilog2. cbv zeta.
  set (n := Z.abs (Qnum x)). set (d := Zpos (Qden x)).
  assert (Hn : (0 < n)%Z).
  { unfold n. destruct x as [[|p|p] dx]; [|cbn; lia|cbn; lia]. exfalso. apply Hx. reflexivity. }
  assert (Hd : (0 < d)%Z) by (unfold d; lia).
  pose proof (Z.log2_spec n Hn) as [Hn1 Hn2]. pose proof (Z.log2_spec d Hd) as [Hd1 Hd2].
  pose proof (Z.log2_nonneg n) as Ha. pose proof (Z.log2_nonneg d) as Hb.
  set (a := Z.log2 n) in *. set (b := Z.log2 d) in *.
  pose proof (Qabs_frac x) as Hfrac. fold n d in Hfrac.
  pose proof (Qabs_nonneg x) as Hnn.
  assert (HA : 2 ^ a == inject_Z (2 ^ a)) by (by apply pow2_Z).
  assert (HB : 2 ^ b == inject_Z (2 ^ b)) by (by apply pow2_Z).
  assert (Hn1' : 2 ^ a <= inject_Z n) by (rewrite HA, <- Zle_Qle; exact Hn1).
  assert (Hn2' : inject_Z n < 2 * 2 ^ a).
  { rewrite HA. change 2 with (inject_Z 2) at 1. rewrite <- inject_Z_mult, <- Zlt_Qlt.
    rewrite Z.pow_succ_r in Hn2 by done. lia. }
  assert (Hd1' : 2 ^ b <= inject_Z d) by (rewrite HB, <- Zle_Qle; exact Hd1).
  assert (Hd2' : inject_Z d < 2 * 2 ^ b).
  { rewrite HB. change 2 with (inject_Z 2) at 1. rewrite <- inject_Z_mult, <- Zlt_Qlt.
    rewrite Z.pow_succ_r in Hd2 by done. lia. }
  pose proof (pow2_pos a) as Hpa. pose proof (pow2_pos b) as Hpb.
  pose proof (pow2_split a b) as Hsplit. pose proof (pow2_pos (a - b)) as Hpe.
  set (X := Qabs x) in *. set (A := 2 ^ a) in *. set (B := 2 ^ b) in *.
  set (D := inject_Z d) in *. set (N := inject_Z n) in *.
  destruct (Qle_bool (2 ^ (a - b)) X) eqn:Htest.
  - apply Qle_bool_iff in Htest. split; [exact Htest|].
    rewrite pow2_succ. set (E := 2 ^ (a - b)) in *.
    (* X * B <= X * D = N < 2A = 2 E B *)
    assert (X * B < 2 * E * B) by nra.
    apply Qmult_lt_r with (z := B); [exact Hpb|]. exact H.
  - assert (Hlt : X < 2 ^ (a - b)).
    { apply Qnot_le_lt. intros Hle. apply Qle_bool_iff in Hle. congruence. }
    replace (a - b - 1 + 1)%Z with (a - b)%Z by lia. split; [|exact Hlt].
    assert (Hhalf : 2 * 2 ^ (a - b - 1) == 2 ^ (a - b)).
    { rewrite <- pow2_succ. replace (a - b - 1 + 1)%Z with (a - b)%Z by lia. reflexivity. }
    pose proof (pow2_pos (a - b - 1)) as Hph.
    set (E := 2 ^ (a - b)) in *. set (H2 := 2 ^ (a - b - 1)) in *.
    (* A <= N = X D < X * 2B ; A = E B = 2 H2 B → H2 <= X *)
    assert (H2 * (2 * B) <= X * (2 * B)) by nra.
    apply Qmult_le_r with (z := 2 * B); [nra|]. exact H.
Qed.

Lemma ilog2_unique (x : Q) (e : Z) :
  2 ^ e <= Qabs x → Qabs x < 2 ^ (e + 1) → ilog2 x = e.
Proof.
  intros H1 H2.
  assert (Hx : ¬ x == 0).
  { intros E. rewrite E in H1. pose proof (pow2_pos e). change (Qabs 0) with 0 in H1. lra. }
  destruct (ilog2_spec x Hx) as [H3 H4].
  assert (ilog2 x < e + 1)%Z by (apply pow2_lt_inv; lra).
  assert (e < ilog2 x + 1)%Z by (apply pow2_lt_inv; lra).
  lia.
Qed.

Lemma ilog2_compat (x y : Q) : ¬ x == 0 → x == y → ilog2 x = ilog2 y.
Proof.
  intros Hx E. destruct (ilog2_spec x Hx) as [H1 H2].
  symmetry. apply ilog2_unique; by rewrite <- E.
Qed.

Lemma Qfloor_unique (x : Q) (z : Z) :
  inject_Z z <= x → x < inject_Z (z + 1) → Qfloor x = z.
Proof.
  intros H1 H2. pose proof (Qfloor_le x) as H3. pose proof (Qlt_floor x) as H4.
  assert (inject_Z z < inject_Z (Qfloor x + 1)) as H5 by lra.
  assert (inject_Z (Qfloor x) < inject_Z (z + 1)) as H6 by lra.
  rewrite <- Zlt_Qlt in H5, H6. lia.
Qed.

Lemma round_half_even_compat (x y : Q) : x == y → round_half_even x = round_half_even y.
Proof.
  intros E. unfold round_half_even. rewrite (Qfloor_comp x y E). cbv zeta.
  assert (Hc : (x - inject_Z (Qfloor y) ?= 1 # 2) = (y - inject_Z (Qfloor y) ?= 1 # 2)).
  { apply Qcompare_comp; [|reflexivity]. by rewrite E. }
  by rewrite Hc.
Qed.

Lemma round_half_even_Z (z : Z) : round_half_even (inject_Z z) = z.
Proof.
  unfold round_half_even. rewrite Qfloor_Z. cbv zeta.
  destruct (Qcompare_spec (inject_Z z - inject_Z z) (1 # 2)) as [E|E|E]; [lra|done|lra].
Qed.

Lemma round_half_even_bounds (x : Q) (a b : Z) :
  inject_Z a <= x → x <= inject_Z b → (a <= round_half_even x <= b)%Z.
Proof.
  intros Ha Hb. unfold round_half_even. cbv zeta.
  pose proof (Qfloor_le x) as Hf. pose proof (Qlt_floor x) as Hc.
  assert (Hfa : (a <= Qfloor x)%Z).
  { rewrite <- (Qfloor_Z a). by apply Qfloor_resp_le. }
  assert (Hfb : (Qfloor x <= b)%Z).
  { rewrite <- (Qfloor_Z b). by apply Qfloor_resp_le. }
  assert (Hstrict : inject_Z (Qfloor x) < x → (Qfloor x < b)%Z).
  { intros Hlt. destruct (Z_lt_le_dec (Qfloor x) b) as [|Hge]; [done|].
    assert (Qfloor x = b) as Heq by lia. rewrite Heq in Hlt. lra. }
  destruct (Qcompare_spec (x - inject_Z (Qfloor x)) (1 # 2)) as [Heq|Hlt|Hgt].
  - destruct (Z.even _); [lia|]. assert (Qfloor x < b)%Z; [|lia]. apply Hstrict. lra.
  - lia.
  - assert (Qfloor x < b)%Z; [|lia]. apply Hstrict. lra.
Qed.

Lemma round_half_even_mono (x y : Q) :
  x <= y → (round_half_even x <= round_half_even y)%Z.
Proof.
  intros Hxy. pose proof (Qfloor_resp_le x y Hxy) as Hf.
  destruct (Z.eq_dec (Qfloor x) (Qfloor y)) as [E|NE].
  - unfold round_half_even. cbv zeta. rewrite <- E.
    destruct (Qcompare_spec (x - inject_Z (Qfloor x)) (1 # 2)) as [E1|E1|E1],
             (Qcompare_spec (y - inject_Z (Qfloor x)) (1 # 2)) as [E2|E2|E2];
      try lra; try lia; destruct (Z.even (Qfloor x)); lia.
  - pose proof (round_half_even_bounds x (Qfloor x) (Qfloor x + 1)) as [_ H1];
      [apply Qfloor_le|apply Qlt_le_weak, Qlt_floor|].
    pose proof (round_half_even_bounds y (Qfloor y) (Qfloor y + 1)) as [H2 _];
      [apply Qfloor_le|apply Qlt_le_weak, Qlt_floor|].
    lia.
Qed.

Lemma round_half_even_opp (x : Q) : round_half_even (- x) = (- round_half_even x)%Z.
Proof.
  pose proof (Qfloor_le x) as Hf. pose proof (Qlt_floor x) as Hc.
  rewrite inject_Z_plus in Hc. change (inject_Z 1) with 1 in Hc.
  destruct (Qeq_dec x (inject_Z (Qfloor x))) as [E|NE].
  - rewrite (round_half_even_compat x _ E), round_half_even_Z.
    rewrite (round_half_even_compat (- x) (inject_Z (- Qfloor x))).
    + apply round_half_even_Z.
    + rewrite inject_Z_opp. by rewrite <- E.
  - assert (Hlt : inject_Z (Qfloor x) < x).
    { apply Qle_lt_or_eq in Hf as [?|E]; [done|]. exfalso. apply NE. by symmetry. }
    assert (Hi : inject_Z (- Qfloor x - 1) == - inject_Z (Qfloor x) - 1).
    { unfold Z.sub. rewrite inject_Z_plus, !inject_Z_opp. reflexivity. }
    assert (Hfl : Qfloor (- x) = (- Qfloor x - 1)%Z).
    { apply Qfloor_unique.
      - rewrite Hi. lra.
      - replace (- Qfloor x - 1 + 1)%Z with (- Qfloor x)%Z by lia. rewrite inject_Z_opp. lra. }
    unfold round_half_even. cbv zeta. rewrite Hfl.
    assert (Hev : Z.even (- Qfloor x - 1) = negb (Z.even (Qfloor x))).
    { replace (- Qfloor x - 1)%Z with (- (Qfloor x + 1))%Z by lia.
      rewrite Z.even_opp, Z.even_add. by destruct (Z.even (Qfloor x)). }
    rewrite Hev.
    destruct (Qcompare_spec (x - inject_Z (Qfloor x)) (1 # 2)) as [E1|E1|E1],
             (Qcompare_spec (- x - inject_Z (- Qfloor x - 1)) (1 # 2)) as [E2|E2|E2];
      rewrite Hi in E2; try lra; try lia; destruct (Z.even (Qfloor x)); cbn [negb]; lia.
Qed.

Lemma Qeq_bool_false (x : Q) : ¬ x == 0 → Qeq_bool x 0 = false.
Proof.
  intros H. destruct (Qeq_bool x 0) eqn:E; [|done]. by apply Qeq_bool_iff in E.
Qed.

Lemma Qeq_bool_true (x : Q) : x == 0 → Qeq_bool x 0 = true.
Proof. intros H. by apply Qeq_bool_iff. Qed.

Lemma binary64_nonzero (x : Q) :
  ¬ x == 0 →
  binary64 x = inject_Z (round_half_even (x / 2 ^ ulp_exponent x)) * 2 ^ ulp_exponent x.
Proof. intros H. unfold binary64. by rewrite Qeq_bool_false. Qed.

Lemma binary64_zero (x : Q) : x == 0 → binary64 x = 0.
Proof. intros H. unfold binary64. by rewrite Qeq_bool_true. Qed.

Lemma ulp_exponent_compat (x y : Q) : ¬ x == 0 → x == y → ulp_exponent x = ulp_exponent y.
Proof. intros Hx E. unfold ulp_exponent. by rewrite (ilog2_compat x y Hx E). Qed.

Lemma binary64_compat (x y : Q) : x == y → binary64 x == binary64 y.
Proof.
  intros E. destruct (Qeq_dec x 0) as [Hx|Hx].
  - rewrite (binary64_zero x Hx), (binary64_zero y); [reflexivity|lra].
  - rewrite (binary64_nonzero x Hx), (binary64_nonzero y) by (intros E'; apply Hx; lra).
    rewrite <- (ulp_exponent_compat x y Hx E).
    rewrite (round_half_even_compat (x / 2 ^ ulp_exponent x) (y / 2 ^ ulp_exponent x));
      [reflexivity|by apply Qmult_comp].
Qed.

Lemma ilog2_opp (x : Q) : ¬ x == 0 → ilog2 (- x) = ilog2 x.
Proof.
  intros Hx. destruct (ilog2_spec x Hx) as [H1 H2].
  apply ilog2_unique; by rewrite Qabs_opp.
Qed.

(** Rounding is odd. *)
Lemma binary64_opp (x : Q) : binary64 (- x) == - binary64 x.
Proof.
  destruct (Qeq_dec x 0) as [Hx|Hx].
  - rewrite (binary64_zero x Hx), (binary64_zero (- x)); [reflexivity|lra].
  - assert (Hx' : ¬ - x == 0) by (intros E; apply Hx; lra).
    rewrite (binary64_nonzero x Hx), (binary64_nonzero (- x) Hx').
    unfold ulp_exponent. rewrite (ilog2_opp x Hx). fold (ulp_exponent x).
    rewrite (round_half_even_compat (- x / 2 ^ ulp_exponent x) (- (x / 2 ^ ulp_exponent x)))
      by (unfold Qdiv; ring).
    rewrite round_half_even_opp, inject_Z_opp. ring.
Qed.

Lemma scaled_bounds (x : Q) (q : Z) (a b : Z) :
  inject_Z a * 2 ^ q <= x → x <= inject_Z b * 2 ^ q →
  inject_Z a * 2 ^ q <= inject_Z (round_half_even (x / 2 ^ q)) * 2 ^ q
  ∧ inject_Z (round_half_even (x / 2 ^ q)) * 2 ^ q <= inject_Z b * 2 ^ q.
Proof.
  intros Ha Hb. pose proof (pow2_pos q) as Hp.
  destruct (round_half_even_bounds (x / 2 ^ q) a b) as [H1 H2].
  - apply Qle_shift_div_l; [done|]. exact Ha.
  - apply Qle_shift_div_r; [done|]. exact Hb.
  - rewrite Zle_Qle in H1, H2. split; apply Qmult_le_compat_r; try done; lra.
Qed.

Lemma scaled_floor (x p : Q) :
  0 < p → inject_Z (Qfloor (x / p)) * p <= x ∧ x <= inject_Z (Qfloor (x / p) + 1) * p.
Proof.
  intros Hp. pose proof (Qfloor_le (x / p)) as H1. pose proof (Qlt_floor (x / p)) as H2.
  assert (E : x == x / p * p) by (field; lra).
  set (y := x / p) in *. split.
  - rewrite E. apply Qmult_le_compat_r; lra.
  - rewrite E. apply Qmult_le_compat_r; lra.
Qed.

Lemma binary64_nonneg (x : Q) : 0 <= x → 0 <= binary64 x.
Proof.
  intros H. destruct (Qeq_dec x 0) as [Hx|Hx].
  - rewrite (binary64_zero x Hx). lra.
  - rewrite (binary64_nonzero x Hx).
    destruct (scaled_bounds x (ulp_exponent x) 0 (Qfloor (x / 2 ^ ulp_exponent x) + 1))
      as [H1 _].
    + change (inject_Z 0) with 0. lra.
    + apply scaled_floor, pow2_pos.
    + change (inject_Z 0) with 0 in H1. lra.
Qed.

Lemma pow2_scaled (t q : Z) : (q <= t)%Z → inject_Z (2 ^ (t - q)) * 2 ^ q == 2 ^ t.
Proof. intros H. rewrite <- pow2_Z by lia. apply pow2_split. Qed.

Lemma binary64_ge_pow2 (x : Q) :
  0 < x → (ulp_exponent x <= ilog2 x)%Z → 2 ^ ilog2 x <= binary64 x.
Proof.
  intros Hx Hq. assert (Hnz : ¬ x == 0) by lra.
  destruct (ilog2_spec x Hnz) as [H1 _]. rewrite Qabs_pos in H1 by lra.
  rewrite (binary64_nonzero x Hnz).
  destruct (scaled_bounds x (ulp_exponent x) (2 ^ (ilog2 x - ulp_exponent x))
              (Qfloor (x / 2 ^ ulp_exponent x) + 1)) as [H _].
  - by rewrite pow2_scaled.
  - apply scaled_floor, pow2_pos.
  - by rewrite pow2_scaled in H.
Qed.

Lemma binary64_le_pow2 (x : Q) :
  0 < x → binary64 x <= 2 ^ Z.max (ilog2 x + 1) (ulp_exponent x).
Proof.
  intros Hx. assert (Hnz : ¬ x == 0) by lra.
  destruct (ilog2_spec x Hnz) as [_ H2]. rewrite Qabs_pos in H2 by lra.
  rewrite (binary64_nonzero x Hnz).
  set (t := Z.max (ilog2 x + 1) (ulp_exponent x)).
  assert (Ht : 2 ^ (ilog2 x + 1) <= 2 ^ t) by (apply pow2_le; lia).
  destruct (scaled_bounds x (ulp_exponent x) 0 (2 ^ (t - ulp_exponent x))) as [_ H].
  - change (inject_Z 0) with 0. lra.
  - rewrite pow2_scaled by lia. lra.
  - by rewrite pow2_scaled in H by lia.
Qed.

Lemma binary64_mono_pos (x y : Q) : 0 < x → x <= y → binary64 x <= binary64 y.
Proof.
  intros Hx Hxy. assert (Hy : 0 < y) by lra.
  assert (Hnx : ¬ x == 0) by lra. assert (Hny : ¬ y == 0) by lra.
  destruct (ilog2_spec x Hnx) as [Hx1 Hx2]. destruct (ilog2_spec y Hny) as [Hy1 Hy2].
  rewrite Qabs_pos in Hx1, Hx2, Hy1, Hy2 by lra.
  assert (He : (ilog2 x <= ilog2 y)%Z).
  { assert (ilog2 x < ilog2 y + 1)%Z by (apply pow2_lt_inv; lra). lia. }
  destruct (Z.eq_dec (ulp_exponent x) (ulp_exponent y)) as [Eq|Nq].
  - rewrite (binary64_nonzero x Hnx), (binary64_nonzero y Hny), <- Eq.
    pose proof (pow2_pos (ulp_exponent x)) as Hp.
    apply Qmult_le_compat_r; [|lra]. rewrite <- Zle_Qle.
    apply round_half_even_mono. apply Qmult_le_compat_r; [done|].
    apply Qlt_le_weak, Qinv_lt_0_compat, Hp.
  - assert (Hlt : (ilog2 x < ilog2 y)%Z) by (unfold ulp_exponent in Nq; lia).
    assert (Hq : (ulp_exponent y <= ilog2 y)%Z) by (unfold ulp_exponent in *; lia).
    pose proof (binary64_ge_pow2 y Hy Hq) as H1.
    pose proof (binary64_le_pow2 x Hx) as H2.
    assert (2 ^ Z.max (ilog2 x + 1) (ulp_exponent x) <= 2 ^ ilog2 y)
      by (apply pow2_le; unfold ulp_exponent in *; lia).
    lra.
Qed.

(** Rounding is monotone. *)
Lemma binary64_mono (x y : Q) : x <= y → binary64 x <= binary64 y.
Proof.
  intros Hxy. destruct (Qlt_le_dec 0 x) as [Hx|Hx]; [by apply binary64_mono_pos|].
  assert (Hbx : binary64 x <= 0).
  { pose proof (binary64_nonneg (- x)) as H. rewrite binary64_opp in H. lra. }
  destruct (Qlt_le_dec y 0) as [Hy|Hy].
  - pose proof (binary64_mono_pos (- y) (- x)) as H.
    rewrite !binary64_opp in H. lra.
  - pose proof (binary64_nonneg y Hy). lra.
Qed.

(** An integer of magnitude below 2^53 is a float. *)
Lemma binary64_Z (z : Z) : (Z.abs z < 2 ^ 53)%Z → binary64 (inject_Z z) == inject_Z z.
Proof.
  intros Hz. destruct (Z.eq_dec z 0%Z) as [->|Hnz]; [reflexivity|].
  assert (Hq : ¬ inject_Z z == 0).
  { intros E. apply Hnz. unfold Qeq in E. cbn in E. lia. }
  rewrite (binary64_nonzero _ Hq).
  destruct (ilog2_spec _ Hq) as [H1 _].
  assert (Habs : Qabs (inject_Z z) == inject_Z (Z.abs z)).
  { unfold inject_Z. by rewrite Zabs_Qabs. }
  assert (He : (ilog2 (inject_Z z) < 53)%Z).
  { apply pow2_lt_inv. rewrite Habs in H1.
    assert (inject_Z (Z.abs z) < 2 ^ 53); [|lra].
    rewrite (pow2_Z 53) by lia. by rewrite <- Zlt_Qlt. }
  set (q := ulp_exponent (inject_Z z)).
  assert (Hq0 : (q <= 0)%Z) by (unfold q, ulp_exponent; lia).
  assert (Hscale : inject_Z z / 2 ^ q == inject_Z (z * 2 ^ (- q))).
  { rewrite inject_Z_mult, <- (pow2_Z (- q)) by lia.
    rewrite Qpower_opp. reflexivity. }
  rewrite (round_half_even_compat _ _ Hscale), round_half_even_Z.
  rewrite inject_Z_mult, <- (pow2_Z (- q)) by lia.
  rewrite <- Qmult_assoc, <- pow2_plus. replace (- q + q)%Z with 0%Z by lia.
  change (2 ^ 0) with 1. ring.
Qed.

Lemma round_half_even_error (y : Q) :
  inject_Z (round_half_even y) - (1 # 2) <= y ∧ y <= inject_Z (round_half_even y) + (1 # 2).
Proof.
  unfold round_half_even. cbv zeta.
  pose proof (Qfloor_le y) as Hf. pose proof (Qlt_floor y) as Hc.
  rewrite inject_Z_plus in Hc. change (inject_Z 1) with 1 in Hc.
  destruct (Qcompare_spec (y - inject_Z (Qfloor y)) (1 # 2)) as [Heq|Hlt|Hgt].
  - destruct (Z.even _); rewrite ?inject_Z_plus; change (inject_Z 1) with 1; lra.
  - lra.
  - rewrite inject_Z_plus. change (inject_Z 1) with 1. lra.
Qed.

(** A positive number of the normal range is rounded with a relative error
    of at most 2^-53. *)
Lemma binary64_error (x : Q) :
  2 ^ (-1022) <= x →
  x * (1 - (1 # 9007199254740992)) <= binary64 x
  ∧ binary64 x <= x * (1 + (1 # 9007199254740992)).
Proof.
  intros Hx. pose proof (pow2_pos (-1022)) as Hp.
  assert (Hnz : ¬ x == 0) by lra.
  destruct (ilog2_spec x Hnz) as [H1 H2]. rewrite Qabs_pos in H1, H2 by lra.
  assert (He : (-1022 <= ilog2 x)%Z).
  { assert (-1022 < ilog2 x + 1)%Z by (apply pow2_lt_inv; lra). lia. }
  rewrite (binary64_nonzero x Hnz).
  assert (Hq : ulp_exponent x = (ilog2 x - 52)%Z) by (unfold ulp_exponent; lia).
  rewrite Hq. set (q := (ilog2 x - 52)%Z).
  pose proof (pow2_pos q) as Hpq.
  destruct (round_half_even_error (x / 2 ^ q)) as [Hlo Hhi].
  set (r := inject_Z (round_half_even (x / 2 ^ q))) in *.
  assert (Ex : x == x / 2 ^ q * 2 ^ q) by (field; lra).
  assert (Hu : 2 ^ q * (1 # 2) <= x * (1 # 9007199254740992)).
  { assert (E : 2 ^ q == 2 ^ ilog2 x * (1 # 4503599627370496)).
    { unfold q. replace (ilog2 x - 52)%Z with (ilog2 x + -52)%Z by lia.
      rewrite pow2_plus. apply Qmult_comp; [reflexivity|]. vm_compute. reflexivity. }
    rewrite E. lra. }
  assert (Hlo' : (r - (1 # 2)) * 2 ^ q <= x / 2 ^ q * 2 ^ q)
    by (apply Qmult_le_compat_r; lra).
  assert (Hhi' : x / 2 ^ q * 2 ^ q <= (r + (1 # 2)) * 2 ^ q)
    by (apply Qmult_le_compat_r; lra).
  rewrite <- Ex in Hlo', Hhi'.
  split; lra.
Qed.

End Floats.

#[global] Instance binary64_proper : Proper (Qeq ==> Qeq) binary64.
Proof. intros x y E. by apply binary64_compat. Qed.

(** ** Pagination cursor parser *)

Section CursorParser.

Lemma parse_link_steps (links : list string) (m : gmap string (option Z)) :
  foldl parse_link_step m links = foldl store_entry m (omap link_entry links).
Proof.
  revert m; induction links as [|l links IH]; intros m; [done|].
  simpl. rewrite IH. unfold parse_link_step.
  destruct (link_entry l) as [[rel n]|]; reflexivity.
Qed.

Lemma parse_link_header_fold (link_header : string) :
  parse_link_header link_header
  = foldl store_entry pagination_init (valid_entries link_header).
Proof.
  unfold parse_link_header, valid_entries.
  destruct link_header as [|c r]; [reflexivity|].
  apply parse_link_steps.
Qed.

Lemma dom_store_entries (es : list (string * Z)) (m : gmap string (option Z)) :
  dom (foldl store_entry m es) = dom m ∪ list_to_set es.*1.
Proof.
  revert m; induction es as [|e es IH]; intros m; simpl.
  - set_solver.
  - rewrite IH. unfold store_entry. rewrite dom_insert_L. set_solver.
Qed.

Lemma dom_pagination_init : dom pagination_init = {["next"; "prev"]}.
Proof.
  unfold pagination_init. rewrite !dom_insert_L. set_solver.
Qed.

(** C2, as the code has it: the function is total; the result always has
    the keys next and prev; its keys are these two and the relation of
    every valid entry, whatever that relation is (a relation other than
    next and prev is stored, not skipped); entries with no match or with no
    page parameter leave the mapping unchanged; and a header with no valid
    entry yields next and prev both [None] and nothing else. *)
Theorem parse_link_header_keys (link_header : string) :
  let pagination := parse_link_header link_header in
  pagination = foldl store_entry pagination_init (valid_entries link_header)
  ∧ dom pagination = {["next"; "prev"]} ∪ list_to_set (valid_entries link_header).*1
  ∧ (valid_entries link_header = [] →
     pagination = pagination_init
     ∧ pagination !! "next" = Some None ∧ pagination !! "prev" = Some None
     ∧ next_page pagination = None).
Proof.
  cbv zeta. rewrite parse_link_header_fold. split; [done|]. split.
  - by rewrite dom_store_entries, dom_pagination_init.
  - intros ->. simpl. repeat split; reflexivity.
Qed.

(** C2 as stated fails: a well-formed entry whose relation is neither next
    nor prev adds its relation as a third key. *)
Lemma parse_link_header_other_relation :
  parse_link_header header_last !! "last" = Some (Some 5)
  ∧ ¬ dom (parse_link_header header_last) ⊆ {["next"; "prev"]}.
Proof.
  assert (H : parse_link_header header_last !! "last" = Some (Some 5))
    by (vm_compute; reflexivity).
  split; [exact H|]. intros Hsub.
  pose proof (elem_of_dom_2 _ _ _ H) as Hin.
  generalize dependent (parse_link_header header_last). intros m _ Hsub Hin.
  apply Hsub in Hin. set_solver.
Qed.

Lemma parse_link_header_keys_witness :
  valid_entries "page=3; rel=next" = []
  ∧ parse_link_header "page=3; rel=next" = pagination_init.
Proof.
  split; [vm_compute; reflexivity|].
  apply (parse_link_header_keys "page=3; rel=next"). vm_compute; reflexivity.
Defined.

(** The parser on some headers, as CPython's [re] answers them. *)
Example parse_next_and_prev :
  map_to_list (parse_link_header
                 ("<https://x/api?page=2>; rel=" +:+ PyStr.dq +:+ "next" +:+ PyStr.dq
                  +:+ ", <https://x/api?page=1>;rel=" +:+ PyStr.dq +:+ "prev" +:+ PyStr.dq))
  = map_to_list (<["next" := Some 2]> (<["prev" := Some 1]> ∅) : gmap string (option Z)).
Proof. vm_compute. reflexivity. Qed.

Example link_entry_leftmost :
  link_entry ("<page=3>; x <page=4>; rel=" +:+ PyStr.dq +:+ "next" +:+ PyStr.dq)
  = Some ("next", 3).
Proof. vm_compute. reflexivity. Qed.

Example link_entry_line_feed :
  link_entry ("<" +:+ String (ascii_of_nat 10) "?page=2>; rel=" +:+ PyStr.dq +:+ "next"
              +:+ PyStr.dq) = None.
Proof. vm_compute. reflexivity. Qed.

Example link_entry_leading_zeros :
  link_entry ("zz<a?page=007>;" +:+ String (ascii_of_nat 160) "rel=" +:+ PyStr.dq
              +:+ "ne xt" +:+ PyStr.dq) = Some ("ne xt", 7).
Proof. vm_compute. reflexivity. Qed.

Example link_entry_first_page_parameter :
  link_entry ("<a?page=x page=12b>; rel=" +:+ PyStr.dq +:+ "next" +:+ PyStr.dq +:+ "y"
              +:+ PyStr.dq) = Some ("next", 12).
Proof. vm_compute. reflexivity. Qed.

Example search_link_nested :
  Re.search_link ("<<a>>;rel=" +:+ PyStr.dq +:+ PyStr.dq +:+ "x" +:+ PyStr.dq)
  = Some ("<a>", PyStr.dq +:+ "x").
Proof. vm_compute. reflexivity. Qed.

End CursorParser.

(** ** Monadic steps *)

Section Steps.

Context (server : request → response) (clock : nat → Z).

Lemma bind_Val {A B} (m : M A) (k : A → M B) w a w' :
  m w = Val a w' → bind m k w = k a w'.
Proof. unfold bind. by intros ->. Qed.

Lemma http_get_ok rq data link w :
  server rq = Ok200 data link →
  http_get server rq w
  = Val (data, link) (mk_world (w_cache w) (w_log w ++ [rq]) (w_ticks w)).
Proof. unfold http_get. by intros ->. Qed.

Lemma except_fetch_failure {A} on_status on_other e (a : A) :
  except_fetch on_status on_other e ≠ Success a.
Proof. by destruct e. Qed.

Lemma try_fetch_success {A B} (body : M A) on_status on_other
    (k : A → M (result B)) w r w' :
  try_fetch body on_status on_other k w = Val (Success r) w' →
  ∃ a w0, body w = Val a w0 ∧ k a w0 = Val (Success r) w'.
Proof.
  unfold try_fetch. destruct (body w) as [a w0|e w0|]; [eauto| |discriminate].
  intros [= Hr _]. by apply except_fetch_failure in Hr.
Qed.

End Steps.


(** ** search_tickets_all *)

Section Search.

Context (server : request → response).

Lemma apply_fields_length fields (tickets : list py_dict) :
  length (apply_fields fields tickets) = length tickets.
Proof.
  destruct fields as [[|f fs]|]; simpl; [done| |done]. apply length_fmap.
Qed.

Lemma apply_fields_page fields per_page (xs : list py_dict) page :
  apply_fields fields (page_of per_page xs page)
  = page_of per_page (apply_fields fields xs) page.
Proof.
  unfold page_of. destruct fields as [[|f fs]|]; simpl; [done| |done].
  by rewrite fmap_take, fmap_drop.
Qed.

Lemma page_of_nil {A} per_page (xs : list A) page :
  (0 < per_page)%nat → page_of per_page xs page = [] →
  (length xs ≤ Z.to_nat (page - 1) * per_page)%nat.
Proof.
  unfold page_of. intros Hp H. apply take_nil_inv in H as [H|H]; [lia|].
  by apply drop_nil_inv.
Qed.

Lemma page_of_app {A} per_page (xs : list A) page :
  1 ≤ page →
  (take (Z.to_nat (page - 1) * per_page) xs ++ page_of per_page xs page
   = take (Z.to_nat (page + 1 - 1) * per_page) xs)%list.
Proof.
  intros Hp. unfold page_of. rewrite take_take_drop. f_equal.
  replace (Z.to_nat (page + 1 - 1)) with (S (Z.to_nat (page - 1))) by lia. lia.
Qed.

Lemma page_of_length {A} per_page (xs : list A) page :
  length (page_of per_page xs page)
  = (per_page `min` (length xs - Z.to_nat (page - 1) * per_page))%nat.
Proof. unfold page_of. by rewrite length_take, length_drop. Qed.

(** The loop against a paged collection: from page [page] on, with the
    earlier pages accumulated and the cap not yet reached, it stops with the
    first [cap] records, truncated exactly when there are at least [cap]. *)
Lemma search_loop_paged query workspace_id fields per_page xs (cap : nat) :
  (30 ≤ per_page)%nat →
  serves_tickets server query workspace_id per_page xs →
  ∀ fuel page w,
    1 ≤ page →
    let acc := take (Z.to_nat (page - 1) * per_page) (apply_fields fields xs) in
    (length acc < cap)%nat →
    (cap - length acc ≤ fuel)%nat →
    ∃ page' w',
      search_loop server fuel query workspace_id (Z.of_nat cap) fields acc page w
      = Val (take cap (apply_fields fields xs), page',
             bool_decide (cap ≤ length xs)%nat) w'.
Proof.
  intros Hpp Hserve. induction fuel as [|fuel IH]; intros page w Hpage acc Hacc Hfuel;
    [lia|].
  destruct (Hserve page Hpage) as (data & link & Hget & Henv).
  cbn [search_loop]. erewrite bind_Val by (by apply http_get_ok).
  cbv beta iota. rewrite Henv. set (w1 := mk_world _ _ _).
  pose proof (apply_fields_length fields xs) as Hlen.
  destruct (page_of per_page xs page) as [|t ts] eqn:Hpg.
  - apply page_of_nil in Hpg; [|lia].
    assert (Hall : acc = apply_fields fields xs)
      by (subst acc; apply take_ge; lia).
    eexists _, _. unfold ret. do 2 f_equal.
    + f_equal. rewrite Hall. symmetry. apply take_ge. rewrite <- Hall. lia.
    + rewrite bool_decide_eq_false_2; [done|]. rewrite <- Hlen, <- Hall. lia.
  - rewrite <- Hpg.
    rewrite apply_fields_page.
    assert (Hacc' : (acc ++ page_of per_page (apply_fields fields xs) page
                     = take (Z.to_nat (page + 1 - 1) * per_page) (apply_fields fields xs))%list)
      by (subst acc; by apply page_of_app).
    rewrite Hacc'.
    set (acc' := take (Z.to_nat (page + 1 - 1) * per_page) (apply_fields fields xs)) in *.
    assert (Hgrow : (length acc < length acc')%nat).
    { rewrite <- Hacc', length_app, <- apply_fields_page, apply_fields_length, Hpg.
      simpl. lia. }
    assert (Hle : (length acc' ≤ length xs)%nat).
    { subst acc'. rewrite length_take. lia. }
    destruct (Z.of_nat cap <=? Z.of_nat (length acc')) eqn:Hcap.
    + apply Z.leb_le in Hcap.
      eexists _, _. unfold ret. do 2 f_equal.
      * f_equal. rewrite Nat2Z.id. subst acc'. rewrite take_take. f_equal.
        rewrite length_take in Hcap. lia.
      * rewrite bool_decide_eq_true_2; [done|]. lia.
    + apply Z.leb_gt in Hcap.
      destruct (_ && _) eqn:Hshort.
      * apply andb_true_iff in Hshort as [Hshort _]. apply Z.ltb_lt in Hshort.
        rewrite page_of_length in Hshort.
        assert (Hall : acc' = apply_fields fields xs).
        { subst acc'. apply take_ge. lia. }
        eexists _, _. unfold ret. do 2 f_equal.
        -- f_equal. rewrite Hall. symmetry. apply take_ge. rewrite <- Hall. lia.
        -- rewrite bool_decide_eq_false_2; [done|]. rewrite <- Hlen, <- Hall. lia.
      * apply IH; [lia| |]; fold acc'; lia.
Qed.

(** Whatever the collaborator answers, the capped loop ends within
    [max_results] rounds: every round that goes on has added a ticket. *)
Lemma search_loop_ends query workspace_id max_results fields :
  ∀ fuel all_tickets page w,
    (Z.to_nat max_results - length all_tickets < fuel)%nat →
    search_loop server fuel query workspace_id max_results fields all_tickets page w
    ≠ Diverge.
Proof.
  induction fuel as [|fuel IH]; intros acc page w Hfuel; [lia|].
  cbn [search_loop]. unfold bind, http_get.
  destruct (server _) as [data link|msg st body|msg]; [|done|done].
  destruct (envelope data "tickets") as [|t ts] eqn:Henv; [done|].
  cbv zeta.
  destruct (max_results <=? _) eqn:Hcap; [done|]. apply Z.leb_gt in Hcap.
  destruct (_ && _); [done|].
  apply IH. rewrite length_app, apply_fields_length in *. cbn [length] in *. lia.
Qed.

Lemma search_tickets_all_ends fuel query max_results fields workspace_id w :
  (1000 < fuel)%nat →
  search_tickets_all server fuel query max_results fields workspace_id w ≠ Diverge.
Proof.
  intros Hfuel. unfold search_tickets_all.
  destruct (_ <? 1); [done|]. unfold try_fetch.
  destruct (search_loop _ _ _ _ _ _ _ _ _) as [[[all page] tr] w'|e w'|] eqn:Hloop;
    [done|done|].
  apply search_loop_ends in Hloop; [done|].
  cbn [length]. destruct (1000 <? max_results) eqn:E; [lia|].
  apply Z.ltb_ge in E. lia.
Qed.

(** C1, as the code has it.  A collection of [M] tickets is served in
    pages of a fixed size of at least 30 and every fetch succeeds; the cap
    [K] is at least 1 and is lowered to 1000 when above.  With enough fuel
    the call returns success; [total_fetched] is the number of tickets
    returned and is at most the cap; with [M >= cap] (the case [M = cap]
    included) the result has exactly [cap] records and [truncated] is
    true; with [M < cap] it has all [M] records and [truncated] is false. *)
Theorem search_tickets_all_cap_law query workspace_id fields per_page xs K fuel w :
  (30 ≤ per_page)%nat →
  1 ≤ K →
  serves_tickets server query workspace_id per_page xs →
  let cap := Z.to_nat (Z.min K 1000) in
  (cap ≤ fuel)%nat →
  ∃ r w',
    search_tickets_all server fuel query K fields workspace_id w = Val (Success r) w'
    ∧ sr_total_fetched r = length (sr_tickets r)
    ∧ (length (sr_tickets r) ≤ cap)%nat
    ∧ sr_tickets r = take cap (apply_fields fields xs)
    ∧ ((cap ≤ length xs)%nat →
       length (sr_tickets r) = cap ∧ sr_truncated r = true)
    ∧ ((length xs < cap)%nat →
       sr_tickets r = apply_fields fields xs ∧ sr_truncated r = false).
Proof.
  intros Hpp HK Hserve cap Hfuel.
  pose proof (search_loop_paged query workspace_id fields per_page xs cap Hpp Hserve
                fuel 1 w) as Hloop.
  change (Z.to_nat (1 - 1) * per_page)%nat with 0%nat in Hloop.
  cbv zeta in Hloop. rewrite take_0 in Hloop.
  destruct Hloop as (page' & w' & Hloop); [lia|simpl; lia|simpl; lia|].
  assert (Hcap : (if 1000 <? K then 1000 else K) = Z.of_nat cap).
  { subst cap. destruct (1000 <? K) eqn:E; [apply Z.ltb_lt in E|apply Z.ltb_ge in E]; lia. }
  unfold search_tickets_all. rewrite Hcap.
  replace (Z.of_nat cap <? 1) with false by (symmetry; apply Z.ltb_ge; lia).
  unfold try_fetch. rewrite Hloop. unfold ret.
  pose proof (apply_fields_length fields xs) as Hlen.
  eexists _, _. split; [reflexivity|]. cbn [sr_total_fetched sr_tickets sr_truncated].
  split; [done|]. split; [rewrite length_take; lia|]. split; [done|]. split.
  - intros Hge. split; [rewrite length_take; lia|].
    by apply bool_decide_eq_true_2.
  - intros Hlt. split; [apply take_ge; lia|].
    apply bool_decide_eq_false_2. lia.
Qed.

(** C8, as the code has it: a cap below 1 is a validation failure returned
    without any request (the state, its request log included, is
    unchanged); a cap above 1000 is no failure: the call proceeds exactly as
    with the cap 1000. *)
Theorem search_tickets_all_cap_validation fuel query max_results fields workspace_id w :
  (max_results < 1 →
   search_tickets_all server fuel query max_results fields workspace_id w
   = Val (Failure "max_results must be at least 1" None None) w)
  ∧ (1000 < max_results →
     search_tickets_all server fuel query max_results fields workspace_id w
     = search_tickets_all server fuel query 1000 fields workspace_id w).
Proof.
  unfold search_tickets_all. split; intros H.
  - replace (1000 <? max_results) with false by (symmetry; apply Z.ltb_ge; lia).
    replace (max_results <? 1) with true by (symmetry; apply Z.ltb_lt; lia).
    reflexivity.
  - replace (1000 <? max_results) with true by (symmetry; apply Z.ltb_lt; lia).
    reflexivity.
Qed.

End Search.

Lemma serves_ticket_server xs query workspace_id :
  serves_tickets (ticket_server xs) query workspace_id 30 xs.
Proof.
  intros page Hpage. eexists _, _. split; [reflexivity|].
  unfold envelope. by rewrite lookup_singleton_eq.
Qed.

(** C1 as stated fails at [M = K]: two tickets and a cap of two give both
    tickets and [truncated] true. *)
Lemma search_tickets_all_exact_cap :
  search_tickets_all (ticket_server [ticket 1; ticket 2]) 2 "status:2" 2 None None
    initial_world
  = Val (Success (mk_search_result [ticket 1; ticket 2] 2 1 true))
        (mk_world empty_cache [tickets_request "status:2" None 1] 0).
Proof. vm_compute. reflexivity. Qed.

Lemma search_tickets_all_cap_law_witness :
  ∃ r w',
    search_tickets_all (ticket_server [ticket 1; ticket 2]) 5 "status:2" 5 None None
      initial_world = Val (Success r) w'
    ∧ sr_tickets r = [ticket 1; ticket 2] ∧ sr_truncated r = false.
Proof.
  destruct (search_tickets_all_cap_law (ticket_server [ticket 1; ticket 2])
              "status:2" None None 30 [ticket 1; ticket 2] 5 5 initial_world)
    as (r & w' & Hrun & _ & _ & _ & _ & Hlt);
    [lia | lia | apply serves_ticket_server | vm_compute; lia |].
  exists r, w'. split; [exact Hrun|]. apply Hlt. vm_compute. lia.
Defined.

(** C8 as stated fails above the ceiling: with [max_results = 1001] the call
    sends a request and returns success. *)
Lemma search_tickets_all_above_ceiling :
  search_tickets_all (ticket_server [ticket 1]) 2 "status:2" 1001 None None initial_world
  = Val (Success (mk_search_result [ticket 1] 1 1 false))
        (mk_world empty_cache [tickets_request "status:2" None 1] 0).
Proof. vm_compute. reflexivity. Qed.

Lemma search_tickets_all_cap_validation_witness :
  (0 < 1
   ∧ search_tickets_all (ticket_server [ticket 1]) 2 "status:2" 0 None None initial_world
     = Val (Failure "max_results must be at least 1" None None) initial_world)
  ∧ (1000 < 1001
     ∧ search_tickets_all (ticket_server [ticket 1]) 2 "status:2" 1001 None None initial_world
       = search_tickets_all (ticket_server [ticket 1]) 2 "status:2" 1000 None None
           initial_world).
Proof.
  split; (split; [lia|]).
  - apply (search_tickets_all_cap_validation (ticket_server [ticket 1])). lia.
  - apply (search_tickets_all_cap_validation (ticket_server [ticket 1])). lia.
Defined.

(** The two walker scenarios of the specification: pages of 30, 30 and 12
    tickets without a Link header. *)
Example search_tickets_all_scenario_1000 :
  (λ r, (length (sr_tickets r), sr_total_fetched r, sr_pages_fetched r, sr_truncated r))
    <$> returned (search_tickets_all (ticket_server (tickets_with_status 2 1 72)) 10 "status:2"
                    1000 None None initial_world)
  = Some (72%nat, 72%nat, 3, false).
Proof. vm_compute. reflexivity. Qed.

Example search_tickets_all_scenario_50 :
  (λ o, (length (sr_tickets o.1), sr_pages_fetched o.1, sr_truncated o.1,
         rq_page <$> w_log o.2))
    <$> match search_tickets_all (ticket_server (tickets_with_status 2 1 72)) 10 "status:2"
                50 None None initial_world with
        | Val (Success r) w' => Some (r, w')
        | _ => None
        end
  = Some (50%nat, 2, true, [1; 2]).
Proof. vm_compute. reflexivity. Qed.

(** ** get_agent_lookup *)

Section Lookup.

Context (server : request → response) (clock : nat → Z) (isoformat : Z → string).

Lemma keeps_cache_http_get rq w : keeps_cache w (http_get server rq w).
Proof. unfold http_get, keeps_cache. by destruct (server rq). Qed.

Lemma agents_loop_keeps_cache fuel : ∀ d page w,
  keeps_cache w (agents_loop server fuel d page w).
Proof.
  induction fuel as [|fuel IH]; intros d page w; [exact I|].
  cbn [agents_loop]. unfold bind.
  pose proof (keeps_cache_http_get (directory_request "/api/v2/agents" page) w) as Hget.
  destruct (http_get server _ w) as [[data link] w1|e w1|]; [|exact Hget|exact I].
  cbn in Hget. destruct (link_next link) as [next|].
  - specialize (IH (foldl add_agent d (envelope data "agents")) next w1).
    unfold keeps_cache in *. destruct (agents_loop _ _ _ _ _); congruence.
  - exact Hget.
Qed.

Lemma groups_loop_keeps_cache fuel : ∀ d page w,
  keeps_cache w (groups_loop server fuel d page w).
Proof.
  induction fuel as [|fuel IH]; intros d page w; [exact I|].
  cbn [groups_loop]. unfold bind.
  pose proof (keeps_cache_http_get (directory_request "/api/v2/groups" page) w) as Hget.
  destruct (http_get server _ w) as [[data link] w1|e w1|]; [|exact Hget|exact I].
  cbn in Hget. destruct (link_next link) as [next|].
  - specialize (IH (foldl add_group d (envelope data "groups")) next w1).
    unfold keeps_cache in *. destruct (groups_loop _ _ _ _ _); congruence.
  - exact Hget.
Qed.

Lemma except_fetch_shape {A} on_status on_other e :
  ∃ error, @except_fetch A on_status on_other e
           = Failure error (exn_status e) (exn_details e).
Proof. destruct e; simpl; eauto. Qed.

(** C5: when the cache is absent or stale and the drain of the agent
    directory raises, or that drain succeeds and the drain of the group
    directory raises, the call returns a failure result that carries the
    status code and the error body of the exception when it has them, and
    the stored cache is the one from before the call. *)
Theorem get_agent_lookup_failure_atomic fuel w e w1 :
  cached_lookup isoformat (clock (w_ticks w)) (w_cache w) = None →
  (agents_loop server fuel ∅ 1 (tick w) = Exc e w1
   ∨ ∃ agents_dict w0,
       agents_loop server fuel ∅ 1 (tick w) = Val agents_dict w0
       ∧ groups_loop server fuel ∅ 1 w0 = Exc e w1) →
  ∃ error,
    get_agent_lookup server clock isoformat fuel w
    = Val (Failure error (exn_status e) (exn_details e)) w1
    ∧ w_cache w1 = w_cache w.
Proof.
  intros Hstale Hfail.
  unfold get_agent_lookup, bind, datetime_now, get_cache. cbn [w_cache].
  rewrite Hstale. unfold refresh_lookup, try_fetch. fold (tick w).
  pose proof (agents_loop_keeps_cache fuel ∅ 1 (tick w)) as Ha.
  destruct Hfail as [Hagents | (agents_dict & w0 & Hagents & Hgroups)].
  - rewrite Hagents in Ha |- *.
    destruct (except_fetch_shape (A:=lookup_result) "Failed to fetch agents: "
                "Unexpected error fetching agents: " e) as [error ->].
    exists error. split; [reflexivity|exact Ha].
  - rewrite Hagents in Ha |- *.
    pose proof (groups_loop_keeps_cache fuel ∅ 1 w0) as Hg.
    rewrite Hgroups in Hg |- *.
    destruct (except_fetch_shape (A:=lookup_result) "Failed to fetch groups: "
                "Unexpected error fetching groups: " e) as [error ->].
    exists error. split; [reflexivity|]. cbn in Ha, Hg. congruence.
Qed.

(** The agent drain against a directory with cursors: it ends with the
    directory of all records. *)
Lemma agents_loop_complete xs :
  serves_directory server "/api/v2/agents" "agents" xs →
  ∀ fuel page w,
    1 ≤ page →
    (length xs - Z.to_nat (page - 1) * 30 < fuel)%nat →
    ∃ w', agents_loop server fuel
            (foldl add_agent ∅ (take (Z.to_nat (page - 1) * 30) xs)) page w
          = Val (foldl add_agent ∅ xs) w'.
Proof.
  intros Hserve. induction fuel as [|fuel IH]; intros page w Hpage Hfuel; [lia|].
  destruct (Hserve page Hpage) as (data & link & Hget & Henv & Hnext).
  cbn [agents_loop]. erewrite bind_Val by (by apply http_get_ok).
  cbv beta iota. rewrite Henv, Hnext, <- foldl_app, page_of_app by done.
  case_bool_decide as Hmore.
  - apply IH; lia.
  - eexists. unfold ret. do 2 f_equal. apply take_ge. lia.
Qed.

Lemma groups_loop_complete xs :
  serves_directory server "/api/v2/groups" "groups" xs →
  ∀ fuel page w,
    1 ≤ page →
    (length xs - Z.to_nat (page - 1) * 30 < fuel)%nat →
    ∃ w', groups_loop server fuel
            (foldl add_group ∅ (take (Z.to_nat (page - 1) * 30) xs)) page w
          = Val (foldl add_group ∅ xs) w'.
Proof.
  intros Hserve. induction fuel as [|fuel IH]; intros page w Hpage Hfuel; [lia|].
  destruct (Hserve page Hpage) as (data & link & Hget & Henv & Hnext).
  cbn [groups_loop]. erewrite bind_Val by (by apply http_get_ok).
  cbv beta iota. rewrite Henv, Hnext, <- foldl_app, page_of_app by done.
  case_bool_decide as Hmore.
  - apply IH; lia.
  - eexists. unfold ret. do 2 f_equal. apply take_ge. lia.
Qed.

(** The uncapped walker of the specification against the same directory:
    it ends with all records, not truncated. *)
Lemma spec_walker_complete path key xs :
  serves_directory server path key xs →
  ∀ fuel page w,
    1 ≤ page →
    (length xs - Z.to_nat (page - 1) * 30 < fuel)%nat →
    ∃ w', spec_bulk_fetch_walker server fuel (directory_request path) key 30 None
            (take (Z.to_nat (page - 1) * 30) xs) page w
          = Val (xs, false) w'.
Proof.
  intros Hserve. induction fuel as [|fuel IH]; intros page w Hpage Hfuel; [lia|].
  destruct (Hserve page Hpage) as (data & link & Hget & Henv & Hnext).
  cbn [spec_bulk_fetch_walker]. erewrite bind_Val by (by apply http_get_ok).
  cbv beta iota zeta. rewrite Henv, Hnext. cbn [from_option].
  destruct (decide (page_of 30 xs page = [])) as [Hnil|Hnil].
  - rewrite (bool_decide_eq_true_2 _ Hnil).
    apply page_of_nil in Hnil; [|lia].
    eexists. unfold ret. do 3 f_equal. apply take_ge. lia.
  - rewrite (bool_decide_eq_false_2 _ Hnil).
    rewrite page_of_app by done.
    assert (Hlt : (Z.to_nat (page - 1) * 30 < length xs)%nat).
    { destruct (decide (Z.to_nat (page - 1) * 30 < length xs)%nat) as [|Hge]; [done|].
      exfalso. apply Hnil. unfold page_of. rewrite drop_ge by lia. apply take_nil. }
    rewrite page_of_length.
    destruct (decide (Z.to_nat page * 30 < length xs)%nat) as [Hmore|Hmore].
    + rewrite (bool_decide_eq_true_2 _ Hmore). cbn [default from_option id].
      rewrite (bool_decide_eq_true_2 (is_Some (Some (page + 1)))) by eauto.
      cbn [negb]. rewrite andb_false_r. apply IH; lia.
    + rewrite (bool_decide_eq_false_2 _ Hmore). cbn [default from_option id].
      rewrite (bool_decide_eq_false_2 (is_Some None)) by apply is_Some_None.
      cbn [negb]. rewrite andb_true_r.
      destruct (bool_decide (30 `min` (length xs - Z.to_nat (page - 1) * 30) < 30)%nat).
      * eexists. unfold ret. do 3 f_equal. apply take_ge. lia.
      * apply IH; lia.
Qed.

(** C6, as the code has it.  Each refresh loop follows the next cursor
    alone.  When the cache is absent or stale and both directories are
    served with a cursor that names the following page exactly when
    records remain, the refresh succeeds with enough fuel and its
    directories are built from all records, the same records the uncapped
    walker of the specification collects from the same endpoints. *)
Theorem get_agent_lookup_refresh_with_cursor fuel w agents groups :
  cached_lookup isoformat (clock (w_ticks w)) (w_cache w) = None →
  serves_directory server "/api/v2/agents" "agents" agents →
  serves_directory server "/api/v2/groups" "groups" groups →
  (length agents < fuel)%nat →
  (length groups < fuel)%nat →
  ∃ r w' wa wg,
    get_agent_lookup server clock isoformat fuel w = Val (Success r) w'
    ∧ spec_bulk_fetch_walker server fuel (directory_request "/api/v2/agents") "agents"
        30 None [] 1 w = Val (agents, false) wa
    ∧ spec_bulk_fetch_walker server fuel (directory_request "/api/v2/groups") "groups"
        30 None [] 1 w = Val (groups, false) wg
    ∧ lk_agents r = foldl add_agent ∅ agents
    ∧ lk_groups r = foldl add_group ∅ groups.
Proof.
  intros Hstale Ha Hg Hfa Hfg.
  unfold get_agent_lookup, bind, datetime_now, get_cache. cbn [w_cache].
  rewrite Hstale. unfold refresh_lookup, try_fetch. fold (tick w).
  destruct (agents_loop_complete agents Ha fuel 1 (tick w)) as [w0 Hal];
    [lia|simpl; lia|].
  destruct (groups_loop_complete groups Hg fuel 1 w0) as [w1 Hgl];
    [lia|simpl; lia|].
  destruct (spec_walker_complete _ _ agents Ha fuel 1 w) as [wa Hwa];
    [lia|simpl; lia|].
  destruct (spec_walker_complete _ _ groups Hg fuel 1 w) as [wg Hwg];
    [lia|simpl; lia|].
  change (Z.to_nat (1 - 1) * 30)%nat with 0%nat in *.
  rewrite take_0 in *. cbn [foldl] in Hal, Hgl.
  rewrite Hal, Hgl. unfold set_cache, ret.
  eexists _, _, wa, wg. split; [reflexivity|]. by repeat split.
Qed.

(** The other half of the same design: a first page without a next
    relation ends the agent drain, whatever the page holds. *)
Lemma agents_loop_stops_without_next fuel data link w :
  server (directory_request "/api/v2/agents" 1) = Ok200 data link →
  link_next link = None →
  agents_loop server (S fuel) ∅ 1 w
  = Val (foldl add_agent ∅ (envelope data "agents"))
        (mk_world (w_cache w) (w_log w ++ [directory_request "/api/v2/agents" 1])
           (w_ticks w)).
Proof.
  intros Hget Hnext. cbn [agents_loop].
  erewrite bind_Val by (by apply http_get_ok). cbv beta iota. by rewrite Hnext.
Qed.

End Lookup.

Lemma get_agent_lookup_failure_atomic_witness :
  ∃ error w1,
    get_agent_lookup (groups_failing_server (agents_from 1 2)) example_clock Iso.isoformat
      3 stale_world
    = Val (Failure error (Some 403) (Some (BodyDetail (TextBody "Forbidden")))) w1
    ∧ w_cache w1 = stale_cache.
Proof.
  destruct (get_agent_lookup_failure_atomic (groups_failing_server (agents_from 1 2))
              example_clock Iso.isoformat 3 stale_world
              (HTTPStatusError "Client error '403 Forbidden'" 403 (TextBody "Forbidden"))
              (mk_world stale_cache
                 [directory_request "/api/v2/agents" 1; directory_request "/api/v2/groups" 1]
                 1))
    as (error & Hrun & Hcache).
  - vm_compute. reflexivity.
  - right. eexists _, _. split; vm_compute; reflexivity.
  - exists error, (mk_world stale_cache
                 [directory_request "/api/v2/agents" 1; directory_request "/api/v2/groups" 1]
                 1).
    split; [exact Hrun|exact Hcache].
Defined.


Lemma directory_server_serves_agents :
  serves_directory (directory_server true agents31 groups1) "/api/v2/agents" "agents" agents31.
Proof.
  intros page Hpage. eexists _, _. split; [reflexivity|]. split.
  - unfold envelope. by rewrite lookup_singleton_eq.
  - cbn [rq_path rq_page directory_request]. unfold next_link.
    destruct (decide (page = 1)) as [->|Hne]; [vm_compute; reflexivity|].
    assert (Hl : length agents31 = 31%nat) by (vm_compute; reflexivity).
    rewrite !bool_decide_eq_false_2 by (rewrite Hl; lia).
    vm_compute. reflexivity.
Qed.

Lemma directory_server_serves_groups :
  serves_directory (directory_server true agents31 groups1) "/api/v2/groups" "groups" groups1.
Proof.
  intros page Hpage. eexists _, _. split; [reflexivity|]. split.
  - unfold envelope. by rewrite lookup_singleton_eq.
  - cbn [rq_path rq_page directory_request]. unfold next_link.
    assert (Hl : length groups1 = 1%nat) by (vm_compute; reflexivity).
    rewrite !bool_decide_eq_false_2 by (rewrite Hl; lia).
    vm_compute. reflexivity.
Qed.

(** C6 as stated fails against a directory that sends no cursor: of
    thirty-one agents the refresh reads the first page of thirty and stops,
    so agent 31 is missing from the rebuilt directory, while the uncapped
    walker of the specification collects all thirty-one records. *)
Lemma get_agent_lookup_no_cursor_incomplete :
  (λ r, (size (lk_agents r), lk_agents r !! PInt 30, lk_agents r !! PInt 31))
    <$> returned (get_agent_lookup (directory_server false agents31 groups1) example_clock
                    Iso.isoformat 5 initial_world)
  = Some (30%nat, Some (mk_agent_info (PStr "Agent 30") (PStr "Agent@example.com")), None)
  ∧ (λ v, (length v.1, v.2))
      <$> value_of (spec_bulk_fetch_walker (directory_server false agents31 groups1) 5
                      (directory_request "/api/v2/agents") "agents" 30 None [] 1
                      initial_world)
    = Some (31%nat, false)
  ∧ fst <$> value_of (spec_bulk_fetch_walker (directory_server false agents31 groups1) 5
                        (directory_request "/api/v2/agents") "agents" 30 None [] 1
                        initial_world)
    = Some agents31.
Proof. repeat split; vm_compute; reflexivity. Qed.

Lemma get_agent_lookup_refresh_with_cursor_witness :
  ∃ r w',
    get_agent_lookup (directory_server true agents31 groups1) example_clock
      Iso.isoformat 32 stale_world = Val (Success r) w'
    ∧ lk_agents r = foldl add_agent ∅ agents31
    ∧ lk_groups r = foldl add_group ∅ groups1.
Proof.
  destruct (get_agent_lookup_refresh_with_cursor (directory_server true agents31 groups1)
              example_clock Iso.isoformat 32 stale_world agents31 groups1)
    as (r & w' & _ & _ & Hrun & _ & _ & Ha & Hg).
  - vm_compute. reflexivity.
  - apply directory_server_serves_agents.
  - apply directory_server_serves_groups.
  - vm_compute. lia.
  - vm_compute. lia.
  - exists r, w'. by repeat split.
Defined.

(** ** get_ticket_stats *)

Section Stats.

Context (server : request → response) (clock : nat → Z) (isoformat : Z → string).

Lemma sum_values_insert_fresh `{Countable K} (k : K) (v : nat) (d : gmap K nat) :
  d !! k = None → sum_values (<[k := v]> d) = (v + sum_values d)%nat.
Proof.
  intros Hk. unfold sum_values.
  rewrite map_fold_insert_L; [done| |done]. intros; lia.
Qed.

Lemma sum_values_incr `{Countable K} (k : K) (d : gmap K nat) :
  sum_values (incr k d) = S (sum_values d).
Proof.
  unfold incr. destruct (d !! k) as [v|] eqn:Hk; cbn [default from_option id].
  - rewrite <- insert_delete_eq.
    rewrite sum_values_insert_fresh by apply lookup_delete_eq.
    rewrite <- (insert_id d k v) at 2 by done.
    rewrite <- insert_delete_eq.
    rewrite sum_values_insert_fresh by apply lookup_delete_eq. lia.
  - by rewrite sum_values_insert_fresh.
Qed.

Lemma count_tickets_sums agents_lookup all_tickets : ∀ s p a t,
  let '(s', p', a', t') := foldl (count_ticket agents_lookup) (s, p, a, t) all_tickets in
  sum_values s' = (sum_values s + length all_tickets)%nat
  ∧ sum_values p' = (sum_values p + length all_tickets)%nat
  ∧ sum_values a' = (sum_values a + length all_tickets)%nat
  ∧ sum_values t' = (sum_values t + length all_tickets)%nat.
Proof.
  induction all_tickets as [|ticket rest IH]; intros s p a t.
  - cbn. by rewrite !Nat.add_0_r.
  - cbn [foldl count_ticket length].
    specialize (IH (incr (_map_status_name (dict_get ticket "status")) s)
                   (incr (_map_priority_name (dict_get ticket "priority")) p)
                   (incr (agent_label agents_lookup (dict_get ticket "responder_id")) a)
                   (incr (type_label (dict_get ticket "type")) t)).
    destruct (foldl _ _ rest) as [[[s' p'] a'] t'].
    rewrite !sum_values_incr in IH. repeat split; lia.
Qed.

(** The fold itself: a total function of the record set whose four count
    tables each sum to the number of records. *)
Lemma aggregate_stats_sums agents_lookup all_tickets :
  let stats := aggregate_stats agents_lookup all_tickets in
  total_tickets stats = length all_tickets
  ∧ sum_values (by_status stats) = total_tickets stats
  ∧ sum_values (by_priority stats) = total_tickets stats
  ∧ sum_values (by_agent stats) = total_tickets stats
  ∧ sum_values (by_type stats) = total_tickets stats.
Proof.
  unfold aggregate_stats.
  pose proof (count_tickets_sums agents_lookup all_tickets ∅ ∅ ∅ ∅) as Hsum.
  destruct (foldl _ _ all_tickets) as [[[s' p'] a'] t'].
  cbn. unfold sum_values in *. rewrite !map_fold_empty in Hsum. naive_solver.
Qed.

Lemma incr_count `{Countable K} (k l : K) (d : gmap K nat) :
  default O (incr k d !! l)
  = ((if decide (k = l) then 1 else 0) + default O (d !! l))%nat.
Proof.
  unfold incr. destruct (decide (k = l)) as [->|Hne].
  - by rewrite lookup_insert_eq.
  - by rewrite lookup_insert_ne.
Qed.

Lemma foldl_incr_count `{Countable K} (label : py_dict → K) (l : K) tickets :
  ∀ d, default O (foldl (λ acc t, incr (label t) acc) d tickets !! l)
       = (default O (d !! l) + label_count label l tickets)%nat.
Proof.
  unfold label_count. induction tickets as [|t rest IH]; intros d.
  - cbn. lia.
  - cbn [foldl]. rewrite IH, incr_count, filter_cons.
    destruct (decide (label t = l)); cbn [length]; lia.
Qed.

Lemma count_tickets_split agents_lookup all_tickets : ∀ s p a t,
  foldl (count_ticket agents_lookup) (s, p, a, t) all_tickets
  = (foldl (λ acc x, incr (status_label x) acc) s all_tickets,
     foldl (λ acc x, incr (priority_label x) acc) p all_tickets,
     foldl (λ acc x, incr (responder_label agents_lookup x) acc) a all_tickets,
     foldl (λ acc x, incr (ticket_type_label x) acc) t all_tickets).
Proof.
  induction all_tickets as [|ticket rest IH]; intros s p a t; [done|].
  cbn [foldl count_ticket]. by rewrite IH.
Qed.

Lemma _map_status_name_table (id : Z) (name : string) :
  (id, name) ∈ status_names → _map_status_name (PInt id) = name.
Proof.
  unfold status_names. intros Hin.
  repeat (apply elem_of_cons in Hin as [[= -> ->]|Hin]; [reflexivity|]).
  by apply elem_of_nil in Hin.
Qed.

Lemma _map_priority_name_table (id : Z) (name : string) :
  (id, name) ∈ priority_names → _map_priority_name (PInt id) = name.
Proof.
  unfold priority_names. intros Hin.
  repeat (apply elem_of_cons in Hin as [[= -> ->]|Hin]; [reflexivity|]).
  by apply elem_of_nil in Hin.
Qed.

Lemma _map_status_name_fallback (status_id : py_value) :
  (∀ id, status_id = PInt id → id ∉ status_names.*1) →
  _map_status_name status_id = "Status-" +:+ py_str status_id.
Proof.
  intros Hout. destruct status_id as [|a|s]; [reflexivity| |reflexivity].
  specialize (Hout a eq_refl).
  destruct a as [|p|p]; [reflexivity| |reflexivity].
  destruct p as [[[p|p|]|[p|p|]|]|[[p|p|]|[p|p|]|]|];
    first [reflexivity|exfalso; apply Hout; cbn; set_solver].
Qed.

Lemma _map_priority_name_fallback (priority_id : py_value) :
  (∀ id, priority_id = PInt id → id ∉ priority_names.*1) →
  _map_priority_name priority_id = "Priority-" +:+ py_str priority_id.
Proof.
  intros Hout. destruct priority_id as [|a|s]; [reflexivity| |reflexivity].
  specialize (Hout a eq_refl).
  destruct a as [|p|p]; [reflexivity| |reflexivity].
  destruct p as [[[p|p|]|[p|p|]|]|[[p|p|]|[p|p|]|]|];
    first [reflexivity|exfalso; apply Hout; cbn; set_solver].
Qed.

Lemma label_count_pos `{Countable K} (label : py_dict → K) (ticket : py_dict)
    (tickets : list py_dict) :
  ticket ∈ tickets → (0 < label_count label (label ticket) tickets)%nat.
Proof.
  unfold label_count. intros Hin.
  assert (Hf : ticket ∈ filter (λ t, label t = label ticket) tickets)
    by (by apply list_elem_of_filter).
  destruct (filter _ tickets); [by apply elem_of_nil in Hf|cbn; lia].
Qed.

(** C9: for every directory and every record set, the fold is defined and
    each of the four count tables sums to [total_tickets], the number of
    records; every table holds, under each label, the number of records
    with that label, so that every record is counted once in each table,
    under its own label. The label of a record is fixed by its fields: a
    status or priority id of the table has the table's name and any other
    value [v], a missing one included, has ["Status-" + str(v)] or
    ["Priority-" + str(v)]; a responder of the directory has the
    directory's name, any other responder [v] has ["Agent-" + str(v)] and
    no responder has ["Unassigned"]; a type is its own label and no type
    has ["Unknown"]. *)
Theorem aggregate_stats_fold_law agents_lookup all_tickets :
  let stats := aggregate_stats agents_lookup all_tickets in
  total_tickets stats = length all_tickets
  ∧ sum_values (by_status stats) = total_tickets stats
  ∧ sum_values (by_priority stats) = total_tickets stats
  ∧ sum_values (by_agent stats) = total_tickets stats
  ∧ sum_values (by_type stats) = total_tickets stats
  ∧ (∀ l, default O (by_status stats !! l) = label_count status_label l all_tickets)
  ∧ (∀ l, default O (by_priority stats !! l) = label_count priority_label l all_tickets)
  ∧ (∀ l, default O (by_agent stats !! l)
          = label_count (responder_label agents_lookup) l all_tickets)
  ∧ (∀ l, default O (by_type stats !! l) = label_count ticket_type_label l all_tickets)
  ∧ (∀ ticket,
       ticket ∈ all_tickets →
       (0 < default O (by_status stats !! status_label ticket))%nat
       ∧ (0 < default O (by_priority stats !! priority_label ticket))%nat
       ∧ (0 < default O (by_agent stats !! responder_label agents_lookup ticket))%nat
       ∧ (0 < default O (by_type stats !! ticket_type_label ticket))%nat)
  ∧ (∀ ticket,
       let status_id := dict_get ticket "status" in
       let priority_id := dict_get ticket "priority" in
       let responder_id := dict_get ticket "responder_id" in
       let ticket_type := dict_get ticket "type" in
       (∀ id name,
          status_id = PInt id → (id, name) ∈ status_names → status_label ticket = name)
       ∧ ((∀ id, status_id = PInt id → id ∉ status_names.*1) →
          status_label ticket = "Status-" +:+ py_str status_id)
       ∧ (∀ id name,
            priority_id = PInt id → (id, name) ∈ priority_names →
            priority_label ticket = name)
       ∧ ((∀ id, priority_id = PInt id → id ∉ priority_names.*1) →
          priority_label ticket = "Priority-" +:+ py_str priority_id)
       ∧ (∀ info,
            truthy responder_id = true → agents_lookup !! responder_id = Some info →
            responder_label agents_lookup ticket = ai_name info)
       ∧ (truthy responder_id = true → agents_lookup !! responder_id = None →
          responder_label agents_lookup ticket = PStr ("Agent-" +:+ py_str responder_id))
       ∧ (truthy responder_id = false →
          responder_label agents_lookup ticket = PStr "Unassigned")
       ∧ (truthy ticket_type = true → ticket_type_label ticket = ticket_type)
       ∧ (truthy ticket_type = false → ticket_type_label ticket = PStr "Unknown")).
Proof.
  pose proof (aggregate_stats_sums agents_lookup all_tickets) as Hsums.
  cbv zeta in *. destruct Hsums as (H0 & H1 & H2 & H3 & H4).
  do 5 (split; [assumption|]).
  unfold aggregate_stats. rewrite count_tickets_split.
  cbn [by_status by_priority by_agent by_type].
  do 4 (split; [intros l; by rewrite foldl_incr_count, lookup_empty|]).
  split.
  - intros ticket Hin. rewrite !foldl_incr_count, !lookup_empty. cbn [default from_option].
    rewrite !Nat.add_0_l. repeat split; by apply label_count_pos.
  - intros ticket.
    unfold status_label, priority_label, responder_label, ticket_type_label,
      agent_label, type_label.
    split; [intros id name ->; apply _map_status_name_table|].
    split; [apply _map_status_name_fallback|].
    split; [intros id name ->; apply _map_priority_name_table|].
    split; [apply _map_priority_name_fallback|].
    split; [by intros info -> ->|]. split; [by intros -> ->|].
    split; [by intros ->|]. split; by intros ->.
Qed.

(** The same for a call: whatever the call returns as success has count
    tables that sum to its [total_tickets]. *)
Lemma get_ticket_stats_sums fuel group_id created_after created_before workspace_id
    w r w' :
  get_ticket_stats server clock isoformat fuel group_id created_after created_before
    workspace_id w = Val (Success r) w' →
  sum_values (by_status (st_stats r)) = total_tickets (st_stats r)
  ∧ sum_values (by_priority (st_stats r)) = total_tickets (st_stats r)
  ∧ sum_values (by_agent (st_stats r)) = total_tickets (st_stats r)
  ∧ sum_values (by_type (st_stats r)) = total_tickets (st_stats r).
Proof.
  unfold get_ticket_stats. destruct (_ ++ _)%list; [discriminate|].
  unfold bind. destruct (get_agent_lookup _ _ _ _ _) as [[lk|? ? ?] w0|? ?|];
    try discriminate.
  intros (all_tickets & w1 & _ & Hk)%try_fetch_success.
  injection Hk as <- _. cbn [st_stats].
  apply aggregate_stats_sums.
Qed.

End Stats.

Lemma aggregate_stats_fold_law_witness :
  let stats := aggregate_stats ∅ mixed_tickets in
  let unknown := mk_ticket 2 (Some 42) (Some 9) (Some 77) (Some "Incident") in
  let bare := mk_ticket 3 None None None None in
  (0 < default O (by_status stats !! status_label unknown))%nat
  ∧ status_label unknown = "Status-" +:+ py_str (PInt 42)
  ∧ priority_label unknown = "Priority-" +:+ py_str (PInt 9)
  ∧ responder_label ∅ unknown = PStr ("Agent-" +:+ py_str (PInt 77))
  ∧ ticket_type_label unknown = PStr "Incident"
  ∧ status_label bare = "Status-" +:+ py_str PNone
  ∧ responder_label ∅ bare = PStr "Unassigned"
  ∧ ticket_type_label bare = PStr "Unknown".
Proof.
  cbv zeta.
  destruct (aggregate_stats_fold_law ∅ mixed_tickets)
    as (_ & _ & _ & _ & _ & _ & _ & _ & _ & Hcounted & Hlabel).
  destruct (Hlabel (mk_ticket 2 (Some 42) (Some 9) (Some 77) (Some "Incident")))
    as (_ & Hstatus & _ & Hpriority & _ & Hagent & _ & Htype & _).
  destruct (Hlabel (mk_ticket 3 None None None None))
    as (_ & Hstatus' & _ & _ & _ & _ & Hnone & _ & Hunknown).
  split.
  { apply Hcounted. unfold mixed_tickets. apply list_elem_of_further, list_elem_of_here. }
  split.
  { apply Hstatus. intros id Hid. vm_compute in Hid. injection Hid as <-.
    cbn. rewrite !not_elem_of_cons. repeat split; try lia. apply not_elem_of_nil. }
  split.
  { apply Hpriority. intros id Hid. vm_compute in Hid. injection Hid as <-.
    cbn. rewrite !not_elem_of_cons. repeat split; try lia. apply not_elem_of_nil. }
  split; [apply Hagent; reflexivity|]. split; [apply Htype; reflexivity|].
  split; [apply Hstatus'; intros id Hid; vm_compute in Hid; discriminate Hid|].
  split; [apply Hnone; reflexivity|apply Hunknown; reflexivity].
Defined.

Example status_fallback_unknown : _map_status_name (PInt 42) = "Status-42".
Proof. vm_compute. reflexivity. Qed.

Example status_fallback_missing : _map_status_name PNone = "Status-None".
Proof. reflexivity. Qed.

(** The statistics of four tickets, one with unknown ids and one with no
    fields, against an empty agent directory. *)
Example get_ticket_stats_mixed :
  (λ r, (total_tickets (st_stats r),
         map_to_list (by_status (st_stats r)),
         map_to_list (by_priority (st_stats r))))
    <$> returned (get_ticket_stats (helpdesk_server [] [] mixed_tickets) example_clock
                    Iso.isoformat 3 (Some 1) None None None initial_world)
  = Some (4%nat,
          map_to_list ({[ "Open" := 2%nat; "Status-42" := 1%nat; "Status-None" := 1%nat ]}
                         : gmap string nat),
          map_to_list ({[ "Low" := 2%nat; "Priority-9" := 1%nat; "Priority-None" := 1%nat ]}
                         : gmap string nat)).
Proof. vm_compute. reflexivity. Qed.

(** ** get_agent_workload: the date window and the filter *)

Section Workload.

Context (server : request → response) (clock : nat → Z) (isoformat : Z → string)
        (fromisoformat : string → option parsed_datetime).

Lemma py_int_thousand_million : py_int "1000000000" = Some 1000000000.
Proof. vm_compute. reflexivity. Qed.

(** C7 fails on the code: with [created_after] absent, a period whose
    number of days exceeds what [timedelta] accepts raises OverflowError, and
    a period of [None] raises AttributeError; neither is a ValueError, so
    neither [except] clause catches it and the exception leaves
    [get_agent_workload], whatever the collaborator, the clock and the
    state. *)
Theorem get_agent_workload_period_escapes fuel created_before w :
  get_agent_workload server clock isoformat fromisoformat fuel (Some 1) None
    (Some "1000000000d") None created_before w
  = Exc (OverflowError "days=1000000000; must have magnitude <= 999999999") (tick w)
  ∧ get_agent_workload server clock isoformat fromisoformat fuel (Some 1) None
      None None created_before w
    = Exc (AttributeError "'NoneType' object has no attribute 'endswith'") w.
Proof.
  split; [|reflexivity].
  unfold get_agent_workload, try_period, _parse_period.
  change (PyStr.chop_suffix_char (ascii_of_nat 100) "1000000000d")
    with (Some "1000000000").
  cbv beta iota. rewrite py_int_thousand_million.
  unfold try_except_ValueError, bind, datetime_now, timedelta_days, raise.
  vm_compute. reflexivity.
Qed.

(** The path the code does handle: a period that does not end in [d], or
    whose prefix [int] rejects, is a validation failure and no request is
    sent. *)
Lemma get_agent_workload_invalid_period fuel agent_id group_id period created_before w :
  (is_Some agent_id ∨ is_Some group_id) →
  from_option (λ prefix, py_int prefix = None) True
    (PyStr.chop_suffix_char (ascii_of_nat 100) period) →
  ∃ error,
    get_agent_workload server clock isoformat fromisoformat fuel agent_id group_id
      (Some period) None created_before w
    = Val (Failure error None None) w.
Proof.
  intros Hid Hbad.
  assert (Hrun : ∃ error,
             try_period (B:=workload_result) (_parse_period clock (Some period))
               (λ start_date,
                  workload_from server clock isoformat fromisoformat fuel agent_id group_id
                    (isoformat start_date) created_before) w
             = Val (Failure error None None) w).
  { unfold try_period, _parse_period.
    destruct (PyStr.chop_suffix_char _ period) as [prefix|]; cbn in Hbad.
    - rewrite Hbad. cbn. eauto.
    - cbn. eauto. }
  unfold get_agent_workload.
  destruct agent_id, group_id; try exact Hrun.
  destruct Hid as [[? [=]]|[? [=]]].
Qed.

Lemma string_app_assoc (s1 s2 s3 : string) :
  (s1 +:+ s2) +:+ s3 = s1 +:+ (s2 +:+ s3).
Proof.
  induction s1 as [|c s1 IH]; [done|].
  change (String c ((s1 +:+ s2) +:+ s3) = String c (s1 +:+ (s2 +:+ s3))).
  by rewrite IH.
Qed.

Lemma workload_query_agent a group_id created_after created_before :
  workload_query (Some a) group_id created_after created_before
  = "responder_id:" +:+ pretty a +:+ " AND " +:+ "created_at:>'" +:+ created_after +:+ "'"
    +:+ " AND " +:+ "created_at:<'" +:+ created_before +:+ "'".
Proof.
  unfold workload_query, join_and. cbn [foldl].
  by rewrite !string_app_assoc.
Qed.

Lemma workload_collect_group fuel a g1 g2 created_after created_before w :
  outcome_map without_group_name
    (workload_collect server clock isoformat fromisoformat fuel (Some a) g1
       created_after created_before w)
  = outcome_map without_group_name
      (workload_collect server clock isoformat fromisoformat fuel (Some a) g2
         created_after created_before w).
Proof.
  unfold workload_collect. rewrite !workload_query_agent. unfold bind.
  destruct (get_agent_lookup _ _ _ _ _) as [[lk|error st details] w0|e w0|]; try reflexivity.
  unfold try_fetch.
  destruct (tickets_loop _ _ _ _ _ _ _) as [all_tickets w1|e w1|]; reflexivity.
Qed.

Lemma tickets_loop_log fuel query workspace_id :
  ∀ all_tickets page w xs w',
    tickets_loop server fuel query workspace_id all_tickets page w = Val xs w' →
    ∃ rqs,
      w_log w' = (w_log w ++ tickets_request query workspace_id page :: rqs)%list
      ∧ Forall (λ rq, ∃ p, rq = tickets_request query workspace_id p) rqs.
Proof.
  induction fuel as [|fuel IH]; intros acc page w xs w'; [discriminate|].
  cbn [tickets_loop]. unfold bind at 1. unfold http_get.
  destruct (server _) as [data link|?|?]; try discriminate.
  destruct (envelope data "tickets") as [|t ts].
  - intros [= _ <-]. exists []. by split.
  - destruct (_ && _).
    + intros [= _ <-]. exists []. by split.
    + intros (rqs & Hlog & Hall)%IH. cbn [w_log] in Hlog.
      exists (tickets_request query workspace_id (page + 1) :: rqs).
      rewrite Hlog, <- app_assoc. split; [done|]. constructor; eauto.
Qed.

Lemma workload_collect_run fuel agent_id group_id created_after created_before w r w' :
  workload_collect server clock isoformat fromisoformat fuel agent_id group_id
    created_after created_before w = Val (Success r) w' →
  ∃ lk w1 all_tickets,
    get_agent_lookup server clock isoformat fuel w = Val (Success lk) w1
    ∧ tickets_loop server fuel
        (workload_query agent_id group_id created_after created_before) None [] 1 w1
      = Val all_tickets w'
    ∧ r = mk_workload_result
            (sort_desc am_tickets_assigned
               (unsorted_metrics fromisoformat (lk_agents lk) all_tickets))
            created_after created_before (group_name_of (lk_groups lk) group_id).
Proof.
  unfold workload_collect, bind.
  destruct (get_agent_lookup _ _ _ _ _) as [[lk|error st details] w1|e w1|];
    try discriminate.
  intros (all_tickets & w2 & Hloop & Hk)%try_fetch_success.
  injection Hk as <- <-. by exists lk, w1, all_tickets.
Qed.

(** A successful call, taken apart: the date range is resolved, the
    directory is looked up, the tickets that match the query are fetched and
    the result is made from the directory and those tickets. *)
Lemma get_agent_workload_run fuel agent_id group_id period created_after created_before
    w r w' :
  get_agent_workload server clock isoformat fromisoformat fuel agent_id group_id
    period created_after created_before w = Val (Success r) w' →
  ∃ ca cb w0 lk w1 all_tickets,
    date_range clock isoformat period created_after created_before w = Val (ca, cb) w0
    ∧ get_agent_lookup server clock isoformat fuel w0 = Val (Success lk) w1
    ∧ tickets_loop server fuel (workload_query agent_id group_id ca cb) None [] 1 w1
      = Val all_tickets w'
    ∧ r = mk_workload_result
            (sort_desc am_tickets_assigned
               (unsorted_metrics fromisoformat (lk_agents lk) all_tickets))
            ca cb (group_name_of (lk_groups lk) group_id).
Proof.
  intros Hrun.
  assert (Hfrom : ∃ ca w0,
             (match created_after with
              | Some ca => ret ca
              | None => let* start_date := _parse_period clock period in
                        ret (isoformat start_date)
              end) w = Val ca w0
             ∧ workload_from server clock isoformat fromisoformat fuel agent_id group_id
                 ca created_before w0 = Val (Success r) w').
  { unfold get_agent_workload in Hrun.
    assert (Hcode : match created_after with
                    | Some ca =>
                        workload_from server clock isoformat fromisoformat fuel agent_id
                          group_id ca created_before
                    | None =>
                        try_period (_parse_period clock period)
                          (λ start_date,
                             workload_from server clock isoformat fromisoformat fuel
                               agent_id group_id (isoformat start_date) created_before)
                    end w = Val (Success r) w')
      by (destruct agent_id, group_id; first [exact Hrun|discriminate Hrun]).
    clear Hrun. destruct created_after as [ca|]; [by exists ca, w|].
    unfold try_period in Hcode. unfold bind, ret.
    destruct (_parse_period clock period w) as [start_date w0|[] w0|]; try discriminate.
    by exists (isoformat start_date), w0. }
  destruct Hfrom as (ca & w0 & Hca & Hfrom).
  assert (Hcollect : ∃ cb w1,
             (match created_before with
              | Some cb => ret cb
              | None => let* now := datetime_now clock in ret (isoformat now)
              end) w0 = Val cb w1
             ∧ workload_collect server clock isoformat fromisoformat fuel agent_id group_id
                 ca cb w1 = Val (Success r) w').
  { unfold workload_from in Hfrom. destruct created_before as [cb|]; [by exists cb, w0|].
    unfold bind, datetime_now in Hfrom. unfold bind, datetime_now, ret. eauto. }
  destruct Hcollect as (cb & w1 & Hcb & Hcollect).
  apply workload_collect_run in Hcollect as (lk & w2 & all_tickets & Hlookup & Hloop & ->).
  exists ca, cb, w1, lk, w2, all_tickets. split; [|done].
  unfold date_range, bind at 1. rewrite Hca. unfold bind at 1. by rewrite Hcb.
Qed.

Lemma _parse_period_ValueError period w msg w' :
  _parse_period clock period w = Exc (ValueError msg) w' →
  ∃ rest, msg = "Invalid period format: " +:+ rest.
Proof.
  unfold _parse_period. destruct period as [p|]; [|discriminate].
  destruct (PyStr.chop_suffix_char _ p) as [prefix|]; [|intros [= <- _]; eauto].
  unfold try_except_ValueError.
  destruct (py_int prefix) as [days|]; [|cbn; intros [= <- _]; eauto].
  unfold bind, datetime_now, timedelta_days.
  destruct (timedelta_max_days <? Z.abs days); [discriminate|].
  unfold ret, datetime_sub. destruct (_ || _); discriminate.
Qed.

Lemma workload_collect_accepted fuel agent_id group_id created_after created_before w w' :
  workload_collect server clock isoformat fromisoformat fuel agent_id group_id
    created_after created_before w
  ≠ Val (Failure "Either agent_id or group_id must be provided" None None) w'.
Proof.
  unfold workload_collect, bind.
  destruct (get_agent_lookup _ _ _ _ _) as [[lk|error st details] w1|e w1|];
    try discriminate.
  unfold try_fetch. destruct (tickets_loop _ _ _ _ _ _ _) as [xs w2|e w2|];
    try discriminate.
  destruct e; cbn; discriminate.
Qed.

(** A call with an id is never the validation failure. *)
Lemma get_agent_workload_accepted fuel agent_id group_id period created_after
    created_before w w' :
  is_Some agent_id ∨ is_Some group_id →
  get_agent_workload server clock isoformat fromisoformat fuel agent_id group_id
    period created_after created_before w
  ≠ Val (Failure "Either agent_id or group_id must be provided" None None) w'.
Proof.
  intros Hid.
  assert (Hfrom : ∀ ca w0,
             workload_from server clock isoformat fromisoformat fuel agent_id group_id
               ca created_before w0
             ≠ Val (Failure "Either agent_id or group_id must be provided" None None) w').
  { intros ca w0. unfold workload_from. destruct created_before as [cb|].
    - apply workload_collect_accepted.
    - unfold bind, datetime_now. apply workload_collect_accepted. }
  assert (Hcode : match created_after with
                  | Some ca =>
                      workload_from server clock isoformat fromisoformat fuel agent_id
                        group_id ca created_before
                  | None =>
                      try_period (_parse_period clock period)
                        (λ start_date,
                           workload_from server clock isoformat fromisoformat fuel
                             agent_id group_id (isoformat start_date) created_before)
                  end w
                  ≠ Val (Failure "Either agent_id or group_id must be provided" None None)
                      w').
  { destruct created_after as [ca|]; [apply Hfrom|].
    unfold try_period.
    destruct (_parse_period clock period w) as [start_date w0|e w0|] eqn:Hp;
      [apply Hfrom| |discriminate].
    destruct e; try discriminate.
    apply _parse_period_ValueError in Hp as [rest ->]. cbn. discriminate. }
  unfold get_agent_workload.
  destruct Hid as [[a ->]|[g ->]]; [exact Hcode|]. destruct agent_id; exact Hcode.
Qed.

Lemma workload_from_group fuel a g1 g2 created_after created_before w :
  outcome_map without_group_name
    (workload_from server clock isoformat fromisoformat fuel (Some a) g1
       created_after created_before w)
  = outcome_map without_group_name
      (workload_from server clock isoformat fromisoformat fuel (Some a) g2
         created_after created_before w).
Proof.
  unfold workload_from. destruct created_before as [cb|].
  - apply workload_collect_group.
  - unfold bind, datetime_now. apply workload_collect_group.
Qed.

(** C10: a call with both ids passes validation (only both absent is
    rejected) and runs as the call with the agent id alone: every request,
    the final state and every field of the result but [group_name] are the
    same.  When it succeeds, its date range is the resolved one, the
    directory is looked up once, the tickets are fetched with the filter
    [responder_id:a] and the two date bounds, a query without the group id
    that every ticket request of the call carries, the entries are made
    from these tickets, and [group_name] is what the group directory of
    that lookup holds under the group id ([None] for a group id of 0 or one
    that is not in the directory). *)
Theorem get_agent_workload_agent_and_group fuel a g period created_after created_before w :
  let query ca cb :=
    "responder_id:" +:+ pretty a +:+ " AND " +:+ "created_at:>'" +:+ ca +:+ "'"
    +:+ " AND " +:+ "created_at:<'" +:+ cb +:+ "'" in
  (∀ ca cb, workload_query (Some a) (Some g) ca cb = query ca cb)
  ∧ get_agent_workload server clock isoformat fromisoformat fuel None None
      period created_after created_before w
    = Val (Failure "Either agent_id or group_id must be provided" None None) w
  ∧ (∀ w',
       get_agent_workload server clock isoformat fromisoformat fuel (Some a) (Some g)
         period created_after created_before w
       ≠ Val (Failure "Either agent_id or group_id must be provided" None None) w')
  ∧ outcome_map without_group_name
      (get_agent_workload server clock isoformat fromisoformat fuel (Some a) (Some g)
         period created_after created_before w)
    = outcome_map without_group_name
        (get_agent_workload server clock isoformat fromisoformat fuel (Some a) None
           period created_after created_before w)
  ∧ (∀ r w',
       get_agent_workload server clock isoformat fromisoformat fuel (Some a) (Some g)
         period created_after created_before w = Val (Success r) w' →
       ∃ ca cb w0 lk w1 all_tickets rqs,
         date_range clock isoformat period created_after created_before w
         = Val (ca, cb) w0
         ∧ get_agent_lookup server clock isoformat fuel w0 = Val (Success lk) w1
         ∧ tickets_loop server fuel (query ca cb) None [] 1 w1 = Val all_tickets w'
         ∧ w_log w' = (w_log w1 ++ tickets_request (query ca cb) None 1 :: rqs)%list
         ∧ Forall (λ rq, ∃ page, rq = tickets_request (query ca cb) None page) rqs
         ∧ wl_agents r
           = sort_desc am_tickets_assigned
               (unsorted_metrics fromisoformat (lk_agents lk) all_tickets)
         ∧ wl_start r = ca
         ∧ wl_end r = cb
         ∧ wl_group_name r
           = if g =? 0 then PNone else default PNone (lk_groups lk !! PInt g)).
Proof.
  cbv zeta.
  split; [intros; apply workload_query_agent|]. split; [reflexivity|].
  split; [intros w'; apply get_agent_workload_accepted; eauto|].
  split.
  - unfold get_agent_workload.
    destruct created_after as [ca|]; [apply workload_from_group|].
    unfold try_period.
    destruct (_parse_period clock period w) as [start_date w0|[] w0|]; try reflexivity.
    apply workload_from_group.
  - intros r w' (ca & cb & w0 & lk & w1 & all_tickets & Hrange & Hlookup & Hloop & ->)
             %get_agent_workload_run.
    rewrite workload_query_agent in Hloop.
    destruct (tickets_loop_log _ _ _ _ _ _ _ _ Hloop) as (rqs & Hlog & Hall).
    exists ca, cb, w0, lk, w1, all_tickets, rqs. by repeat split.
Qed.

End Workload.

(** ** get_agent_workload: the per-agent metrics *)

Section Metrics.

Context (server : request → response) (clock : nat → Z) (isoformat : Z → string)
        (fromisoformat : string → option parsed_datetime).

Lemma Qtruthy_true (x : Q) : Qtruthy x = true ↔ ¬ (x == 0)%Q.
Proof.
  unfold Qtruthy. rewrite negb_true_iff, <- not_true_iff_false.
  by rewrite Qeq_bool_iff.
Qed.

Lemma report_average_law (resolution_times : list Q) :
  (resolution_times = [] → report_average (average_of resolution_times) = None)
  ∧ (resolution_times ≠ [] → ¬ (py_mean resolution_times == 0)%Q →
     report_average (average_of resolution_times)
     = Some (py_round (py_mean resolution_times) 2)).
Proof.
  split.
  - by intros ->.
  - intros Hne Hnz. destruct resolution_times as [|t ts]; [done|].
    cbn [average_of report_average].
    by rewrite (proj2 (Qtruthy_true _) Hnz).
Qed.

Lemma elem_of_insert_desc {A} (key : A → nat) (x y : A) (l : list A) :
  y ∈ insert_desc key x l ↔ y = x ∨ y ∈ l.
Proof.
  induction l as [|z l IH]; cbn [insert_desc].
  - rewrite list_elem_of_singleton. set_solver.
  - destruct (Nat.ltb (key x) (key z)); rewrite !elem_of_cons; [rewrite IH|]; tauto.
Qed.

Lemma elem_of_sort_desc {A} (key : A → nat) (y : A) (l : list A) :
  y ∈ sort_desc key l ↔ y ∈ l.
Proof.
  unfold sort_desc. induction l as [|x l IH]; cbn [foldr]; [done|].
  rewrite elem_of_insert_desc, elem_of_cons, IH. tauto.
Qed.

Lemma group_append_own responder_id ticket groups :
  dict_get ticket "responder_id" = responder_id →
  Forall own_tickets groups →
  Forall own_tickets (group_append responder_id ticket groups).
Proof.
  intros Ht. induction groups as [|[k ts] rest IH]; intros Hall; cbn [group_append].
  - repeat constructor. exact Ht.
  - apply Forall_cons in Hall as [Hk Hrest].
    destruct (decide (k = responder_id)) as [->|Hne].
    + constructor; [|done]. unfold own_tickets in *. cbn [fst snd] in *.
      apply Forall_app. split; [done|]. by repeat constructor.
    + constructor; [done|]. by apply IH.
Qed.

Lemma group_by_responder_own all_tickets :
  Forall own_tickets (group_by_responder all_tickets).
Proof.
  unfold group_by_responder.
  assert (H : ∀ acc, Forall own_tickets acc →
            Forall own_tickets
              (foldl (λ acc ticket,
                        let responder_id := dict_get ticket "responder_id" in
                        if truthy responder_id then group_append responder_id ticket acc
                        else acc) acc all_tickets)).
  { induction all_tickets as [|t rest IH]; intros acc Hacc; [done|].
    cbn [foldl]. apply IH. cbv zeta.
    destruct (truthy _); [|done]. by apply group_append_own. }
  apply H. constructor.
Qed.

Lemma workload_from_success fuel agent_id group_id created_after created_before w r w' :
  workload_from server clock isoformat fromisoformat fuel agent_id group_id
    created_after created_before w = Val (Success r) w' →
  ∃ cb w0,
    workload_collect server clock isoformat fromisoformat fuel agent_id group_id
      created_after cb w0 = Val (Success r) w'.
Proof.
  unfold workload_from. destruct created_before as [cb|]; [eauto|].
  unfold bind, datetime_now. eauto.
Qed.

Lemma get_agent_workload_success fuel agent_id group_id period created_after
    created_before w r w' :
  get_agent_workload server clock isoformat fromisoformat fuel agent_id group_id
    period created_after created_before w = Val (Success r) w' →
  ∃ ca cb w0,
    workload_collect server clock isoformat fromisoformat fuel agent_id group_id
      ca cb w0 = Val (Success r) w'.
Proof.
  unfold get_agent_workload.
  assert (Hfrom : ∀ ca w1,
             workload_from server clock isoformat fromisoformat fuel agent_id group_id
               ca created_before w1 = Val (Success r) w' →
             ∃ ca cb w0,
               workload_collect server clock isoformat fromisoformat fuel agent_id group_id
                 ca cb w0 = Val (Success r) w').
  { intros ca w1 (cb & w0 & H)%workload_from_success. eauto. }
  assert (Hperiod :
            try_period (_parse_period clock period)
              (λ start_date,
                 workload_from server clock isoformat fromisoformat fuel agent_id group_id
                   (isoformat start_date) created_before) w = Val (Success r) w' →
            ∃ ca cb w0,
              workload_collect server clock isoformat fromisoformat fuel agent_id group_id
                ca cb w0 = Val (Success r) w').
  { unfold try_period.
    destruct (_parse_period clock period w) as [start_date w1|[] w1|]; try discriminate.
    apply Hfrom. }
  destruct agent_id, group_id, created_after; try discriminate;
    first [apply Hfrom | apply Hperiod].
Qed.

Lemma workload_collect_success fuel agent_id group_id created_after created_before w r w' :
  workload_collect server clock isoformat fromisoformat fuel agent_id group_id
    created_after created_before w = Val (Success r) w' →
  ∃ lk all_tickets,
    wl_agents r
    = sort_desc am_tickets_assigned
        ((λ '(responder_id, tickets),
            agent_entry fromisoformat (lk_agents lk) responder_id tickets)
           <$> group_by_responder all_tickets).
Proof.
  unfold workload_collect, bind.
  destruct (get_agent_lookup _ _ _ _ _) as [[lk|error st details] w0|e w0|];
    try discriminate.
  intros (all_tickets & w1 & _ & Hk)%try_fetch_success.
  injection Hk as <- _. eauto.
Qed.

End Metrics.

(** C3 as stated fails on the rounding: one ticket resolved a sixteenth of
    an hour after its creation gives the agent the resolution-time list
    [0.0625], whose mean is 0.0625, and the reported average is 0.06. *)
Lemma get_agent_workload_rounded_average :
  (λ r, (λ m, (am_agent_id m, am_tickets_assigned m, am_avg_resolution_hours m))
          <$> wl_agents r)
    <$> returned (get_agent_workload (helpdesk_server [] [] quick_ticket) example_clock
                    Iso.isoformat Iso.fromisoformat 3 (Some 5) None (Some "30d") None None
                    initial_world)
  = Some [(PInt 5, 1%nat, Some (decimal 6 2))]
  ∧ length (resolution_times_of Iso.fromisoformat quick_ticket) = 1%nat
  ∧ (py_mean (resolution_times_of Iso.fromisoformat quick_ticket) == 1 # 16)%Q
  ∧ ¬ (decimal 6 2 == 1 # 16)%Q.
Proof.
  split; [vm_compute; reflexivity|]. split; [vm_compute; reflexivity|].
  split; [vm_compute; reflexivity|]. intros H. vm_compute in H. discriminate H.
Qed.

(** The rounding is that of the float: 9630 seconds are 2.675 hours, the
    float nearest to 2.675 lies below it, and the reported average is 2.67. *)
Example get_agent_workload_float_average :
  (λ r, (λ m, (am_agent_id m, am_avg_resolution_hours m, am_resolution_times m))
          <$> wl_agents r)
    <$> returned (get_agent_workload (helpdesk_server [] [] slow_ticket) example_clock
                    Iso.isoformat Iso.fromisoformat 3 (Some 5) None (Some "30d") None None
                    initial_world)
  = Some [(PInt 5, Some (decimal 267 2), [decimal 267 2])].
Proof. vm_compute. reflexivity. Qed.

(** The sum is that of floats: the mean of 0.1, 0.2 and -0.3 is not zero,
    so it is reported, as 0.0. *)
Example report_average_float_sum :
  let resolution_times := [decimal 1 1; decimal 2 1; decimal (-3) 1] in
  Qtruthy (py_mean resolution_times) = true
  ∧ report_average (average_of resolution_times) = Some (decimal 0 2).
Proof. split; vm_compute; reflexivity. Qed.

(** The remaining case: a mean of exactly zero is reported as [None]
    although the list is not empty, because line 3912 tests the truth of the
    average and [0.0] is false. *)
Lemma get_agent_workload_zero_average :
  (λ r, (λ m, (am_agent_id m, am_avg_resolution_hours m, length (am_resolution_times m)))
          <$> wl_agents r)
    <$> returned (get_agent_workload (helpdesk_server [] [] instant_ticket) example_clock
                    Iso.isoformat Iso.fromisoformat 3 (Some 5) None (Some "30d") None None
                    initial_world)
  = Some [(PInt 5, None, 1%nat)].
Proof. vm_compute. reflexivity. Qed.


Lemma get_agent_workload_agent_and_group_witness :
  ∃ r w',
    get_agent_workload (helpdesk_server [] groups1 quick_ticket) example_clock
      Iso.isoformat Iso.fromisoformat 3 (Some 5) (Some 1) (Some "30d") None None
      initial_world
    = Val (Success r) w'
    ∧ ∃ ca cb w0 lk w1 all_tickets rqs,
        let query :=
          "responder_id:" +:+ pretty 5 +:+ " AND " +:+ "created_at:>'" +:+ ca +:+ "'"
          +:+ " AND " +:+ "created_at:<'" +:+ cb +:+ "'" in
        date_range example_clock Iso.isoformat (Some "30d") None None initial_world
        = Val (ca, cb) w0
        ∧ get_agent_lookup (helpdesk_server [] groups1 quick_ticket) example_clock
            Iso.isoformat 3 w0 = Val (Success lk) w1
        ∧ tickets_loop (helpdesk_server [] groups1 quick_ticket) 3 query None [] 1 w1
          = Val all_tickets w'
        ∧ w_log w' = (w_log w1 ++ tickets_request query None 1 :: rqs)%list
        ∧ Forall (λ rq, ∃ page, rq = tickets_request query None page) rqs
        ∧ wl_agents r
          = sort_desc am_tickets_assigned
              (unsorted_metrics Iso.fromisoformat (lk_agents lk) all_tickets)
        ∧ wl_start r = ca
        ∧ wl_end r = cb
        ∧ wl_group_name r
          = if 1 =? 0 then PNone else default PNone (lk_groups lk !! PInt 1).
Proof.
  assert (Hs : succeeded (get_agent_workload (helpdesk_server [] groups1 quick_ticket)
                            example_clock Iso.isoformat Iso.fromisoformat 3 (Some 5) (Some 1)
                            (Some "30d") None None initial_world) = true)
    by (vm_compute; reflexivity).
  destruct (get_agent_workload _ _ _ _ _ _ _ _ _ _ _) as [[r|? ? ?] w'|? ?|] eqn:Hrun;
    try discriminate Hs.
  exists r, w'. split; [reflexivity|].
  destruct (get_agent_workload_agent_and_group (helpdesk_server [] groups1 quick_ticket)
              example_clock Iso.isoformat Iso.fromisoformat 3 5 1 (Some "30d") None None
              initial_world) as (_ & _ & _ & _ & Hsuccess).
  exact (Hsuccess r w' Hrun).
Defined.

(** The filter of a call with both ids, and its group name. *)
Example get_agent_workload_both_ids :
  (λ o, (rq_query <$> w_log o.2, wl_group_name o.1))
    <$> match get_agent_workload (helpdesk_server [] groups1 quick_ticket) example_clock
                Iso.isoformat Iso.fromisoformat 3 (Some 5) (Some 1) None
                (Some "2024-01-01") (Some "2024-02-01") initial_world with
        | Val (Success r) w' => Some (r, w')
        | _ => None
        end
  = Some ([None; None;
           Some (PyStr.dq +:+ "responder_id:5 AND created_at:>'2024-01-01' AND created_at:<'2024-02-01'"
                 +:+ PyStr.dq)],
          PStr "Support").
Proof. vm_compute. reflexivity. Qed.

(** ** get_team_comparison *)

Section Comparison.

Context (server : request → response) (clock : nat → Z) (isoformat : Z → string)
        (fromisoformat : string → option parsed_datetime).

(** What the loop over the group ids keeps true of its three accumulators. *)
Lemma compare_groups_law fuel lk created_after created_before :
  ∀ group_ids comparison_results total rates w r w',
    rates = entry_rate <$> comparison_results →
    Forall (λ e, ge_closure_rate e = py_round (entry_rate e) 3) comparison_results →
    total = sum_list (ge_total_tickets <$> comparison_results) →
    compare_groups server fromisoformat fuel lk created_after created_before group_ids
      comparison_results total rates w = Val (Success r) w' →
    Forall (λ e, ge_closure_rate e = py_round (entry_rate e) 3) (cr_comparison r)
    ∧ cr_average_closure_rate r
      = py_round (average_rate (entry_rate <$> cr_comparison r)) 3
    ∧ cr_total_tickets_all_groups r = sum_list (ge_total_tickets <$> cr_comparison r)
    ∧ length (cr_comparison r) = (length comparison_results + length group_ids)%nat.
Proof.
  induction group_ids as [|group_id rest IH];
    intros acc total rates w r w' Hrates Hacc Htotal Hrun.
  - cbn [compare_groups] in Hrun. injection Hrun as <- _.
    cbn [cr_comparison cr_average_closure_rate cr_total_tickets_all_groups length].
    subst. rewrite Nat.add_0_r. done.
  - cbn [compare_groups] in Hrun.
    apply try_fetch_success in Hrun as (all_tickets & w0 & _ & Hk).
    unfold analyze_group in Hk. cbv zeta beta iota in Hk.
    apply IH in Hk.
    + destruct Hk as (H1 & H2 & H3 & H4). repeat split; try done.
      rewrite H4, length_app. cbn [length]. lia.
    + subst rates. by rewrite fmap_app.
    + apply Forall_app. split; [done|]. by repeat constructor.
    + subst total. rewrite fmap_app, sum_list_with_app. cbn. lia.
Qed.


End Comparison.


(** The rounding is that of the float: three closed tickets of eighty have
    the rate 0.0375, the float nearest to it lies below it, and the reported
    rate is 0.037. *)
Example closure_rate_float_rounding :
  py_round (closure_rate_of 3 0 80) 3 = decimal 37 3.
Proof. vm_compute. reflexivity. Qed.

(** The scenario of the specification: ten tickets with six resolved and
    five tickets with none resolved give the rates 0.6 and 0.0 and the
    average 0.3. *)
Example get_team_comparison_scenario :
  (λ r, (ge_closure_rate <$> cr_comparison r, cr_total_tickets_all_groups r,
         cr_average_closure_rate r))
    <$> returned (get_team_comparison scenario_server example_clock Iso.isoformat
                    Iso.fromisoformat 3 [1; 2] None None initial_world)
  = Some ([decimal 600 3; decimal 0 3], 15%nat, decimal 300 3).
Proof. vm_compute. reflexivity. Qed.


(** * Further properties *)

(** ** The lookup cache *)

Section Cache.

Context (server : request → response) (clock : nat → Z) (isoformat : Z → string).

Lemma total_seconds_mono (a b : Z) : a ≤ b → (total_seconds a <= total_seconds b)%Q.
Proof.
  intros H. unfold total_seconds, int_truediv. apply binary64_mono.
  apply Qmult_le_compat_r; [by rewrite <- Zle_Qle|]. unfold Qle. cbn. lia.
Qed.

(** The float comparison of the age with 300 decides as the exact one
    does: rounding is monotone, and 300 is a float. *)
Lemma ttl_reached (delta : Z) :
  Qle_bool (inject_Z cache_ttl) (total_seconds delta) = true ↔ ttl_usec ≤ delta.
Proof.
  rewrite Qle_bool_iff. split.
  - intros H. destruct (Z_lt_le_dec delta ttl_usec) as [Hlt|]; [exfalso|done].
    pose proof (total_seconds_mono delta (ttl_usec - 1) ltac:(lia)) as Hm.
    assert (Hb : (total_seconds (ttl_usec - 1) < inject_Z cache_ttl)%Q)
      by (vm_compute; reflexivity).
    lra.
  - intros H. pose proof (total_seconds_mono ttl_usec delta H) as Hm.
    assert (Hb : (inject_Z cache_ttl <= total_seconds ttl_usec)%Q)
      by (vm_compute; discriminate).
    lra.
Qed.

Lemma get_agent_lookup_hit fuel w agents groups ts :
  w_cache w = mk_cache (Some agents) (Some groups) (Some ts) →
  clock (w_ticks w) - ts < ttl_usec →
  get_agent_lookup server clock isoformat fuel w
  = Val (Success (mk_lookup_result agents groups (isoformat ts) 300
                    (total_seconds (clock (w_ticks w) - ts))))
        (tick w).
Proof.
  intros Hcache Hage.
  unfold get_agent_lookup, bind, datetime_now, get_cache. cbn [w_cache].
  fold (tick w). unfold cached_lookup. rewrite Hcache.
  cbn [cache_timestamp cache_agents cache_groups].
  destruct (Qle_bool _ _) eqn:E; [apply ttl_reached in E; lia|reflexivity].
Qed.

(** X1: the cache is served exactly while it is younger than 300 seconds.
    With all three slots set and an age below 300 seconds the call returns the
    stored directories and their age, sends no request and leaves the cache
    as it is; at an age of 300 seconds or more it runs the refresh. *)
Theorem get_agent_lookup_ttl fuel w agents groups ts :
  w_cache w = mk_cache (Some agents) (Some groups) (Some ts) →
  let now := clock (w_ticks w) in
  (now - ts < ttl_usec →
   get_agent_lookup server clock isoformat fuel w
   = Val (Success (mk_lookup_result agents groups (isoformat ts) 300
                     (total_seconds (now - ts))))
         (tick w))
  ∧ (ttl_usec ≤ now - ts →
     get_agent_lookup server clock isoformat fuel w
     = refresh_lookup server isoformat fuel now (tick w)).
Proof.
  intros Hcache now.
  unfold get_agent_lookup, bind, datetime_now, get_cache. cbn [w_cache].
  fold now. fold (tick w). unfold cached_lookup. rewrite Hcache.
  cbn [cache_timestamp cache_agents cache_groups].
  split; intros Hage.
  - destruct (Qle_bool _ _) eqn:E; [apply ttl_reached in E; lia|reflexivity].
  - by rewrite (proj2 (ttl_reached _) Hage).
Qed.

(** After a successful call the cache holds the directories just
    returned. *)
Lemma get_agent_lookup_cache_after fuel w r w' :
  get_agent_lookup server clock isoformat fuel w = Val (Success r) w' →
  ∃ ts, w_cache w' = mk_cache (Some (lk_agents r)) (Some (lk_groups r)) (Some ts).
Proof.
  unfold get_agent_lookup, bind, datetime_now, get_cache. cbn [w_cache].
  destruct (cached_lookup _ _ _) as [hit|] eqn:Hhit.
  - unfold ret. intros [= <- <-]. cbn [w_cache].
    unfold cached_lookup in Hhit. destruct (w_cache w) as [[a|] [g|] [ts|]]; try done.
    cbn in Hhit. destruct (Qle_bool _ _); [done|]. injection Hhit as <-. eauto.
  - unfold refresh_lookup.
    intros (a & w0 & _ & (g & w1 & _ & Hk)%try_fetch_success)%try_fetch_success.
    unfold bind, set_cache, ret in Hk. injection Hk as <- <-. cbn. eauto.
Qed.

(** X2: two calls in a row.  When a call has succeeded and the next reading
    of the clock is less than 300 seconds after the timestamp now stored, a
    second call returns the same two directories, sends no request and
    changes nothing but the count of clock readings. *)
Theorem get_agent_lookup_twice fuel fuel' w r w' ts :
  get_agent_lookup server clock isoformat fuel w = Val (Success r) w' →
  cache_timestamp (w_cache w') = Some ts →
  clock (w_ticks w') - ts < ttl_usec →
  ∃ r', get_agent_lookup server clock isoformat fuel' w' = Val (Success r') (tick w')
        ∧ lk_agents r' = lk_agents r ∧ lk_groups r' = lk_groups r.
Proof.
  intros [ts' Hcache]%get_agent_lookup_cache_after Hts Hage.
  rewrite Hcache in Hts. injection Hts as ->.
  eexists. split; [by apply (get_agent_lookup_hit fuel' w' _ _ _ Hcache)|]. done.
Qed.

End Cache.

Lemma get_agent_lookup_ttl_witness :
  (∃ r, get_agent_lookup failing_server example_clock Iso.isoformat 3 fresh_world
        = Val (Success r) (tick fresh_world)
        ∧ lk_agents r = add_agent ∅ (agent 7 "Old" "Entry"))
  ∧ get_agent_lookup failing_server example_clock Iso.isoformat 3 stale_world
    = refresh_lookup failing_server Iso.isoformat 3 noon (tick stale_world).
Proof.
  destruct (get_agent_lookup_ttl failing_server example_clock Iso.isoformat 3
              fresh_world _ _ _ eq_refl) as [Hhit _].
  destruct (get_agent_lookup_ttl failing_server example_clock Iso.isoformat 3
              stale_world _ _ _ eq_refl) as [_ Hmiss].
  split.
  - eexists. split; [apply Hhit; vm_compute; reflexivity|reflexivity].
  - apply Hmiss. vm_compute. discriminate.
Defined.

Lemma get_agent_lookup_twice_witness :
  ∃ r r' w',
    get_agent_lookup (directory_server true agents31 groups1) example_clock Iso.isoformat
      32 stale_world = Val (Success r) w'
    ∧ get_agent_lookup (directory_server true agents31 groups1) example_clock Iso.isoformat
        0 w' = Val (Success r') (tick w')
    ∧ lk_agents r' = lk_agents r ∧ lk_groups r' = lk_groups r.
Proof.
  assert (Hs : succeeded (get_agent_lookup (directory_server true agents31 groups1)
                            example_clock Iso.isoformat 32 stale_world) = true)
    by (vm_compute; reflexivity).
  assert (Hw : (λ w, (cache_timestamp (w_cache w), w_ticks w))
                 <$> world_of (get_agent_lookup (directory_server true agents31 groups1)
                                 example_clock Iso.isoformat 32 stale_world)
               = Some (Some noon, 1%nat))
    by (vm_compute; reflexivity).
  destruct (get_agent_lookup _ _ _ _ _) as [[r|? ? ?] w'|? ?|] eqn:Hrun;
    try discriminate Hs.
  cbn in Hw. injection Hw as Hts Hticks.
  destruct (get_agent_lookup_twice (directory_server true agents31 groups1) example_clock
              Iso.isoformat 32 0 stale_world r w' noon Hrun Hts) as (r' & Hrun' & Ha & Hg).
  { rewrite Hticks. vm_compute. reflexivity. }
  exists r, r', w'. by repeat split.
Defined.

(** ** Dictionaries filled in a loop *)

Section LastWins.

(** A loop body that stores under the key of its item: after the loop a
    key holds what the last item with that key stored. *)
Lemma foldl_store_last `{Countable K} {A V} (key : A → K) (f : gmap K V → A → gmap K V) :
  (∀ d a k, f d a !! k = if decide (key a = k) then f ∅ a !! k else d !! k) →
  ∀ (l : list A) (m : gmap K V) (k : K),
    foldl f m l !! k
    = match last_such (λ a, key a = k) l with
      | Some a => f ∅ a !! k
      | None => m !! k
      end.
Proof.
  intros Hf. unfold last_such. induction l as [|a l IH]; intros m k; [done|].
  cbn [foldl]. rewrite IH, filter_cons, Hf.
  destruct (decide (key a = k)) as [Hk|Hk]; [|done].
  rewrite last_cons. by destruct (last (filter _ l)).
Qed.

Lemma add_agent_lookup d a k :
  add_agent d a !! k
  = if decide (dict_get a "id" = k) then add_agent ∅ a !! k else d !! k.
Proof.
  unfold add_agent. destruct (decide (dict_get a "id" = k)) as [<-|Hne].
  - by rewrite !lookup_insert_eq.
  - by rewrite lookup_insert_ne.
Qed.

Lemma add_group_lookup d g k :
  add_group d g !! k
  = if decide (dict_get g "id" = k) then add_group ∅ g !! k else d !! k.
Proof.
  unfold add_group. destruct (decide (dict_get g "id" = k)) as [<-|Hne].
  - by rewrite !lookup_insert_eq.
  - by rewrite lookup_insert_ne.
Qed.

Lemma last_such_Some {A} (P : A → Prop) `{∀ x, Decision (P x)} (l : list A) x :
  last_such P l = Some x → x ∈ l ∧ P x.
Proof.
  unfold last_such. intros Hx. apply last_Some_elem_of in Hx.
  rewrite list_elem_of_filter in Hx. tauto.
Qed.

Lemma last_such_is_Some {A} (P : A → Prop) `{∀ x, Decision (P x)} (l : list A) :
  is_Some (last_such P l) ↔ ∃ x, x ∈ l ∧ P x.
Proof.
  split.
  - intros [x Hx]. exists x. exact (last_such_Some _ _ _ Hx).
  - intros (x & Hx & HP). unfold last_such.
    destruct (last (filter P l)) as [y|] eqn:Hy; [eauto|].
    apply last_None in Hy.
    assert (Hin : x ∈ filter P l) by (rewrite list_elem_of_filter; tauto).
    rewrite Hy in Hin. by apply elem_of_nil in Hin.
Qed.

(** X3: a directory built from a list of records holds, under each id, the
    entry of the last record with that id (a later record replaces an earlier
    one with the same id, also across pages), and nothing under an id that no
    record has. *)
Theorem directory_last_record (agents groups : list py_dict) (k : py_value) :
  foldl add_agent ∅ agents !! k
  = (a ← last_such (λ a, dict_get a "id" = k) agents; add_agent ∅ a !! k)
  ∧ foldl add_group ∅ groups !! k
    = (g ← last_such (λ g, dict_get g "id" = k) groups; add_group ∅ g !! k)
  ∧ (is_Some (foldl add_agent ∅ agents !! k) ↔ ∃ a, a ∈ agents ∧ dict_get a "id" = k)
  ∧ (is_Some (foldl add_group ∅ groups !! k) ↔ ∃ g, g ∈ groups ∧ dict_get g "id" = k).
Proof.
  pose proof (foldl_store_last (λ a, dict_get a "id") add_agent add_agent_lookup
                agents ∅ k) as Ha.
  pose proof (foldl_store_last (λ g, dict_get g "id") add_group add_group_lookup
                groups ∅ k) as Hg.
  split; [|split; [|split]].
  - rewrite Ha. by destruct (last_such _ agents).
  - rewrite Hg. by destruct (last_such _ groups).
  - rewrite Ha.
    destruct (last_such _ agents) as [x|] eqn:E.
    + apply last_such_Some in E as [Hin Hk].
      unfold add_agent. rewrite Hk, lookup_insert_eq. split; eauto.
    + rewrite lookup_empty. split; [by intros [? [=]]|].
      intros Hex.
      apply (last_such_is_Some (λ x : py_dict, dict_get x "id" = k)) in Hex.
      rewrite E in Hex. by destruct Hex.
  - rewrite Hg.
    destruct (last_such _ groups) as [x|] eqn:E.
    + apply last_such_Some in E as [Hin Hk].
      unfold add_group. rewrite Hk, lookup_insert_eq. split; eauto.
    + rewrite lookup_empty. split; [by intros [? [=]]|].
      intros Hex.
      apply (last_such_is_Some (λ x : py_dict, dict_get x "id" = k)) in Hex.
      rewrite E in Hex. by destruct Hex.
Qed.

Lemma store_entry_lookup d (e : string * Z) k :
  store_entry d e !! k
  = if decide (e.1 = k) then store_entry ∅ e !! k else d !! k.
Proof.
  unfold store_entry. destruct (decide (e.1 = k)) as [<-|Hne].
  - by rewrite !lookup_insert_eq.
  - by rewrite lookup_insert_ne.
Qed.

(** X19: when a header has several valid entries with one relation, the
    last of them gives the page number; a relation with no valid entry keeps
    its initial value ([None] under next and prev, no key otherwise). *)
Theorem parse_link_header_last_entry (link_header rel : string) :
  parse_link_header link_header !! rel
  = match last_such (λ e, e.1 = rel) (valid_entries link_header) with
    | Some e => Some (Some e.2)
    | None => pagination_init !! rel
    end.
Proof.
  rewrite parse_link_header_fold.
  rewrite (foldl_store_last (λ e : string * Z, e.1) store_entry store_entry_lookup).
  destruct (last_such _ _) as [e|] eqn:E; [|done].
  apply last_such_Some in E as [_ <-].
  unfold store_entry. by rewrite lookup_insert_eq.
Qed.

Lemma pagination_get_last (link_header rel : string) :
  default None (parse_link_header link_header !! rel)
  = snd <$> last_such (λ e, e.1 = rel) (valid_entries link_header).
Proof.
  rewrite parse_link_header_fold.
  rewrite (foldl_store_last (λ e : string * Z, e.1) store_entry store_entry_lookup).
  destruct (last_such _ _) as [e|] eqn:E.
  - apply last_such_Some in E as [_ <-]. unfold store_entry. by rewrite lookup_insert_eq.
  - cbn [fmap option_fmap option_map].
    destruct (pagination_init !! rel) as [[v|]|] eqn:Ei; [|done|done].
    unfold pagination_init in Ei.
    apply lookup_insert_Some in Ei as [[_ [=]]|[_ Ei]].
    apply lookup_insert_Some in Ei as [[_ [=]]|[_ Ei]].
    by rewrite lookup_empty in Ei.
Qed.

End LastWins.

Example parse_link_header_two_next :
  parse_link_header ("<https://x/a?page=2>; rel=" +:+ PyStr.dq +:+ "next" +:+ PyStr.dq
                     +:+ ", <https://x/a?page=9>; rel=" +:+ PyStr.dq +:+ "next" +:+ PyStr.dq)
    !! "next" = Some (Some 9).
Proof. vm_compute. reflexivity. Qed.

(** ** The ticket walks *)

Section Walks.

Context (server : request → response) (clock : nat → Z) (isoformat : Z → string).

Lemma filter_fields_lookup (fields : list string) (ticket : py_dict) (k : string) :
  ∀ acc : py_dict,
  foldl (λ (acc : py_dict) field,
           match ticket !! field with
           | Some v => <[field := v]> acc
           | None => acc
           end) acc fields !! k
  = if decide (k ∈ fields)
    then match ticket !! k with Some v => Some v | None => acc !! k end
    else acc !! k.
Proof.
  induction fields as [|f fs IH]; intros acc.
  - cbn. destruct (decide (k ∈ [])) as [Hin|]; [by apply elem_of_nil in Hin|done].
  - cbn [foldl]. rewrite IH.
    assert (Hstep : (match ticket !! f with Some v => <[f := v]> acc | None => acc end) !! k
                    = if decide (f = k)
                      then match ticket !! k with Some v => Some v | None => acc !! k end
                      else acc !! k).
    { destruct (decide (f = k)) as [->|Hne].
      - destruct (ticket !! k); [by rewrite lookup_insert_eq|done].
      - destruct (ticket !! f); [by rewrite lookup_insert_ne|done]. }
    rewrite Hstep.
    destruct (decide (k ∈ fs)) as [Hin|Hnin], (decide (f = k)) as [Heq|Hne],
             (decide (k ∈ f :: fs)) as [Hin'|Hnin'], (ticket !! k);
      try done; exfalso; set_solver.
Qed.

(** X7: the field filter of [search_tickets_all].  With a non-empty list of
    fields every ticket keeps exactly the listed keys it has, each with its
    value (a key whose value is null stays), and a listed key the ticket lacks
    is not added; with no list or an empty one the tickets are unchanged.
    The number and the order of the tickets stay the same. *)
Theorem apply_fields_restricts fields (tickets : list py_dict) :
  length (apply_fields fields tickets) = length tickets
  ∧ ∀ i ticket, tickets !! i = Some ticket →
      ∃ ticket', apply_fields fields tickets !! i = Some ticket'
                 ∧ ∀ k, ticket' !! k = restricted fields ticket k.
Proof.
  split; [apply apply_fields_length|].
  intros i ticket Hi. unfold apply_fields, restricted.
  destruct fields as [[|f fs]|]; [eauto|  |eauto].
  rewrite list_lookup_fmap, Hi. eexists. split; [reflexivity|].
  intros k. unfold filter_fields. rewrite filter_fields_lookup.
  destruct (decide (k ∈ f :: fs)); [|done]. by destruct (ticket !! k).
Qed.

(** The requests of the capped loop: one for each page from the first to
    the last, in order, and nothing else changes in the state. *)
Lemma search_loop_log query workspace_id max_results fields :
  ∀ fuel acc page w all page' truncated w',
    search_loop server fuel query workspace_id max_results fields acc page w
    = Val (all, page', truncated) w' →
    page ≤ page'
    ∧ w' = mk_world (w_cache w)
             (w_log w ++ (tickets_request query workspace_id <$> seqZ page (page' - page + 1)))
             (w_ticks w).
Proof.
  induction fuel as [|fuel IH]; intros acc page w all page' tr w'; [done|].
  cbn [search_loop]. unfold bind, http_get.
  destruct (server _) as [data link|msg st body|msg]; [|done|done].
  assert (Hone : seqZ page (page - page + 1) = [page]).
  { replace (page - page + 1) with 1 by lia. reflexivity. }
  destruct (envelope data "tickets") as [|t ts] eqn:Henv.
  { unfold ret. intros [= <- <- <- <-]. split; [lia|]. by rewrite Hone. }
  cbv zeta.
  destruct (max_results <=? _).
  { unfold ret. intros [= <- <- <- <-]. split; [lia|]. by rewrite Hone. }
  destruct (_ && _).
  { unfold ret. intros [= <- <- <- <-]. split; [lia|]. by rewrite Hone. }
  intros Hrec. apply IH in Hrec as [Hle ->]. split; [lia|].
  cbn [w_cache w_log w_ticks]. f_equal.
  rewrite <- (assoc_L (++)). f_equal.
  rewrite (seqZ_cons page) by lia. cbn [fmap list_fmap]. do 3 f_equal; lia.
Qed.

(** X5: the pages a successful capped search has read.  The requests sent
    are those for the pages 1, 2, ..., [pages_fetched] of the one query, in
    this order and each once; [pages_fetched] is at least 1; the cache and
    the clock are not touched. *)
Theorem search_tickets_all_requests fuel query max_results fields workspace_id w r w' :
  search_tickets_all server fuel query max_results fields workspace_id w
  = Val (Success r) w' →
  1 ≤ sr_pages_fetched r
  ∧ sr_total_fetched r = length (sr_tickets r)
  ∧ w' = mk_world (w_cache w)
           (w_log w ++ (tickets_request query workspace_id <$> seqZ 1 (sr_pages_fetched r)))
           (w_ticks w).
Proof.
  unfold search_tickets_all. destruct (_ <? 1); [discriminate|].
  intros ([[all page'] tr] & w0 & Hloop & Hk)%try_fetch_success.
  injection Hk as <- <-. cbn [sr_pages_fetched sr_total_fetched sr_tickets].
  apply search_loop_log in Hloop as [Hle ->].
  replace (page' - 1 + 1) with page' by lia. done.
Qed.

(** X6: [search_tickets_all] always returns a result.  Whatever the
    collaborator answers, the call neither raises nor (given fuel for a
    thousand and one rounds) runs on: it returns the success or a failure
    result. *)
Theorem search_tickets_all_returns fuel query max_results fields workspace_id w :
  (1000 < fuel)%nat →
  ∃ r w', search_tickets_all server fuel query max_results fields workspace_id w = Val r w'.
Proof.
  intros Hfuel.
  pose proof (search_tickets_all_ends server fuel query max_results fields workspace_id w
                Hfuel) as Hends.
  revert Hends. unfold search_tickets_all. destruct (_ <? 1); [unfold ret; eauto|].
  unfold try_fetch. destruct (search_loop _ _ _ _ _ _ _ _ _) as [[[all page] tr] w0|e w0|];
    [unfold ret; eauto|eauto|done].
Qed.

End Walks.

Lemma search_tickets_all_requests_witness :
  ∃ r w',
    search_tickets_all (ticket_server (tickets_with_status 2 1 72)) 10 "status:2" 1000
      None None initial_world = Val (Success r) w'
    ∧ w' = mk_world empty_cache
             (tickets_request "status:2" None <$> seqZ 1 (sr_pages_fetched r)) 0.
Proof.
  assert (Hs : succeeded (search_tickets_all (ticket_server (tickets_with_status 2 1 72)) 10
                            "status:2" 1000 None None initial_world) = true)
    by (vm_compute; reflexivity).
  destruct (search_tickets_all _ _ _ _ _ _ _) as [[r|? ? ?] w'|? ?|] eqn:Hrun;
    try discriminate Hs.
  exists r, w'. split; [reflexivity|].
  by destruct (search_tickets_all_requests _ _ _ _ _ _ _ _ _ Hrun) as (_ & _ & ->).
Defined.

Lemma search_tickets_all_returns_witness :
  ∃ r w', search_tickets_all failing_server 1001 "status:2" 500 None None initial_world
          = Val r w'.
Proof. apply search_tickets_all_returns. lia. Defined.

Lemma apply_fields_restricts_witness :
  ∃ ticket',
    apply_fields (Some ["status"; "subject"]) mixed_tickets !! 0%nat = Some ticket'
    ∧ ∀ k, ticket' !! k
           = restricted (Some ["status"; "subject"])
               (mk_ticket 1 (Some 2) (Some 1) (Some 1) (Some "Incident")) k.
Proof.
  destruct (apply_fields_restricts (Some ["status"; "subject"]) mixed_tickets) as [_ H].
  apply (H 0%nat). reflexivity.
Defined.

(** ** The uncapped walk and the statistics *)

Section Population.

Context (server : request → response) (clock : nat → Z) (isoformat : Z → string).

(** The uncapped loop against a paged collection: it ends with all records,
    in order, each once. *)
Lemma tickets_loop_paged query workspace_id per_page xs :
  (30 ≤ per_page)%nat →
  serves_tickets server query workspace_id per_page xs →
  ∀ fuel page w,
    1 ≤ page →
    (length xs - Z.to_nat (page - 1) * per_page < fuel)%nat →
    ∃ w', tickets_loop server fuel query workspace_id
            (take (Z.to_nat (page - 1) * per_page) xs) page w
          = Val xs w'.
Proof.
  intros Hpp Hserve. induction fuel as [|fuel IH]; intros page w Hpage Hfuel; [lia|].
  destruct (Hserve page Hpage) as (data & link & Hget & Henv).
  cbn [tickets_loop]. erewrite bind_Val by (by apply http_get_ok).
  cbv beta iota. rewrite Henv.
  destruct (page_of per_page xs page) as [|t ts] eqn:Hpg.
  - apply page_of_nil in Hpg; [|lia].
    eexists. unfold ret. do 2 f_equal. apply take_ge. lia.
  - rewrite <- Hpg. cbv zeta. rewrite page_of_app by done.
    assert (Hlt : (Z.to_nat (page - 1) * per_page < length xs)%nat).
    { destruct (decide (Z.to_nat (page - 1) * per_page < length xs)%nat) as [|Hge]; [done|].
      exfalso. unfold page_of in Hpg. rewrite drop_ge, take_nil in Hpg by lia. done. }
    destruct (_ && _) eqn:Hshort.
    + apply andb_true_iff in Hshort as [Hshort _]. apply Z.ltb_lt in Hshort.
      rewrite page_of_length in Hshort.
      eexists. unfold ret. do 2 f_equal. apply take_ge. lia.
    + apply IH; lia.
Qed.

(** X4: the statistics are those of the whole population.  When at least
    one filter is given, the lookup succeeds and the collaborator serves the
    matching tickets in pages of a fixed size of at least 30 (whatever its
    Link headers), the call returns, with enough fuel, the fold of all
    matching tickets: no ticket is missed, none is counted twice and there is
    no cap. *)
Theorem get_ticket_stats_population fuel group_id created_after created_before
    workspace_id per_page xs w lk w0 :
  stats_query_parts group_id created_after created_before ≠ [] →
  get_agent_lookup server clock isoformat fuel w = Val (Success lk) w0 →
  (30 ≤ per_page)%nat →
  serves_tickets server
    (join_and (stats_query_parts group_id created_after created_before))
    workspace_id per_page xs →
  (length xs < fuel)%nat →
  ∃ r w',
    get_ticket_stats server clock isoformat fuel group_id created_after created_before
      workspace_id w = Val (Success r) w'
    ∧ st_stats r = aggregate_stats (lk_agents lk) xs
    ∧ total_tickets (st_stats r) = length xs.
Proof.
  intros Hparts Hlookup Hpp Hserve Hfuel.
  unfold get_ticket_stats. fold (stats_query_parts group_id created_after created_before).
  destruct (stats_query_parts _ _ _) as [|p ps] eqn:Hq; [done|].
  unfold bind. rewrite Hlookup. unfold try_fetch.
  destruct (tickets_loop_paged _ workspace_id per_page xs Hpp Hserve fuel 1 w0)
    as [w' Hloop]; [lia|simpl; lia|].
  change (Z.to_nat (1 - 1) * per_page)%nat with 0%nat in Hloop. rewrite take_0 in Hloop.
  rewrite Hloop. unfold ret. eexists _, _. split; [reflexivity|].
  split; [reflexivity|]. apply aggregate_stats_sums.
Qed.

Lemma try_fetch_no_raise {A B} (body : M A) on_status on_other (k : A → M (result B)) w :
  (∀ a w0, ¬ raises (k a w0)) →
  ¬ raises (try_fetch body on_status on_other k w).
Proof.
  intros Hk. unfold try_fetch. destruct (body w) as [a w0|e w0|]; [apply Hk|..]; tauto.
Qed.

Lemma get_agent_lookup_no_raise fuel w :
  ¬ raises (get_agent_lookup server clock isoformat fuel w).
Proof.
  unfold get_agent_lookup, bind, datetime_now, get_cache.
  destruct (cached_lookup _ _ _); [cbn; tauto|].
  unfold refresh_lookup. apply try_fetch_no_raise. intros a w0.
  apply try_fetch_no_raise. intros g w1. cbn. tauto.
Qed.

Lemma failure_message_differs {A} on_status on_other e status details :
  on_status ≠ EmptyString → on_other ≠ EmptyString →
  String.get 0 on_status ≠ Some "A"%char → String.get 0 on_other ≠ Some "A"%char →
  @except_fetch A on_status on_other e ≠ Failure no_filter_error status details.
Proof.
  intros H1 H2 H3 H4.
  destruct on_status as [|c1 s1]; [done|]. destruct on_other as [|c2 s2]; [done|].
  cbn in H3, H4.
  destruct e; cbn; intros [= -> _]; congruence.
Qed.

(** X8: [get_ticket_stats] never raises, and its validation failure can be
    told from every other failure.  The call returns the message about the
    missing filter exactly when all three filters are absent, and then the
    state is unchanged: no clock reading, no request. *)
Theorem get_ticket_stats_validation fuel group_id created_after created_before
    workspace_id w :
  ¬ raises (get_ticket_stats server clock isoformat fuel group_id created_after
              created_before workspace_id w)
  ∧ (group_id = None ∧ created_after = None ∧ created_before = None →
     get_ticket_stats server clock isoformat fuel group_id created_after created_before
       workspace_id w = Val (Failure no_filter_error None None) w)
  ∧ (∀ status details w',
       get_ticket_stats server clock isoformat fuel group_id created_after created_before
         workspace_id w = Val (Failure no_filter_error status details) w' →
       group_id = None ∧ created_after = None ∧ created_before = None).
Proof.
  split; [|split].
  - unfold get_ticket_stats. destruct (_ ++ _)%list; [cbn; tauto|].
    unfold bind.
    pose proof (get_agent_lookup_no_raise fuel w) as Hl.
    destruct (get_agent_lookup _ _ _ _ _) as [[lk|? ? ?] w0|? ?|]; [|cbn; tauto..].
    apply try_fetch_no_raise. intros a w1. cbn. tauto.
  - intros (-> & -> & ->). reflexivity.
  - intros status details w'. unfold get_ticket_stats.
    destruct group_id, created_after, created_before; cbn [opt_part fmap option_fmap
      option_map app]; try (intros _; done);
      (unfold bind;
       destruct (get_agent_lookup _ _ _ _ _) as [[lk|? ? ?] w0|? ?|]; try discriminate;
       unfold try_fetch;
       destruct (tickets_loop _ _ _ _ _ _ _) as [all w1|e w1|]; try discriminate;
       intros [= H _]; exfalso; revert H;
       by apply failure_message_differs).
Qed.

End Population.

Lemma serves_helpdesk_server agents groups tickets query workspace_id :
  serves_tickets (helpdesk_server agents groups tickets) query workspace_id 30 tickets.
Proof.
  intros page Hpage. eexists _, _. split; [reflexivity|].
  unfold envelope. by rewrite lookup_singleton_eq.
Qed.

Lemma get_ticket_stats_population_witness :
  ∃ r w',
    get_ticket_stats (helpdesk_server [] [] mixed_tickets) example_clock Iso.isoformat 5
      (Some 1) None None None initial_world = Val (Success r) w'
    ∧ total_tickets (st_stats r) = 4%nat.
Proof.
  assert (Hs : succeeded (get_agent_lookup (helpdesk_server [] [] mixed_tickets)
                            example_clock Iso.isoformat 5 initial_world) = true)
    by (vm_compute; reflexivity).
  destruct (get_agent_lookup _ _ _ _ _) as [[lk|? ? ?] w0|? ?|] eqn:Hlookup;
    try discriminate Hs.
  destruct (get_ticket_stats_population (helpdesk_server [] [] mixed_tickets) example_clock
              Iso.isoformat 5 (Some 1) None None None 30 mixed_tickets initial_world lk w0)
    as (r & w' & Hrun & _ & Htotal).
  - discriminate.
  - exact Hlookup.
  - lia.
  - apply serves_helpdesk_server.
  - vm_compute. lia.
  - exists r, w'. split; [exact Hrun|exact Htotal].
Defined.

Lemma get_ticket_stats_validation_witness :
  get_ticket_stats failing_server example_clock Iso.isoformat 5 None None None (Some 2)
    initial_world = Val (Failure no_filter_error None None) initial_world.
Proof.
  apply (get_ticket_stats_validation failing_server example_clock Iso.isoformat 5
           None None None (Some 2) initial_world).
  by repeat split.
Defined.

(** ** Where [get_agent_workload] can raise *)

Section WorkloadRaises.

Context (server : request → response) (clock : nat → Z) (isoformat : Z → string)
        (fromisoformat : string → option parsed_datetime).

Lemma workload_collect_no_raise fuel agent_id group_id created_after created_before w :
  ¬ raises (workload_collect server clock isoformat fromisoformat fuel agent_id group_id
              created_after created_before w).
Proof.
  unfold workload_collect, bind.
  pose proof (get_agent_lookup_no_raise server clock isoformat fuel w) as Hl.
  destruct (get_agent_lookup _ _ _ _ _) as [[lk|? ? ?] w0|? ?|]; [|cbn; tauto..].
  apply try_fetch_no_raise. intros a w1. cbn. tauto.
Qed.

Lemma workload_from_no_raise fuel agent_id group_id created_after created_before w :
  ¬ raises (workload_from server clock isoformat fromisoformat fuel agent_id group_id
              created_after created_before w).
Proof.
  unfold workload_from. destruct created_before; [apply workload_collect_no_raise|].
  unfold bind, datetime_now. apply workload_collect_no_raise.
Qed.

Lemma _parse_period_raises period w e w' :
  _parse_period clock period w = Exc e w' →
  (period = None ∧ ∃ msg, e = AttributeError msg)
  ∨ (∃ p msg, period = Some p ∧ e = ValueError msg)
  ∨ (∃ p prefix days msg,
       period = Some p
       ∧ PyStr.chop_suffix_char (ascii_of_nat 100) p = Some prefix
       ∧ py_int prefix = Some days
       ∧ e = OverflowError msg
       ∧ (timedelta_max_days < Z.abs days
          ∨ clock (w_ticks w) - days * usec_per_day < 0
          ∨ datetime_max < clock (w_ticks w) - days * usec_per_day)).
Proof.
  unfold _parse_period. destruct period as [p|]; [|intros [= <- _]; left; eauto].
  destruct (PyStr.chop_suffix_char _ p) as [prefix|] eqn:Hchop;
    [|intros [= <- _]; right; left; eauto].
  unfold try_except_ValueError.
  destruct (py_int prefix) as [days|] eqn:Hint;
    [|cbn; intros [= <- _]; right; left; eauto].
  unfold bind, datetime_now, timedelta_days.
  destruct (timedelta_max_days <? Z.abs days) eqn:Hmax.
  - apply Z.ltb_lt in Hmax. cbn. intros [= <- _]. right; right.
    eexists _, _, _, _. repeat split; eauto.
  - unfold ret, datetime_sub. cbn [w_ticks].
    destruct (_ || _) eqn:Hrange; [|discriminate].
    cbn. intros [= <- _]. right; right.
    eexists _, _, _, _. repeat split; eauto.
    apply orb_true_iff in Hrange as [H|H]; apply Z.ltb_lt in H; eauto.
Qed.

(** X9: [get_agent_workload] raises only out of the parsing of the period.
    When it raises, [created_after] was absent and an id was given, and
    either the period is [None] (AttributeError) or it is a number of days
    followed by [d] whose magnitude is above 999999999 or which leads out of
    the years 1 to 9999 (OverflowError).  So a call that supplies
    [created_after] never raises. *)
Theorem get_agent_workload_raises_only_from_period fuel agent_id group_id period
    created_after created_before w e w' :
  get_agent_workload server clock isoformat fromisoformat fuel agent_id group_id period
    created_after created_before w = Exc e w' →
  created_after = None
  ∧ (is_Some agent_id ∨ is_Some group_id)
  ∧ ((period = None ∧ ∃ msg, e = AttributeError msg)
     ∨ ∃ p prefix days msg,
         period = Some p
         ∧ PyStr.chop_suffix_char (ascii_of_nat 100) p = Some prefix
         ∧ py_int prefix = Some days
         ∧ e = OverflowError msg
         ∧ (timedelta_max_days < Z.abs days
            ∨ clock (w_ticks w) - days * usec_per_day < 0
            ∨ datetime_max < clock (w_ticks w) - days * usec_per_day)).
Proof.
  unfold get_agent_workload.
  assert (Hfrom : ∀ ca w0,
             workload_from server clock isoformat fromisoformat fuel agent_id group_id
               ca created_before w0 ≠ Exc e w').
  { intros ca w0 H.
    pose proof (workload_from_no_raise fuel agent_id group_id ca created_before w0) as Hn.
    rewrite H in Hn. by apply Hn. }
  assert (Hperiod :
            try_period (_parse_period clock period)
              (λ start_date,
                 workload_from server clock isoformat fromisoformat fuel agent_id group_id
                   (isoformat start_date) created_before) w = Exc e w' →
            (period = None ∧ ∃ msg, e = AttributeError msg)
            ∨ ∃ p prefix days msg,
                period = Some p
                ∧ PyStr.chop_suffix_char (ascii_of_nat 100) p = Some prefix
                ∧ py_int prefix = Some days
                ∧ e = OverflowError msg
                ∧ (timedelta_max_days < Z.abs days
                   ∨ clock (w_ticks w) - days * usec_per_day < 0
                   ∨ datetime_max < clock (w_ticks w) - days * usec_per_day)).
  { unfold try_period.
    destruct (_parse_period clock period w) as [start w0|e0 w0|] eqn:Hp;
      [intros H; by apply Hfrom in H| |done].
    apply _parse_period_raises in Hp.
    destruct Hp as [(Hnone & msg' & ->)
                   |[(p & msg' & Hp' & ->)
                    |(p & prefix & days & msg' & H1 & H2 & H3 & -> & H5)]].
    - intros [= <- <-]. left. eauto.
    - discriminate.
    - intros [= <- <-]. right. eexists _, _, _, _. eauto. }
  destruct agent_id as [a|], group_id as [g|], created_after as [ca|];
    try discriminate;
    first [ intros H; by apply Hfrom in H
          | intros H; split; [done|]; split; [eauto|]; by apply Hperiod ].
Qed.

End WorkloadRaises.

Lemma get_agent_workload_raises_only_from_period_witness :
  get_agent_workload failing_server example_clock Iso.isoformat Iso.fromisoformat 3
    (Some 1) None (Some "1000000000d") None None initial_world
  = Exc (OverflowError "days=1000000000; must have magnitude <= 999999999")
        (tick initial_world)
  ∧ (is_Some (Some 1) ∨ is_Some (@None Z)).
Proof.
  assert (Hrun : get_agent_workload failing_server example_clock Iso.isoformat
                   Iso.fromisoformat 3 (Some 1) None (Some "1000000000d") None None
                   initial_world
                 = Exc (OverflowError "days=1000000000; must have magnitude <= 999999999")
                       (tick initial_world))
    by (vm_compute; reflexivity).
  split; [exact Hrun|].
  exact (proj1 (proj2 (get_agent_workload_raises_only_from_period _ _ _ _ _ _ _ _ _ _ _ _ _
                         Hrun))).
Defined.

(** ** The descending stable sort *)

Section Sorting.

Context {A : Type} (key : A → nat).

Lemma insert_desc_perm x (l : list A) : insert_desc key x l ≡ₚ x :: l.
Proof.
  induction l as [|y l IH]; cbn [insert_desc]; [done|].
  destruct (Nat.ltb (key x) (key y)); [|done].
  rewrite IH. apply Permutation_swap.
Qed.

Lemma sort_desc_perm (l : list A) : sort_desc key l ≡ₚ l.
Proof.
  unfold sort_desc. induction l as [|x l IH]; cbn [foldr]; [done|].
  by rewrite insert_desc_perm, IH.
Qed.

Lemma insert_desc_descending x (l : list A) :
  descending key l → descending key (insert_desc key x l).
Proof.
  induction l as [|y l IH]; cbn [insert_desc descending]; [by split|].
  intros [Hy Hl]. destruct (Nat.ltb (key x) (key y)) eqn:E.
  - apply Nat.ltb_lt in E. cbn [descending]. split; [|by apply IH].
    rewrite insert_desc_perm. constructor; [lia|done].
  - apply Nat.ltb_ge in E. cbn [descending]. split; [|by split].
    constructor; [done|]. eapply Forall_impl; [exact Hy|]. cbn. intros z Hz. lia.
Qed.

Lemma sort_desc_descending (l : list A) : descending key (sort_desc key l).
Proof.
  unfold sort_desc. induction l as [|x l IH]; cbn [foldr]; [done|].
  by apply insert_desc_descending.
Qed.

Lemma insert_desc_stable x (l : list A) k :
  filter (λ y, key y = k) (insert_desc key x l)
  = filter (λ y, key y = k) (x :: l).
Proof.
  induction l as [|y l IH]; cbn [insert_desc]; [done|].
  destruct (Nat.ltb (key x) (key y)) eqn:E; [|done].
  apply Nat.ltb_lt in E.
  rewrite (filter_cons _ y), IH, !(filter_cons _ x), (filter_cons _ y).
  destruct (decide (key x = k)), (decide (key y = k)); try done. lia.
Qed.

Lemma sort_desc_stable (l : list A) k :
  filter (λ y, key y = k) (sort_desc key l) = filter (λ y, key y = k) l.
Proof.
  unfold sort_desc. induction l as [|x l IH]; cbn [foldr]; [done|].
  rewrite insert_desc_stable, !(filter_cons _ x), IH. done.
Qed.

End Sorting.

Section WorkloadOrder.

Context (server : request → response) (clock : nat → Z) (isoformat : Z → string)
        (fromisoformat : string → option parsed_datetime).

(** X11: the order of the agents in a workload result.  Of a call that
    succeeds, take the directory that its lookup returned and the tickets
    that its walk fetched: the list holds exactly the per-agent entries made
    from them (a permutation of them), its [tickets_assigned] never
    increases from one entry to the next, and entries with the same
    [tickets_assigned] keep the order in which their agents first appear
    among the fetched tickets. *)
Theorem get_agent_workload_sorted fuel agent_id group_id period created_after
    created_before w r w' :
  get_agent_workload server clock isoformat fromisoformat fuel agent_id group_id period
    created_after created_before w = Val (Success r) w' →
  ∃ ca cb w0 lk w1 all_tickets,
    date_range clock isoformat period created_after created_before w = Val (ca, cb) w0
    ∧ get_agent_lookup server clock isoformat fuel w0 = Val (Success lk) w1
    ∧ tickets_loop server fuel (workload_query agent_id group_id ca cb) None [] 1 w1
      = Val all_tickets w'
    ∧ let entries := unsorted_metrics fromisoformat (lk_agents lk) all_tickets in
      wl_agents r ≡ₚ entries
      ∧ descending am_tickets_assigned (wl_agents r)
      ∧ ∀ n, filter (λ m, am_tickets_assigned m = n) (wl_agents r)
             = filter (λ m, am_tickets_assigned m = n) entries.
Proof.
  intros (ca & cb & w0 & lk & w1 & all_tickets & Hrange & Hlookup & Hloop & ->)
         %get_agent_workload_run.
  exists ca, cb, w0, lk, w1, all_tickets. do 3 (split; [assumption|]).
  cbv zeta. cbn [wl_agents]. split; [apply sort_desc_perm|].
  split; [apply sort_desc_descending|]. intros n. apply sort_desc_stable.
Qed.

End WorkloadOrder.

(** ** Grouping by responder *)

Local Open Scope list_scope.

Section Grouping.

Lemma assoc_group_append k t (g : list (py_value * list py_dict)) k' :
  assoc k' (group_append k t g)
  = if decide (k' = k) then Some (default [] (assoc k g) ++ [t]) else assoc k' g.
Proof.
  induction g as [|[k0 ts] g IH]; cbn [group_append assoc].
  - destruct (decide (k = k')), (decide (k' = k)); try done; congruence.
  - destruct (decide (k0 = k)) as [->|Hne]; cbn [assoc].
    + destruct (decide (k = k')) as [<-|Hne'].
      * by rewrite decide_True.
      * by rewrite decide_False by congruence.
    + rewrite IH. destruct (decide (k0 = k')) as [<-|Hne'].
      * by rewrite decide_False.
      * done.
Qed.

Lemma keys_group_append k t (g : list (py_value * list py_dict)) :
  (group_append k t g).*1 = if decide (k ∈ g.*1) then g.*1 else g.*1 ++ [k].
Proof.
  induction g as [|[k0 ts] g IH]; cbn [group_append fmap list_fmap fst].
  - rewrite decide_False; [done|]. apply not_elem_of_nil.
  - destruct (decide (k0 = k)) as [->|Hne]; cbn [fmap list_fmap fst].
    + rewrite decide_True; [done|]. apply elem_of_cons. by left.
    + rewrite IH. destruct (decide (k ∈ g.*1)) as [Hin|Hnin].
      * rewrite decide_True; [done|]. apply elem_of_cons. by right.
      * rewrite decide_False; [done|]. rewrite elem_of_cons. intros [->|?]; done.
Qed.

Lemma assoc_None {V} k (g : list (py_value * V)) : assoc k g = None ↔ k ∉ g.*1.
Proof.
  induction g as [|[k0 v] g IH]; cbn [assoc fmap list_fmap fst].
  - split; [intros _; apply not_elem_of_nil|done].
  - rewrite elem_of_cons. destruct (decide (k0 = k)) as [->|Hne].
    + split; [done|]. intros H. exfalso. apply H. by left.
    + rewrite IH. split; [intros H [->|?]; done|]. intros H Hin. apply H. by right.
Qed.

Lemma assoc_elem_of {V} k (v : V) (g : list (py_value * V)) :
  NoDup g.*1 → ((k, v) ∈ g ↔ assoc k g = Some v).
Proof.
  induction g as [|[k0 v0] g IH]; cbn [assoc fmap list_fmap fst].
  - intros _. split; [by intros ?%elem_of_nil|done].
  - intros [Hk0 Hnd]%NoDup_cons. rewrite elem_of_cons.
    destruct (decide (k0 = k)) as [->|Hne].
    + split.
      * intros [[= ->]|Hin]; [done|]. exfalso. apply Hk0.
        apply list_elem_of_fmap. by exists (k, v).
      * intros [= ->]. by left.
    + rewrite <- (IH Hnd). split; [intros [[= -> ->]|?]; done|]. by right.
Qed.

Lemma group_by_responder_snoc l t :
  group_by_responder (l ++ [t])
  = if truthy (responder_of t)
    then group_append (responder_of t) t (group_by_responder l)
    else group_by_responder l.
Proof. unfold group_by_responder. by rewrite foldl_app. Qed.

Lemma group_by_responder_assoc l :
  NoDup (group_by_responder l).*1
  ∧ ∀ k, assoc k (group_by_responder l)
         = if truthy k && bool_decide (tickets_of k l ≠ [])
           then Some (tickets_of k l) else None.
Proof.
  induction l as [|t l [IHnd IH]] using rev_ind.
  - split; [constructor|]. intros k. cbn. by rewrite andb_false_r.
  - rewrite group_by_responder_snoc. unfold tickets_of in *.
    destruct (truthy (responder_of t)) eqn:Ht.
    + split.
      * rewrite keys_group_append. destruct (decide _) as [Hin|Hnin]; [done|].
        apply NoDup_app. split; [done|]. split; [|apply NoDup_singleton].
        intros x Hx ->%list_elem_of_singleton. done.
      * intros k. rewrite assoc_group_append, filter_app, filter_cons, filter_nil.
        destruct (decide (k = responder_of t)) as [->|Hne].
        -- rewrite decide_True by done. rewrite Ht, IH, Ht. cbn [andb].
           rewrite (bool_decide_eq_true_2 (_ ++ [t] ≠ [])) by (by intros [? ?]%app_eq_nil).
           case_bool_decide as Hne; cbn [default from_option id]; [done|].
           destruct (filter _ l); [done|]. discriminate Hne.
        -- rewrite decide_False by congruence. by rewrite IH, app_nil_r.
    + split; [done|]. intros k. rewrite IH, filter_app, filter_cons, filter_nil.
      destruct (decide (responder_of t = k)) as [<-|Hne].
      * by rewrite Ht.
      * by rewrite app_nil_r.
Qed.

Lemma group_by_responder_elem_of (all_tickets : list py_dict) k ts :
  (k, ts) ∈ group_by_responder all_tickets
  ↔ truthy k = true ∧ ts ≠ [] ∧ ts = tickets_of k all_tickets.
Proof.
  destruct (group_by_responder_assoc all_tickets) as [Hnd Hassoc].
  rewrite (assoc_elem_of _ _ _ Hnd), Hassoc.
  destruct (truthy k); cbn [andb]; [|split; [done|by intros [? _]]].
  case_bool_decide as Hne; split.
  - intros [= <-]. done.
  - intros (_ & _ & ->). done.
  - done.
  - intros (_ & Hts & ->). done.
Qed.

Lemma group_by_responder_sizes (all_tickets : list py_dict) :
  sum_list (length <$> (group_by_responder all_tickets).*2)
  = length (assigned_tickets all_tickets).
Proof.
  unfold assigned_tickets.
  induction all_tickets as [|t l IH] using rev_ind; [done|].
  rewrite group_by_responder_snoc, filter_app, filter_cons, filter_nil, length_app.
  destruct (truthy (responder_of t)) eqn:Ht.
  - rewrite decide_True by (cbn; congruence). cbn [length]. rewrite <- IH.
    generalize (group_by_responder l). intros g. clear IH.
    induction g as [|[k0 ts] g IHg]; cbn [group_append]; [done|].
    destruct (decide (k0 = responder_of t)); cbn [fmap list_fmap snd sum_list_with].
    + rewrite length_app. cbn [length id]. unfold id. lia.
    + cbn [fmap list_fmap snd sum_list_with] in IHg. unfold id in *. lia.
  - rewrite decide_False by (cbn; congruence). cbn [length]. lia.
Qed.

(** X12: how the tickets are grouped by responder.  No responder has two
    groups; a pair (responder, tickets) is a group exactly when the responder
    is set (neither [None] nor 0 nor empty), has at least one ticket, and the
    tickets are all tickets of that responder in their original order; a new
    responder's group goes to the end; and the groups together hold every
    ticket that has a responder exactly once. *)
Theorem group_by_responder_partition (all_tickets : list py_dict) :
  let groups := group_by_responder all_tickets in
  NoDup groups.*1
  ∧ (∀ k ts, (k, ts) ∈ groups
             ↔ truthy k = true ∧ ts ≠ [] ∧ ts = tickets_of k all_tickets)
  ∧ (∀ t, (group_by_responder (all_tickets ++ [t])).*1
          = if truthy (responder_of t) && bool_decide (responder_of t ∉ groups.*1)
            then groups.*1 ++ [responder_of t] else groups.*1)
  ∧ sum_list (length <$> groups.*2) = length (assigned_tickets all_tickets).
Proof.
  cbv zeta. split; [apply group_by_responder_assoc|]. split; [|split].
  - apply group_by_responder_elem_of.
  - intros t. rewrite group_by_responder_snoc.
    destruct (truthy (responder_of t)); cbn [andb]; [|done].
    rewrite keys_group_append.
    destruct (decide _) as [Hin|Hnin].
    + by rewrite bool_decide_eq_false_2 by (intros H; by apply H).
    + by rewrite bool_decide_eq_true_2.
  - apply group_by_responder_sizes.
Qed.

End Grouping.

(** ** Counts of one agent *)

Section Counts.

Context (server : request → response) (clock : nat → Z) (isoformat : Z → string)
        (fromisoformat : string → option parsed_datetime).

Lemma count_status_disjoint (tickets : list py_dict) :
  (count_status 2 tickets + count_status 4 tickets + count_status 5 tickets
   ≤ length tickets)%nat.
Proof.
  unfold count_status. induction tickets as [|t l IH]; [done|].
  rewrite !filter_cons. cbn [length].
  destruct (decide (dict_get t "status" = PInt 2)) as [E2|],
           (decide (dict_get t "status" = PInt 4)) as [E4|],
           (decide (dict_get t "status" = PInt 5)) as [E5|];
    cbn [length]; try lia; congruence.
Qed.

Lemma resolution_times_of_length (tickets : list py_dict) :
  (length (resolution_times_of fromisoformat tickets)
   ≤ count_status 4 tickets + count_status 5 tickets)%nat.
Proof.
  unfold resolution_times_of.
  assert (H : ∀ acc,
            (length (foldl (λ acc ticket,
                        let status := dict_get ticket "status" in
                        if bool_decide (status = PInt 4 ∨ status = PInt 5) then
                          let created_at := dict_get ticket "created_at" in
                          let resolved_at :=
                            py_or (dict_get ticket "resolved_at")
                                  (dict_get ticket "updated_at") in
                          if truthy created_at && truthy resolved_at then
                            match _calculate_resolution_time fromisoformat created_at
                                    resolved_at with
                            | Some res_time => acc ++ [res_time]
                            | None => acc
                            end
                          else acc
                        else acc) acc tickets)
             ≤ length acc + (count_status 4 tickets + count_status 5 tickets))%nat).
  { unfold count_status. induction tickets as [|t l IH]; intros acc; [cbn; lia|].
    cbn [foldl]. etrans; [apply IH|]. rewrite !filter_cons. cbv zeta.
    destruct (decide (dict_get t "status" = PInt 4)) as [E4|N4],
             (decide (dict_get t "status" = PInt 5)) as [E5|N5];
      try congruence.
    - rewrite bool_decide_eq_true_2 by eauto.
      destruct (_ && _); [|cbn [length]; lia].
      destruct (_calculate_resolution_time _ _ _); rewrite ?length_app; cbn [length]; lia.
    - rewrite bool_decide_eq_true_2 by eauto.
      destruct (_ && _); [|cbn [length]; lia].
      destruct (_calculate_resolution_time _ _ _); rewrite ?length_app; cbn [length]; lia.
    - rewrite bool_decide_eq_false_2 by tauto. lia. }
  specialize (H []). cbn [length] in H. lia.
Qed.

(** X13: the counts of one agent in a workload result.  Every entry
    belongs to a responder that is set and has at least one ticket assigned;
    open, resolved and closed tickets together are at most the assigned ones;
    and there are at most as many resolution times as resolved and closed
    tickets. *)
Theorem get_agent_workload_counts fuel agent_id group_id period created_after
    created_before w r w' :
  get_agent_workload server clock isoformat fromisoformat fuel agent_id group_id period
    created_after created_before w = Val (Success r) w' →
  ∀ m, m ∈ wl_agents r →
    truthy (am_agent_id m) = true
    ∧ (1 ≤ am_tickets_assigned m)%nat
    ∧ (am_tickets_open m + am_tickets_resolved m + am_tickets_closed m
       ≤ am_tickets_assigned m)%nat
    ∧ (length (am_resolution_times m)
       ≤ am_tickets_resolved m + am_tickets_closed m)%nat.
Proof.
  intros (ca & cb & w0 & Hrun)%get_agent_workload_success.
  apply workload_collect_success in Hrun as (lk & all_tickets & Hagents).
  intros m Hm.
  rewrite Hagents, (sort_desc_perm am_tickets_assigned), list_elem_of_fmap in Hm.
  destruct Hm as ([k ts] & -> & Hin).
  apply group_by_responder_elem_of in Hin as (Hk & Hne & _).
  unfold agent_entry.
  destruct (match lk_agents lk !! k with
            | Some info => (ai_name info, ai_email info)
            | None => (PStr ("Agent-" +:+ py_str k), PStr "unknown")
            end) as [agent_name agent_email].
  cbn [am_agent_id am_tickets_assigned am_tickets_open am_tickets_resolved
       am_tickets_closed am_resolution_times].
  split; [done|]. split; [destruct ts; [done|cbn; lia]|].
  split; [apply count_status_disjoint|].
  rewrite length_fmap. apply resolution_times_of_length.
Qed.

Lemma unsorted_metrics_assigned agents_lookup (all_tickets : list py_dict) :
  sum_list (am_tickets_assigned <$> unsorted_metrics fromisoformat agents_lookup all_tickets)
  = length (assigned_tickets all_tickets).
Proof.
  rewrite <- group_by_responder_sizes. unfold unsorted_metrics.
  generalize (group_by_responder all_tickets). intros g.
  induction g as [|[k ts] g IH]; [done|].
  cbn [fmap list_fmap snd sum_list_with] in *. rewrite IH.
  unfold agent_entry.
  by destruct (match agents_lookup !! k with
               | Some info => (ai_name info, ai_email info)
               | None => (PStr ("Agent-" +:+ py_str k), PStr "unknown")
               end).
Qed.

Lemma group_by_responder_keys (all_tickets : list py_dict) :
  (group_by_responder all_tickets).*1
  ≡ₚ remove_dups (responder_of <$> assigned_tickets all_tickets).
Proof.
  apply NoDup_Permutation; [apply group_by_responder_assoc|apply NoDup_remove_dups|].
  intros k. rewrite elem_of_remove_dups, !list_elem_of_fmap. split.
  - intros ([k' ts] & -> & (Hk & Hne & Hts)%group_by_responder_elem_of). cbn [fst].
    destruct ts as [|t ts]; [done|].
    assert (Ht : t ∈ tickets_of k' all_tickets) by (rewrite <- Hts; left).
    unfold tickets_of in Ht. apply list_elem_of_filter in Ht as [Hr Ht].
    exists t. split; [done|]. unfold assigned_tickets. apply list_elem_of_filter.
    split; [|done]. cbn. by rewrite Hr.
  - intros (t & -> & Ht). unfold assigned_tickets in Ht.
    apply list_elem_of_filter in Ht as [Hk Ht].
    exists (responder_of t, tickets_of (responder_of t) all_tickets). split; [done|].
    apply group_by_responder_elem_of. split; [done|]. split; [|done].
    intros Hnil.
    assert (Hin : t ∈ tickets_of (responder_of t) all_tickets)
      by (unfold tickets_of; apply list_elem_of_filter; done).
    rewrite Hnil in Hin. by apply elem_of_nil in Hin.
Qed.

(** X10: the workload covers the whole population.  With an agent or a
    group and both dates given, a lookup that succeeds and a collaborator that
    serves the matching tickets in pages of a fixed size of at least 30, the
    call returns, with enough fuel and whatever the period argument, the
    sorted per-agent entries of all matching tickets: there is one entry for
    each distinct responder, and their [tickets_assigned] add up to the
    number of tickets that have a responder. *)
Theorem get_agent_workload_population fuel agent_id group_id period created_after
    created_before per_page xs w lk w0 :
  is_Some agent_id ∨ is_Some group_id →
  get_agent_lookup server clock isoformat fuel w = Val (Success lk) w0 →
  (30 ≤ per_page)%nat →
  serves_tickets server (workload_query agent_id group_id created_after created_before)
    None per_page xs →
  (length xs < fuel)%nat →
  ∃ r w',
    get_agent_workload server clock isoformat fromisoformat fuel agent_id group_id period
      (Some created_after) (Some created_before) w = Val (Success r) w'
    ∧ wl_agents r
      = sort_desc am_tickets_assigned (unsorted_metrics fromisoformat (lk_agents lk) xs)
    ∧ length (wl_agents r) = length (remove_dups (responder_of <$> assigned_tickets xs))
    ∧ sum_list (am_tickets_assigned <$> wl_agents r) = length (assigned_tickets xs).
Proof.
  intros Hsel Hlookup Hpp Hserve Hfuel.
  assert (Hrun : ∃ w',
             get_agent_workload server clock isoformat fromisoformat fuel agent_id
               group_id period (Some created_after) (Some created_before) w
             = Val (Success (mk_workload_result
                               (sort_desc am_tickets_assigned
                                  (unsorted_metrics fromisoformat (lk_agents lk) xs))
                               created_after created_before
                               (group_name_of (lk_groups lk) group_id))) w').
  { destruct (tickets_loop_paged server _ None per_page xs Hpp Hserve fuel 1 w0)
      as [w' Hloop]; [lia|simpl; lia|].
    change (Z.to_nat (1 - 1) * per_page)%nat with 0%nat in Hloop. rewrite take_0 in Hloop.
    exists w'.
    assert (Hcollect : workload_collect server clock isoformat fromisoformat fuel agent_id
                         group_id created_after created_before w
                       = Val (Success (mk_workload_result
                               (sort_desc am_tickets_assigned
                                  (unsorted_metrics fromisoformat (lk_agents lk) xs))
                               created_after created_before
                               (group_name_of (lk_groups lk) group_id))) w').
    { unfold workload_collect, bind. rewrite Hlookup. unfold try_fetch.
      by rewrite Hloop. }
    unfold get_agent_workload, workload_from.
    destruct Hsel as [[a ->]|[g ->]]; [done|]. by destruct agent_id. }
  destruct Hrun as [w' Hrun]. eexists _, w'. split; [exact Hrun|].
  cbn [wl_agents]. split; [done|].
  rewrite !(sort_desc_perm am_tickets_assigned). split.
  - unfold unsorted_metrics.
    by rewrite length_fmap, <- group_by_responder_keys, length_fmap.
  - apply unsorted_metrics_assigned.
Qed.

(** C3, as the code has it.  Of a call that succeeds, take the tickets
    that its walk fetched: every per-agent entry is made from the tickets of
    that agent among them; its [avg_resolution_hours] is [None] when the
    agent's resolution-time list is empty, and when the list is not empty
    and its mean is not zero it is the arithmetic mean of the list rounded
    to two decimals. *)
Theorem get_agent_workload_average fuel agent_id group_id period created_after
    created_before w r w' :
  get_agent_workload server clock isoformat fromisoformat fuel agent_id group_id
    period created_after created_before w = Val (Success r) w' →
  ∃ ca cb w0 lk w1 all_tickets,
    date_range clock isoformat period created_after created_before w = Val (ca, cb) w0
    ∧ get_agent_lookup server clock isoformat fuel w0 = Val (Success lk) w1
    ∧ tickets_loop server fuel (workload_query agent_id group_id ca cb) None [] 1 w1
      = Val all_tickets w'
    ∧ ∀ m, m ∈ wl_agents r →
        ∃ tickets,
          tickets = filter (λ t, dict_get t "responder_id" = am_agent_id m) all_tickets
          ∧ Forall (λ t, dict_get t "responder_id" = am_agent_id m) tickets
          ∧ am_tickets_assigned m = length tickets
          ∧ let resolution_times := resolution_times_of fromisoformat tickets in
            am_resolution_times m = (λ t, py_round t 2) <$> resolution_times
            ∧ (resolution_times = [] → am_avg_resolution_hours m = None)
            ∧ (resolution_times ≠ [] → ¬ (py_mean resolution_times == 0)%Q →
               am_avg_resolution_hours m = Some (py_round (py_mean resolution_times) 2)).
Proof.
  intros (ca & cb & w0 & lk & w1 & all_tickets & Hrange & Hlookup & Hloop & ->)
         %get_agent_workload_run.
  exists ca, cb, w0, lk, w1, all_tickets. do 3 (split; [assumption|]).
  intros m Hm. cbn [wl_agents] in Hm.
  rewrite (sort_desc_perm am_tickets_assigned) in Hm.
  unfold unsorted_metrics in Hm. rewrite list_elem_of_fmap in Hm.
  destruct Hm as ([responder_id tickets] & -> & Hin).
  apply group_by_responder_elem_of in Hin as (_ & _ & Htickets).
  exists tickets. unfold agent_entry.
  destruct (match lk_agents lk !! responder_id with
            | Some info => (ai_name info, ai_email info)
            | None => (PStr ("Agent-" +:+ py_str responder_id), PStr "unknown")
            end) as [agent_name agent_email].
  cbn [am_agent_id am_tickets_assigned am_resolution_times am_avg_resolution_hours].
  split; [exact Htickets|]. split.
  { rewrite Htickets. unfold tickets_of. apply Forall_forall.
    intros x Hx. by apply list_elem_of_filter in Hx as [Hx _]. }
  split; [done|]. split; [done|].
  apply report_average_law.
Qed.

End Counts.

Lemma get_agent_workload_average_witness :
  ∃ r w',
    get_agent_workload (helpdesk_server [] [] quick_ticket) example_clock
      Iso.isoformat Iso.fromisoformat 3 (Some 5) None (Some "30d") None None initial_world
    = Val (Success r) w'
    ∧ ∃ ca cb w0 lk w1 all_tickets,
        date_range example_clock Iso.isoformat (Some "30d") None None initial_world
        = Val (ca, cb) w0
        ∧ get_agent_lookup (helpdesk_server [] [] quick_ticket) example_clock
            Iso.isoformat 3 w0 = Val (Success lk) w1
        ∧ tickets_loop (helpdesk_server [] [] quick_ticket) 3
            (workload_query (Some 5) None ca cb) None [] 1 w1
          = Val all_tickets w'
        ∧ ∀ m, m ∈ wl_agents r →
            ∃ tickets,
              tickets = filter (λ t, dict_get t "responder_id" = am_agent_id m) all_tickets
              ∧ Forall (λ t, dict_get t "responder_id" = am_agent_id m) tickets
              ∧ am_tickets_assigned m = length tickets
              ∧ let resolution_times := resolution_times_of Iso.fromisoformat tickets in
                am_resolution_times m = (λ t, py_round t 2) <$> resolution_times
                ∧ (resolution_times = [] → am_avg_resolution_hours m = None)
                ∧ (resolution_times ≠ [] → ¬ (py_mean resolution_times == 0)%Q →
                   am_avg_resolution_hours m
                   = Some (py_round (py_mean resolution_times) 2)).
Proof.
  assert (Hs : succeeded (get_agent_workload (helpdesk_server [] [] quick_ticket)
                            example_clock Iso.isoformat Iso.fromisoformat 3 (Some 5) None
                            (Some "30d") None None initial_world) = true)
    by (vm_compute; reflexivity).
  destruct (get_agent_workload _ _ _ _ _ _ _ _ _ _ _) as [[r|? ? ?] w'|? ?|] eqn:Hrun;
    try discriminate Hs.
  exists r, w'. split; [reflexivity|].
  exact (get_agent_workload_average _ _ _ _ _ _ _ _ _ _ _ _ _ Hrun).
Defined.


Lemma get_agent_workload_sorted_witness :
  ∃ r w',
    get_agent_workload (helpdesk_server [] [] mixed_tickets) example_clock
      Iso.isoformat Iso.fromisoformat 3 (Some 1) None (Some "30d") None None initial_world
    = Val (Success r) w'
    ∧ ∃ ca cb w0 lk w1 all_tickets,
        date_range example_clock Iso.isoformat (Some "30d") None None initial_world
        = Val (ca, cb) w0
        ∧ get_agent_lookup (helpdesk_server [] [] mixed_tickets) example_clock
            Iso.isoformat 3 w0 = Val (Success lk) w1
        ∧ tickets_loop (helpdesk_server [] [] mixed_tickets) 3
            (workload_query (Some 1) None ca cb) None [] 1 w1
          = Val all_tickets w'
        ∧ let entries := unsorted_metrics Iso.fromisoformat (lk_agents lk) all_tickets in
          wl_agents r ≡ₚ entries
          ∧ descending am_tickets_assigned (wl_agents r)
          ∧ ∀ n, filter (λ m, am_tickets_assigned m = n) (wl_agents r)
                 = filter (λ m, am_tickets_assigned m = n) entries.
Proof.
  assert (Hs : succeeded (get_agent_workload (helpdesk_server [] [] mixed_tickets)
                            example_clock Iso.isoformat Iso.fromisoformat 3 (Some 1) None
                            (Some "30d") None None initial_world) = true)
    by (vm_compute; reflexivity).
  destruct (get_agent_workload _ _ _ _ _ _ _ _ _ _ _) as [[r|? ? ?] w'|? ?|] eqn:Hrun;
    try discriminate Hs.
  exists r, w'. split; [reflexivity|].
  exact (get_agent_workload_sorted _ _ _ _ _ _ _ _ _ _ _ _ _ Hrun).
Defined.

Lemma get_agent_workload_counts_witness :
  ∃ r w',
    get_agent_workload (helpdesk_server [] [] mixed_tickets) example_clock
      Iso.isoformat Iso.fromisoformat 3 None (Some 1) (Some "30d") None None initial_world
    = Val (Success r) w'
    ∧ ∀ m, m ∈ wl_agents r →
        truthy (am_agent_id m) = true
        ∧ (1 ≤ am_tickets_assigned m)%nat
        ∧ (am_tickets_open m + am_tickets_resolved m + am_tickets_closed m
           ≤ am_tickets_assigned m)%nat
        ∧ (length (am_resolution_times m)
           ≤ am_tickets_resolved m + am_tickets_closed m)%nat.
Proof.
  assert (Hs : succeeded (get_agent_workload (helpdesk_server [] [] mixed_tickets)
                            example_clock Iso.isoformat Iso.fromisoformat 3 None (Some 1)
                            (Some "30d") None None initial_world) = true)
    by (vm_compute; reflexivity).
  destruct (get_agent_workload _ _ _ _ _ _ _ _ _ _ _) as [[r|? ? ?] w'|? ?|] eqn:Hrun;
    try discriminate Hs.
  exists r, w'. split; [reflexivity|].
  exact (get_agent_workload_counts _ _ _ _ _ _ _ _ _ _ _ _ _ Hrun).
Defined.

Lemma get_agent_workload_population_witness :
  ∃ r w',
    get_agent_workload (helpdesk_server [] [] mixed_tickets) example_clock Iso.isoformat
      Iso.fromisoformat 5 None (Some 1) (Some "bogus") (Some "2024-01-01") (Some "2024-02-01")
      initial_world = Val (Success r) w'
    ∧ length (wl_agents r) = 2%nat
    ∧ sum_list (am_tickets_assigned <$> wl_agents r) = 3%nat.
Proof.
  assert (Hs : succeeded (get_agent_lookup (helpdesk_server [] [] mixed_tickets)
                            example_clock Iso.isoformat 5 initial_world) = true)
    by (vm_compute; reflexivity).
  destruct (get_agent_lookup _ _ _ _ _) as [[lk|? ? ?] w0|? ?|] eqn:Hlookup;
    try discriminate Hs.
  destruct (get_agent_workload_population (helpdesk_server [] [] mixed_tickets)
              example_clock Iso.isoformat Iso.fromisoformat 5 None (Some 1) (Some "bogus")
              "2024-01-01" "2024-02-01" 30 mixed_tickets initial_world lk w0)
    as (r & w' & Hrun & _ & Hlen & Hsum).
  - right. by eexists.
  - exact Hlookup.
  - lia.
  - apply serves_helpdesk_server.
  - vm_compute. lia.
  - exists r, w'. split; [exact Hrun|]. split; [exact Hlen|exact Hsum].
Defined.

(** ** The top agents of a group *)

Section TopAgents.

Lemma descending_app {A} (key : A → nat) (l1 l2 : list A) :
  descending key (l1 ++ l2)
  ↔ descending key l1 ∧ descending key l2
    ∧ Forall (λ p, Forall (λ q, (key q ≤ key p)%nat) l2) l1.
Proof.
  induction l1 as [|x l1 IH]; cbn [app descending].
  - split; [intros H; by repeat split|tauto].
  - rewrite IH, Forall_app, Forall_cons. tauto.
Qed.

Lemma count_append_sizes k t (g : list (py_value * list py_dict)) :
  count_append k (sizes g) = sizes (group_append k t g).
Proof.
  unfold sizes. induction g as [|[k0 ts] g IH]; cbn [fmap list_fmap count_append group_append];
    [done|].
  destruct (decide (k0 = k)); cbn [fmap list_fmap].
  - rewrite length_app. cbn [length]. by rewrite Nat.add_1_r.
  - by rewrite IH.
Qed.

Lemma agent_ticket_counts_sizes (all_tickets : list py_dict) :
  agent_ticket_counts all_tickets = sizes (group_by_responder all_tickets).
Proof.
  induction all_tickets as [|t l IH] using rev_ind; [done|].
  rewrite group_by_responder_snoc. unfold agent_ticket_counts in *.
  rewrite foldl_app. cbn [foldl]. cbv zeta. rewrite IH. fold (responder_of t).
  destruct (truthy (responder_of t)); [|done]. apply count_append_sizes.
Qed.

Lemma agent_ticket_counts_elem_of (all_tickets : list py_dict) k n :
  (k, n) ∈ agent_ticket_counts all_tickets
  ↔ truthy k = true ∧ n = length (tickets_of k all_tickets) ∧ (1 ≤ n)%nat.
Proof.
  rewrite agent_ticket_counts_sizes. unfold sizes. rewrite list_elem_of_fmap. split.
  - intros ([k' ts] & [= -> ->] & (Hk & Hne & Hts)%group_by_responder_elem_of).
    split; [done|]. split; [by rewrite <- Hts|]. destruct ts; [done|cbn; lia].
  - intros (Hk & -> & Hn). exists (k, tickets_of k all_tickets). split; [done|].
    apply group_by_responder_elem_of. split; [done|]. split; [|done].
    intros Hnil. rewrite Hnil in Hn. cbn in Hn. lia.
Qed.

Lemma agent_ticket_counts_keys (all_tickets : list py_dict) :
  (agent_ticket_counts all_tickets).*1 = (group_by_responder all_tickets).*1.
Proof.
  rewrite agent_ticket_counts_sizes. unfold sizes.
  rewrite <- list_fmap_compose. apply list_fmap_ext. by intros _ [k ts] _.
Qed.

(** X15: the top agents of a group.  The counts hold one entry for each
    responder that is set, with the number of that responder's tickets; the
    reported list names the first five (all, when there are fewer) of the
    counts in descending order, so no count that is left out exceeds one that
    is reported. *)
Theorem top_agents_of_law (agents_lookup : agents_map) (all_tickets : list py_dict) :
  let counts := agent_ticket_counts all_tickets in
  NoDup counts.*1
  ∧ (∀ k n, (k, n) ∈ counts
            ↔ truthy k = true ∧ n = length (tickets_of k all_tickets) ∧ (1 ≤ n)%nat)
  ∧ ∃ chosen rest,
      chosen ++ rest ≡ₚ counts
      ∧ top_agents_of agents_lookup all_tickets
        = (λ '(k, n), (agent_name_of agents_lookup k, n)) <$> chosen
      ∧ length chosen = (5 `min` length counts)%nat
      ∧ descending snd chosen
      ∧ Forall (λ p, Forall (λ q, (q.2 ≤ p.2)%nat) rest) chosen.
Proof.
  cbv zeta. split; [|split].
  - rewrite agent_ticket_counts_keys. apply group_by_responder_assoc.
  - apply agent_ticket_counts_elem_of.
  - exists (take 5 (sort_desc snd (agent_ticket_counts all_tickets))),
           (drop 5 (sort_desc snd (agent_ticket_counts all_tickets))).
    pose proof (sort_desc_descending snd (agent_ticket_counts all_tickets)) as Hd.
    rewrite <- (take_drop 5 (sort_desc snd _)) in Hd.
    apply descending_app in Hd as (Hd1 & _ & Hd2).
    split; [by rewrite take_drop, sort_desc_perm|]. split; [reflexivity|].
    split; [|done].
    by rewrite length_take, (sort_desc_perm snd).
Qed.

End TopAgents.

(** ** Rates between 0 and 1 *)

Section Rates.

Lemma unit_interval_binary64 (x : Q) : unit_interval x → unit_interval (binary64 x).
Proof.
  intros [H0 H1]. split; [by apply binary64_nonneg|].
  pose proof (binary64_mono x 1 H1) as Hm.
  assert (Hone : (binary64 1 == 1)%Q) by (vm_compute; reflexivity).
  lra.
Qed.

Lemma py_round_unit (x : Q) (n : nat) : unit_interval x → unit_interval (py_round x n).
Proof.
  intros [H0 H1]. unfold py_round, int_truediv. apply unit_interval_binary64.
  assert (Hp : 0 < 10 ^ Z.of_nat n) by (apply Z.pow_pos_nonneg; lia).
  set (p := 10 ^ Z.of_nat n) in *.
  assert (Hp' : (0 < inject_Z p)%Q) by (unfold Qlt; cbn; lia).
  destruct (round_half_even_bounds (x * inject_Z p) 0 p) as [Hlo Hhi].
  - change (inject_Z 0) with 0%Q. nra.
  - nra.
  - rewrite Zle_Qle in Hlo, Hhi. change (inject_Z 0) with 0%Q in Hlo. split.
    + apply Qle_shift_div_l; [done|]. lra.
    + apply Qle_shift_div_r; [done|]. lra.
Qed.

Lemma py_sum_bounds (l : list Q) :
  Forall unit_interval l →
  Z.of_nat (length l) < 2 ^ 53 →
  (0 <= py_sum l)%Q ∧ (py_sum l <= inject_Z (Z.of_nat (length l)))%Q.
Proof.
  intros Hl Hlen. unfold py_sum.
  assert (H : ∀ (a : Q) (j : Z),
            0 ≤ j → j + Z.of_nat (length l) < 2 ^ 53 →
            (0 <= a)%Q → (a <= inject_Z j)%Q →
            (0 <= foldl float_add a l)%Q
            ∧ (foldl float_add a l <= inject_Z (j + Z.of_nat (length l)))%Q).
  { clear Hlen. induction Hl as [|x l [Hx0 Hx1] _ IH]; intros a j Hj Hlen Ha0 Ha1;
      cbn [foldl length] in *.
    - rewrite Z.add_0_r. done.
    - replace (j + Z.of_nat (S (length l))) with (j + 1 + Z.of_nat (length l)) by lia.
      apply IH; [lia|lia|..]; unfold float_add.
      + apply binary64_nonneg. lra.
      + rewrite <- (binary64_Z (j + 1)) by lia. apply binary64_mono.
        rewrite inject_Z_plus. change (inject_Z 1) with 1%Q. lra. }
  destruct (H 0%Q 0) as [H1 H2]; [lia|lia|lra|change (inject_Z 0) with 0%Q; lra|].
  by rewrite Z.add_0_l in H2.
Qed.

Lemma py_mean_unit (l : list Q) :
  l ≠ [] → Z.of_nat (length l) < 2 ^ 53 → Forall unit_interval l →
  unit_interval (py_mean l).
Proof.
  intros Hne Hlen [Hs0 Hs1]%py_sum_bounds; [|done].
  unfold py_mean, float_div, float_of_int.
  assert (Hn : (0 < inject_Z (Z.of_nat (length l)))%Q).
  { destruct l; [done|]. unfold Qlt. cbn. lia. }
  assert (E : (py_sum l / binary64 (inject_Z (Z.of_nat (length l)))
               == py_sum l / inject_Z (Z.of_nat (length l)))%Q).
  { apply Qmult_comp; [reflexivity|]. apply Qinv_comp, binary64_Z. lia. }
  destruct (unit_interval_binary64 (py_sum l / inject_Z (Z.of_nat (length l)))) as [H1 H2].
  - split.
    + apply Qle_shift_div_l; [done|]. lra.
    + apply Qle_shift_div_r; [done|]. lra.
  - unfold unit_interval. by rewrite (binary64_compat _ _ E).
Qed.

Lemma closure_rate_of_unit (resolved closed total : nat) :
  (resolved + closed ≤ total)%nat → unit_interval (closure_rate_of resolved closed total).
Proof.
  intros Hle. unfold closure_rate_of.
  destruct (Nat.ltb_spec 0 total) as [Hpos|_]; [|unfold unit_interval; lra].
  unfold int_truediv. apply unit_interval_binary64.
  assert (Hn : (0 < inject_Z (Z.of_nat total))%Q) by (unfold Qlt; cbn; lia).
  split.
  - apply Qle_shift_div_l; [done|]. unfold Qle. cbn. lia.
  - apply Qle_shift_div_r; [done|]. unfold Qle. cbn. lia.
Qed.

Lemma average_rate_unit (rates : list Q) :
  Z.of_nat (length rates) < 2 ^ 53 →
  Forall unit_interval rates → unit_interval (average_rate rates).
Proof.
  intros Hlen H. destruct rates as [|q l]; [unfold unit_interval; cbn; lra|].
  by apply py_mean_unit.
Qed.

End Rates.

(** ** The entries of a team comparison *)

Section Teams.

Context (server : request → response) (clock : nat → Z) (isoformat : Z → string)
        (fromisoformat : string → option parsed_datetime).

(** What the loop over the group ids keeps true of its entries. *)
Lemma compare_groups_entries fuel lk created_after created_before
    (P : group_entry → Prop) :
  (∀ group_id all_tickets, P (analyze_group fromisoformat lk group_id all_tickets).1) →
  ∀ group_ids comparison_results total rates w r w',
    Forall P comparison_results →
    compare_groups server fromisoformat fuel lk created_after created_before group_ids
      comparison_results total rates w = Val (Success r) w' →
    Forall P (cr_comparison r)
    ∧ ge_group_id <$> cr_comparison r = (ge_group_id <$> comparison_results) ++ group_ids.
Proof.
  intros HP. induction group_ids as [|group_id rest IH];
    intros acc total rates w r w' Hacc Hrun.
  - cbn [compare_groups] in Hrun. injection Hrun as <- _.
    cbn [cr_comparison]. by rewrite app_nil_r.
  - cbn [compare_groups] in Hrun.
    apply try_fetch_success in Hrun as (all_tickets & w0 & _ & Hk).
    specialize (HP group_id all_tickets).
    unfold analyze_group in Hk, HP. cbv zeta beta iota in Hk, HP. cbn [fst] in HP.
    apply IH in Hk as [H1 H2].
    + split; [done|]. rewrite H2, fmap_app. cbn [fmap list_fmap ge_group_id].
      by rewrite <- app_assoc.
    + apply Forall_app. split; [done|]. by repeat constructor.
Qed.

Lemma get_team_comparison_success fuel group_ids created_after created_before w r w' :
  get_team_comparison server clock isoformat fromisoformat fuel group_ids
    created_after created_before w = Val (Success r) w' →
  (2 ≤ length group_ids ≤ 10)%nat
  ∧ ∃ lk ca cb w0,
      compare_groups server fromisoformat fuel lk ca cb group_ids [] 0 [] w0
      = Val (Success r) w'.
Proof.
  unfold get_team_comparison.
  destruct (Nat.ltb (length group_ids) 2) eqn:Hmin; [discriminate|].
  destruct (Nat.ltb 10 (length group_ids)) eqn:Hmax; [discriminate|].
  apply Nat.ltb_ge in Hmin, Hmax. unfold bind.
  destruct (default_window _ _ _ _ _) as [[ca cb] w0|e w0|]; try discriminate.
  destruct (get_agent_lookup _ _ _ _ _) as [[lk|error st details] w1|e w1|];
    try discriminate.
  intros Hrun. split; [lia|]. eauto.
Qed.

(** X16: the entries of a successful comparison follow the group ids.
    There are between two and ten of them, one for each given id in the given
    order (an id given twice has two entries), and in every entry the open,
    resolved and closed tickets together are at most the total, and at most
    five top agents are named, whose counts add up to at most the total. *)
Theorem get_team_comparison_entries fuel group_ids created_after created_before w r w' :
  get_team_comparison server clock isoformat fromisoformat fuel group_ids
    created_after created_before w = Val (Success r) w' →
  ge_group_id <$> cr_comparison r = group_ids
  ∧ (2 ≤ length (cr_comparison r) ≤ 10)%nat
  ∧ ∀ e, e ∈ cr_comparison r →
      (ge_open_tickets e + ge_resolved_tickets e + ge_closed_tickets e
       ≤ ge_total_tickets e)%nat
      ∧ (length (ge_top_agents e) ≤ 5)%nat
      ∧ (sum_list (ge_top_agents e).*2 ≤ ge_total_tickets e)%nat.
Proof.
  intros (Hlen & lk & ca & cb & w0 & Hrun)%get_team_comparison_success.
  apply (compare_groups_entries _ _ _ _
           (λ e, (ge_open_tickets e + ge_resolved_tickets e + ge_closed_tickets e
                  ≤ ge_total_tickets e)%nat
                 ∧ (length (ge_top_agents e) ≤ 5)%nat
                 ∧ (sum_list (ge_top_agents e).*2 ≤ ge_total_tickets e)%nat))
    in Hrun as [Hall Hids]; [| |constructor].
  - cbn [fmap list_fmap app] in Hids. split; [done|].
    split; [by rewrite <- (length_fmap ge_group_id), Hids|].
    by apply Forall_forall.
  - intros group_id all_tickets. unfold analyze_group. cbv zeta.
    cbn [fst ge_open_tickets ge_resolved_tickets ge_closed_tickets ge_total_tickets
         ge_top_agents].
    split; [apply count_status_disjoint|].
    change (top_agents_of (lk_agents lk) all_tickets)
      with ((λ '(k, n), (agent_name_of (lk_agents lk) k, n))
              <$> take 5 (sort_desc snd (agent_ticket_counts all_tickets))).
    split; [rewrite length_fmap, length_take; lia|].
    rewrite <- list_fmap_compose.
    rewrite (list_fmap_ext _ snd (take 5 (sort_desc snd (agent_ticket_counts all_tickets))))
      by (by intros _ [k n] _).
    trans (sum_list (sort_desc snd (agent_ticket_counts all_tickets)).*2).
    + rewrite <- (take_drop 5 (sort_desc snd (agent_ticket_counts all_tickets))) at 2.
      rewrite fmap_app, sum_list_with_app. lia.
    + rewrite (sort_desc_perm snd), agent_ticket_counts_sizes. unfold sizes.
      rewrite <- list_fmap_compose.
      rewrite (list_fmap_ext _ (length ∘ snd) (group_by_responder all_tickets))
        by (by intros _ [k ts] _).
      rewrite list_fmap_compose, group_by_responder_sizes. unfold assigned_tickets.
      apply length_filter.
Qed.

(** X14: the rates of a successful comparison are fractions.  Every
    group's [closure_rate] and the summary's [average_closure_rate] lie
    between 0 and 1. *)
Theorem get_team_comparison_rates_bounded fuel group_ids created_after created_before
    w r w' :
  get_team_comparison server clock isoformat fromisoformat fuel group_ids
    created_after created_before w = Val (Success r) w' →
  Forall (λ e, unit_interval (ge_closure_rate e)) (cr_comparison r)
  ∧ unit_interval (cr_average_closure_rate r).
Proof.
  intros (Hlen & lk & ca & cb & w0 & Hrun)%get_team_comparison_success.
  pose proof Hrun as Hlaw.
  apply compare_groups_law in Hlaw as (Hround & Havg & _ & Hcount);
    [|done|constructor|done].
  cbn [length] in Hcount.
  apply (compare_groups_entries _ _ _ _
           (λ e, (ge_resolved_tickets e + ge_closed_tickets e ≤ ge_total_tickets e)%nat))
    in Hrun as [Hall _]; [| |constructor].
  - assert (Hrates : Forall (λ e, unit_interval (entry_rate e)) (cr_comparison r)).
    { eapply Forall_impl; [exact Hall|]. intros e He. by apply closure_rate_of_unit. }
    split.
    + rewrite Forall_forall in Hround, Hrates. apply Forall_forall. intros e He.
      rewrite (Hround e He). apply py_round_unit. by apply Hrates.
    + rewrite Havg. apply py_round_unit, average_rate_unit; [|by apply Forall_fmap].
      rewrite length_fmap, Hcount. lia.
  - intros group_id all_tickets. unfold analyze_group. cbv zeta.
    cbn [fst ge_resolved_tickets ge_closed_tickets ge_total_tickets].
    pose proof (count_status_disjoint all_tickets). lia.
Qed.

End Teams.

Lemma get_team_comparison_entries_witness :
  ∃ r w',
    get_team_comparison thirds_server example_clock Iso.isoformat Iso.fromisoformat 3
      [2; 1; 2] (Some "2024-01-01") (Some "2024-02-01") initial_world = Val (Success r) w'
    ∧ ge_group_id <$> cr_comparison r = [2; 1; 2].
Proof.
  assert (Hs : succeeded (get_team_comparison thirds_server example_clock Iso.isoformat
                            Iso.fromisoformat 3 [2; 1; 2] (Some "2024-01-01")
                            (Some "2024-02-01") initial_world) = true)
    by (vm_compute; reflexivity).
  destruct (get_team_comparison _ _ _ _ _ _ _ _ _) as [[r|? ? ?] w'|? ?|] eqn:Hrun;
    try discriminate Hs.
  exists r, w'. split; [reflexivity|].
  exact (proj1 (get_team_comparison_entries _ _ _ _ _ _ _ _ _ _ _ Hrun)).
Defined.

Lemma get_team_comparison_rates_bounded_witness :
  ∃ r w',
    get_team_comparison thirds_server example_clock Iso.isoformat Iso.fromisoformat 3
      [1; 2] (Some "2024-01-01") (Some "2024-02-01") initial_world = Val (Success r) w'
    ∧ unit_interval (cr_average_closure_rate r).
Proof.
  assert (Hs : succeeded (get_team_comparison thirds_server example_clock Iso.isoformat
                            Iso.fromisoformat 3 [1; 2] (Some "2024-01-01")
                            (Some "2024-02-01") initial_world) = true)
    by (vm_compute; reflexivity).
  destruct (get_team_comparison _ _ _ _ _ _ _ _ _) as [[r|? ? ?] w'|? ?|] eqn:Hrun;
    try discriminate Hs.
  exists r, w'. split; [reflexivity|].
  exact (proj2 (get_team_comparison_rates_bounded _ _ _ _ _ _ _ _ _ _ _ Hrun)).
Defined.

(** ** Decimal numerals *)

Section Decimal.

Import PyStr.

Lemma all_chars_app f (s t : string) :
  all_chars f (s +:+ t) = all_chars f s && all_chars f t.
Proof.
  induction s as [|c s IH]; [done|].
  change (f c && all_chars f (s +:+ t) = f c && all_chars f s && all_chars f t).
  by rewrite IH, andb_assoc.
Qed.

Lemma all_chars_impl (f g : ascii → bool) (s : string) :
  (∀ c, f c = true → g c = true) → all_chars f s = true → all_chars g s = true.
Proof.
  intros Hfg. induction s as [|c s IH]; [done|]. cbn [all_chars].
  intros [Hc Hs]%andb_true_iff. by rewrite (Hfg c Hc), IH.
Qed.

Lemma digits_value_app acc (s t : string) :
  digits_value acc (s +:+ t) = digits_value (digits_value acc s) t.
Proof.
  revert acc. induction s as [|c s IH]; intros acc; [done|].
  change (digits_value (10 * acc + digit_value c) (s +:+ t)
          = digits_value (digits_value (10 * acc + digit_value c) s) t).
  apply IH.
Qed.

Lemma pretty_N_char_digit (x : N) :
  (x < 10)%N →
  is_digit (pretty_N_char x) = true ∧ digit_value (pretty_N_char x) = Z.of_N x.
Proof.
  intros H.
  assert (x = 0 ∨ x = 1 ∨ x = 2 ∨ x = 3 ∨ x = 4 ∨ x = 5 ∨ x = 6 ∨ x = 7 ∨ x = 8
          ∨ x = 9)%N as Hx by lia.
  repeat destruct Hx as [->|Hx]; try subst x; by vm_compute.
Qed.

(** The digits [pretty_N_go] puts in front of [s]. *)
Lemma pretty_N_go_spec (x : N) :
  ∀ s, ∃ pre p,
    pretty_N_go x s = pre +:+ s
    ∧ all_chars is_digit pre = true
    ∧ ((0 < x)%N → pre ≠ "")
    ∧ ∀ acc, digits_value acc pre = acc * p + Z.of_N x.
Proof.
  induction (N.lt_wf_0 x) as [x _ IH]. intros s.
  assert (x = 0 ∨ 0 < x)%N as [->|Hpos] by lia.
  - exists "", 1. rewrite pretty_N_go_0. repeat split; [lia|]. intros acc. cbn. lia.
  - rewrite pretty_N_go_step by done.
    destruct (IH (x `div` 10)%N (N.div_lt x 10 Hpos eq_refl)
                (String (pretty_N_char (x `mod` 10)) s)) as (pre & p & Heq & Hd & _ & Hv).
    destruct (pretty_N_char_digit (x `mod` 10)) as [Hc1 Hc2]; [by apply N.mod_lt|].
    exists (pre +:+ String (pretty_N_char (x `mod` 10)) ""), (10 * p).
    split; [|split; [|split]].
    + by rewrite Heq, string_app_assoc.
    + rewrite all_chars_app, Hd. cbn. by rewrite Hc1.
    + intros _ Hnil. by destruct pre.
    + intros acc. rewrite digits_value_app, Hv. cbn [digits_value]. rewrite Hc2.
      pose proof (N.div_mod x 10). lia.
Qed.

(** The numeral of a number that is not negative: digits only, at least
    one, and its value is the number. *)
Lemma pretty_Z_decimal (n : Z) :
  0 ≤ n →
  all_chars is_digit (pretty n) = true
  ∧ pretty n ≠ ""
  ∧ digits_value 0 (pretty n) = n.
Proof.
  intros Hn. destruct n as [|q|q]; [by vm_compute| |lia].
  change (pretty (Z.pos q)) with (pretty (N.pos q)). unfold pretty, pretty_N.
  rewrite decide_False by done.
  destruct (pretty_N_go_spec (N.pos q) "") as (pre & p & Heq & Hd & Hne & Hv).
  assert (Hpre : pre +:+ "" = pre).
  { clear. induction pre as [|c pre IH]; [done|].
    change (String c (pre +:+ "") = String c pre). by rewrite IH. }
  rewrite Heq, Hpre. split; [done|]. split; [apply Hne; lia|].
  rewrite Hv. lia.
Qed.

Lemma int_digits_decimal (s : string) :
  all_chars is_digit s = true →
  ∀ acc after_digit, s ≠ "" ∨ after_digit = true →
    int_digits acc after_digit s = Some (digits_value acc s).
Proof.
  induction s as [|c s IH]; intros Hd acc b Hne.
  - destruct Hne as [?| ->]; done.
  - cbn [all_chars] in Hd. apply andb_true_iff in Hd as [Hc Hs].
    cbn [int_digits digits_value]. rewrite Hc. apply IH; [done|]. by right.
Qed.

Lemma rev_onto_app (s acc : string) : rev_onto s acc = rev_onto s "" +:+ acc.
Proof.
  revert acc. induction s as [|c s IH]; intros acc; [done|].
  cbn [rev_onto]. rewrite (IH (String c acc)), (IH (String c "")).
  by rewrite string_app_assoc.
Qed.

Lemma rev_rev (s : string) : rev (rev s) = s.
Proof.
  unfold rev. induction s as [|c s IH]; [done|].
  cbn [rev_onto]. rewrite (rev_onto_app s (String c "")).
  assert (H : ∀ a b, rev_onto (a +:+ b) "" = rev_onto b "" +:+ rev_onto a "").
  { clear. induction a as [|x a IHa]; intros b.
    - change ("" +:+ b) with b. cbn [rev_onto].
      generalize (rev_onto b ""). clear. intros t.
      induction t as [|y t IHt]; [done|].
      change (String y t = String y (t +:+ "")). by rewrite <- IHt.
    - change (String x a +:+ b) with (String x (a +:+ b)). cbn [rev_onto].
      rewrite (rev_onto_app (a +:+ b)), IHa, (rev_onto_app a (String x "")).
      by rewrite string_app_assoc. }
  rewrite H, IH. done.
Qed.

Lemma all_chars_rev f (s : string) : all_chars f (rev s) = all_chars f s.
Proof.
  unfold rev. induction s as [|c s IH]; [done|].
  cbn [rev_onto all_chars]. rewrite (rev_onto_app s (String c "")), all_chars_app, IH.
  cbn [all_chars].
  rewrite andb_true_r. apply andb_comm.
Qed.

Lemma drop_while_head (f : ascii → bool) (s : string) :
  match s with String c _ => f c = false | EmptyString => True end →
  drop_while f s = s.
Proof. destruct s as [|c s]; [done|]. cbn [drop_while]. by intros ->. Qed.

Lemma all_chars_head (f g : ascii → bool) (s : string) :
  (∀ c, f c = true → g c = false) → all_chars f s = true →
  match s with String c _ => g c = false | EmptyString => True end.
Proof.
  intros Hfg. destruct s as [|c s]; [done|]. cbn [all_chars].
  intros [Hc _]%andb_true_iff. by apply Hfg.
Qed.

Lemma is_digit_range (c : ascii) :
  is_digit c = true → (48 ≤ nat_of_ascii c ≤ 57)%nat.
Proof.
  unfold is_digit. cbv zeta. intros [H1 H2]%andb_true_iff.
  apply Nat.leb_le in H1, H2. lia.
Qed.

Lemma digit_no_space (c : ascii) : is_digit c = true → int_space c = false.
Proof.
  intros H%is_digit_range. unfold int_space. cbv zeta.
  repeat (apply orb_false_iff; split); try apply andb_false_iff;
    rewrite ?Nat.leb_gt, ?Nat.eqb_neq; lia.
Qed.

Lemma digit_no_sign (c : ascii) :
  is_digit c = true → is_char c 43 = false ∧ is_char c 45 = false.
Proof.
  intros H%is_digit_range. unfold is_char. rewrite !Nat.eqb_neq. lia.
Qed.

(** [int] reads back the numeral of every integer. *)
Lemma py_int_pretty (n : Z) : py_int (pretty n) = Some n.
Proof.
  assert (Hnat : ∀ m, 0 ≤ m →
            ∀ sign, int_space sign = false →
              rev (drop_while int_space
                        (rev (drop_while int_space (String sign (pretty m)))))
                = String sign (pretty m)
              ∧ rev (drop_while int_space (rev (drop_while int_space (pretty m))))
                = pretty m
              ∧ int_digits 0 false (pretty m) = Some m).
  { intros m Hm sign Hsign. destruct (pretty_Z_decimal m Hm) as (Hd & Hne & Hv).
    assert (Hrev : ∀ t, all_chars is_digit t = true → t ≠ "" →
              drop_while int_space (rev t) = rev t).
    { intros t Ht _. apply drop_while_head.
      apply (all_chars_head is_digit); [apply digit_no_space|].
      by rewrite all_chars_rev. }
    split; [|split].
    - rewrite (drop_while_head _ (String sign _)) by done.
      assert (Hr : rev (String sign (pretty m)) = rev (pretty m) +:+ String sign "").
      { unfold rev. cbn [rev_onto]. apply rev_onto_app. }
      rewrite Hr.
      rewrite (drop_while_head _ (rev (pretty m) +:+ _)).
      + by rewrite <- Hr, rev_rev.
      + pose proof (all_chars_head is_digit int_space (rev (pretty m)) digit_no_space) as Hh.
        rewrite all_chars_rev in Hh. specialize (Hh Hd).
        destruct (rev (pretty m)) as [|c r] eqn:Er; [|done].
        exfalso. apply Hne. by rewrite <- (rev_rev (pretty m)), Er.
    - rewrite (drop_while_head _ (pretty m))
        by (by apply (all_chars_head is_digit); [apply digit_no_space|]).
      by rewrite Hrev, rev_rev.
    - rewrite int_digits_decimal by auto. by rewrite Hv. }
  unfold py_int. destruct n as [|q|q].
  - by vm_compute.
  - destruct (Hnat (Z.pos q) ltac:(lia) "+"%char eq_refl) as (_ & -> & Hdig).
    destruct (pretty_Z_decimal (Z.pos q)) as (Hd & Hne & _); [lia|].
    destruct (pretty (Z.pos q)) as [|c r] eqn:E; [done|].
    cbn [all_chars] in Hd. apply andb_true_iff in Hd as [Hc _].
    destruct (digit_no_sign c Hc) as [-> ->]. done.
  - change (pretty (Z.neg q)) with ("-" +:+ pretty (Z.pos q)).
    change ("-" +:+ pretty (Z.pos q)) with (String "-"%char (pretty (Z.pos q))).
    destruct (Hnat (Z.pos q) ltac:(lia) "-"%char eq_refl) as (-> & _ & Hdig).
    change (is_char "-" 43) with false. change (is_char "-" 45) with true.
    cbv iota. by rewrite Hdig.
Qed.

Lemma chop_suffix_char_app (c : ascii) (s : string) :
  chop_suffix_char c (s +:+ String c "") = Some s.
Proof.
  induction s as [|a s IH].
  - change (chop_suffix_char c (String c "") = Some ""). cbn [chop_suffix_char].
    by rewrite Ascii.eqb_refl.
  - change (chop_suffix_char c (String a (s +:+ String c "")) = Some (String a s)).
    cbn [chop_suffix_char]. destruct (s +:+ String c "") as [|b r] eqn:E.
    + by destruct s.
    + by rewrite IH.
Qed.

End Decimal.

(** ** Periods written as a number of days *)

Section Period.

Context (clock : nat → Z).

(** X17: a period written as the numeral of [n] followed by the letter d
    gives the clock reading less [n] days, for every integer [n] whose
    magnitude [timedelta] accepts and whose date exists; a negative [n]
    is accepted too and gives a date after the reading.  The clock is read
    once. *)
Theorem _parse_period_days (n : Z) (w : world) :
  Z.abs n ≤ timedelta_max_days →
  0 ≤ clock (w_ticks w) - n * usec_per_day ≤ datetime_max →
  _parse_period clock (Some (pretty n +:+ "d")) w
  = Val (clock (w_ticks w) - n * usec_per_day) (tick w).
Proof.
  intros Hdays Hdate. unfold _parse_period.
  change (ascii_of_nat 100) with "d"%char.
  rewrite (chop_suffix_char_app "d" (pretty n)), py_int_pretty.
  unfold try_except_ValueError, bind, datetime_now, timedelta_days.
  rewrite (proj2 (Z.ltb_ge _ _)) by lia.
  unfold ret, datetime_sub. cbn [w_ticks w_cache w_log].
  rewrite (proj2 (Z.ltb_ge _ 0)), (proj2 (Z.ltb_ge datetime_max _)) by lia.
  reflexivity.
Qed.

End Period.

Lemma _parse_period_days_witness :
  _parse_period example_clock (Some (pretty (-7) +:+ "d")) initial_world
  = Val (example_clock 0 - -7 * usec_per_day) (tick initial_world).
Proof.
  apply (_parse_period_days example_clock (-7) initial_world).
  - vm_compute. discriminate.
  - split; vm_compute; discriminate.
Defined.

(** ** Labels of integer ids *)

Section Labels.

Import PyStr.

Lemma pretty_Z_not_None (z : Z) : pretty z ≠ "None".
Proof.
  destruct (decide (0 ≤ z)) as [Hz|Hz].
  - destruct (pretty_Z_decimal z Hz) as (Hd & _ & _). intros E. by rewrite E in Hd.
  - destruct z as [|q|q]; [lia|lia|]. discriminate.
Qed.

Lemma _map_status_name_cases (a : Z) :
  (_map_status_name (PInt a) = "Status-" +:+ pretty a ∧ (a < 2 ∨ 7 < a))
  ∨ (2 ≤ a ≤ 7 ∧ ∀ s, _map_status_name (PInt a) ≠ "Status-" +:+ s).
Proof.
  destruct a as [|p|p]; [left; split; [reflexivity|lia]| |left; split; [reflexivity|lia]].
  destruct p as [[[p|p|]|[p|p|]|]|[[p|p|]|[p|p|]|]|];
    first [left; split; [reflexivity|lia]|right; split; [lia|intros s; discriminate]].
Qed.

Lemma _map_priority_name_cases (a : Z) :
  (_map_priority_name (PInt a) = "Priority-" +:+ pretty a ∧ (a < 1 ∨ 4 < a))
  ∨ (1 ≤ a ≤ 4 ∧ ∀ s, _map_priority_name (PInt a) ≠ "Priority-" +:+ s).
Proof.
  destruct a as [|p|p]; [left; split; [reflexivity|lia]| |left; split; [reflexivity|lia]].
  destruct p as [[[p|p|]|[p|p|]|]|[[p|p|]|[p|p|]|]|];
    first [left; split; [reflexivity|lia]|right; split; [lia|intros s; discriminate]].
Qed.

Lemma _map_status_name_inj (a b : Z) :
  _map_status_name (PInt a) = _map_status_name (PInt b) → a = b.
Proof.
  destruct (_map_status_name_cases a) as [[Ea _]|[Ha Na]],
           (_map_status_name_cases b) as [[Eb _]|[Hb Nb]].
  - rewrite Ea, Eb. intros H%(inj (String.app _)). by apply (inj pretty).
  - rewrite Ea. intros H. symmetry in H. by apply Nb in H.
  - rewrite Eb. intros H. by apply Na in H.
  - assert (a = 2 ∨ a = 3 ∨ a = 4 ∨ a = 5 ∨ a = 6 ∨ a = 7) as Ha' by lia.
    assert (b = 2 ∨ b = 3 ∨ b = 4 ∨ b = 5 ∨ b = 6 ∨ b = 7) as Hb' by lia.
    intros H.
    repeat destruct Ha' as [->|Ha']; try subst a;
      repeat destruct Hb' as [->|Hb']; try subst b;
      first [reflexivity|vm_compute in H; discriminate H].
Qed.

Lemma _map_priority_name_inj (a b : Z) :
  _map_priority_name (PInt a) = _map_priority_name (PInt b) → a = b.
Proof.
  destruct (_map_priority_name_cases a) as [[Ea _]|[Ha Na]],
           (_map_priority_name_cases b) as [[Eb _]|[Hb Nb]].
  - rewrite Ea, Eb. intros H%(inj (String.app _)). by apply (inj pretty).
  - rewrite Ea. intros H. symmetry in H. by apply Nb in H.
  - rewrite Eb. intros H. by apply Na in H.
  - assert (a = 1 ∨ a = 2 ∨ a = 3 ∨ a = 4) as Ha' by lia.
    assert (b = 1 ∨ b = 2 ∨ b = 3 ∨ b = 4) as Hb' by lia.
    intros H.
    repeat destruct Ha' as [->|Ha']; try subst a;
      repeat destruct Hb' as [->|Hb']; try subst b;
      first [reflexivity|vm_compute in H; discriminate H].
Qed.

Lemma _map_status_name_None (id : Z) : _map_status_name PNone ≠ _map_status_name (PInt id).
Proof.
  destruct (_map_status_name_cases id) as [[E _]|[_ N]].
  - rewrite E. intros H%(inj (String.app _)). symmetry in H. by apply pretty_Z_not_None in H.
  - intros H. symmetry in H. by apply N in H.
Qed.

Lemma _map_priority_name_None (id : Z) :
  _map_priority_name PNone ≠ _map_priority_name (PInt id).
Proof.
  destruct (_map_priority_name_cases id) as [[E _]|[_ N]].
  - rewrite E. intros H%(inj (String.app _)). symmetry in H. by apply pretty_Z_not_None in H.
  - intros H. symmetry in H. by apply N in H.
Qed.

Lemma label_count_id (name : py_value → string) (key : string) (id : Z)
    (all_tickets : list py_dict) :
  (∀ a, name (PInt a) = name (PInt id) → a = id) →
  name PNone ≠ name (PInt id) →
  Forall (λ t, ∀ s, dict_get t key ≠ PStr s) all_tickets →
  label_count (λ t, name (dict_get t key)) (name (PInt id)) all_tickets
  = length (filter (λ t, dict_get t key = PInt id) all_tickets).
Proof.
  intros Hinj Hnone. unfold label_count.
  induction 1 as [|t l Ht _ IH]; [done|].
  rewrite !filter_cons.
  destruct (decide (dict_get t key = PInt id)) as [E|NE].
  - rewrite decide_True by (by rewrite E). cbn [length]. by rewrite IH.
  - rewrite decide_False; [done|]. intros E. apply NE.
    destruct (dict_get t key) as [|a|s]; [done| |by destruct (Ht s)].
    by rewrite (Hinj a E).
Qed.

(** X24: the count tables keep integer ids apart.  Two different integer
    status ids never share a label, nor do two priority ids; so, when no
    ticket has a string as its status (or priority), the table holds under
    the label of an integer id the number of tickets with exactly that id. *)
Theorem aggregate_stats_per_id (agents_lookup : agents_map) (all_tickets : list py_dict) :
  let stats := aggregate_stats agents_lookup all_tickets in
  (∀ a b, _map_status_name (PInt a) = _map_status_name (PInt b) → a = b)
  ∧ (∀ a b, _map_priority_name (PInt a) = _map_priority_name (PInt b) → a = b)
  ∧ (Forall (λ t, ∀ s, dict_get t "status" ≠ PStr s) all_tickets →
     ∀ id, default O (by_status stats !! _map_status_name (PInt id))
           = count_status id all_tickets)
  ∧ (Forall (λ t, ∀ s, dict_get t "priority" ≠ PStr s) all_tickets →
     ∀ id, default O (by_priority stats !! _map_priority_name (PInt id))
           = length (filter (λ t, dict_get t "priority" = PInt id) all_tickets)).
Proof.
  cbv zeta. split; [apply _map_status_name_inj|]. split; [apply _map_priority_name_inj|].
  unfold aggregate_stats. rewrite count_tickets_split. cbn [by_status by_priority].
  split; intros Hall id; rewrite foldl_incr_count, lookup_empty; cbn [default from_option];
    rewrite Nat.add_0_l.
  - apply (label_count_id _map_status_name "status" id all_tickets);
      [intros a; apply _map_status_name_inj|apply _map_status_name_None|done].
  - apply (label_count_id _map_priority_name "priority" id all_tickets);
      [intros a; apply _map_priority_name_inj|apply _map_priority_name_None|done].
Qed.

End Labels.

Lemma aggregate_stats_per_id_witness :
  default O (by_status (aggregate_stats ∅ mixed_tickets) !! _map_status_name (PInt 42))
  = count_status 42 mixed_tickets.
Proof.
  apply (aggregate_stats_per_id ∅ mixed_tickets).
  repeat constructor; intros s; vm_compute; discriminate.
Defined.

(** ** Link headers of the usual shape *)

Section CanonicalLink.

Import PyStr.

Lemma is_char_eqb (c : ascii) (n : nat) :
  (n < 256)%nat → is_char c n = Ascii.eqb c (ascii_of_nat n).
Proof.
  intros Hn. unfold is_char.
  destruct (Ascii.eqb_spec c (ascii_of_nat n)) as [->|Hne].
  - rewrite nat_ascii_embedding by done. apply Nat.eqb_refl.
  - apply Nat.eqb_neq. intros E. apply Hne. by rewrite <- E, ascii_nat_embedding.
Qed.

Lemma split_on_none (s : string) :
  all_chars (λ c, negb (is_char c 44)) s = true → split_on comma s = [s].
Proof.
  induction s as [|c s IH]; [done|]. cbn [all_chars split_on].
  intros [Hc Hs]%andb_true_iff. rewrite (IH Hs).
  apply negb_true_iff in Hc. rewrite is_char_eqb in Hc by lia.
  unfold comma. by rewrite Hc.
Qed.

Lemma strip_prefix_app (p s : string) : strip_prefix p (p +:+ s) = Some s.
Proof.
  induction p as [|a p IH]; [by destruct s|].
  change (strip_prefix (String a p) (String a (p +:+ s)) = Some s).
  cbn [strip_prefix]. by rewrite Ascii.eqb_refl.
Qed.

Lemma take_while_app (f : ascii → bool) (d s : string) :
  all_chars f d = true →
  match s with String c _ => f c = false | EmptyString => True end →
  take_while f (d +:+ s) = d.
Proof.
  intros Hd Hs. induction d as [|c d IH].
  - destruct s as [|c s]; [done|]. change ("" +:+ String c s) with (String c s).
    cbn [take_while]. by rewrite Hs.
  - cbn [all_chars] in Hd. apply andb_true_iff in Hd as [Hc Hd].
    change (take_while f (String c (d +:+ s)) = String c d).
    cbn [take_while]. by rewrite Hc, IH.
Qed.

Lemma lazy_to_quote_rel (r : string) :
  all_chars rel_char r = true → Re.lazy_to_quote (r +:+ dq) = Some r.
Proof.
  induction r as [|c r IH]; [done|]. cbn [all_chars].
  intros [Hc Hr]%andb_true_iff. unfold rel_char in Hc.
  apply andb_true_iff in Hc as [[Hdot Hq]%andb_true_iff _].
  change (Re.lazy_to_quote (String c (r +:+ dq)) = Some (String c r)).
  cbn [Re.lazy_to_quote]. apply negb_true_iff in Hq. rewrite is_char_eqb in Hq by lia.
  unfold dquote. by rewrite Hq, Hdot, IH.
Qed.

Lemma link_tail_rel (rel : string) :
  rel ≠ "" → all_chars rel_char rel = true →
  Re.link_tail (">; rel=" +:+ dq +:+ rel +:+ dq) = Some rel.
Proof.
  intros Hne Hrel.
  assert (E : Re.link_tail (">; rel=" +:+ dq +:+ rel +:+ dq) = Re.rel_group (rel +:+ dq))
    by reflexivity.
  rewrite E. destruct rel as [|c r]; [done|]. cbn [all_chars] in Hrel.
  apply andb_true_iff in Hrel as [Hc Hr].
  change (Re.rel_group (String c (r +:+ dq)) = Some (String c r)).
  unfold Re.rel_group. unfold rel_char in Hc.
  apply andb_true_iff in Hc as [[-> _]%andb_true_iff _].
  by rewrite lazy_to_quote_rel.
Qed.

Lemma link_tail_url_char (c : ascii) (s : string) :
  url_char c = true → Re.link_tail (String c s) = None.
Proof.
  unfold url_char. intros [[_ Hgt]%andb_true_iff _]%andb_true_iff.
  apply negb_true_iff in Hgt. rewrite is_char_eqb in Hgt by lia.
  unfold Re.link_tail.
  change (strip_prefix ">;" (String c s))
    with (if Ascii.eqb ">" c then strip_prefix ";" s else None).
  rewrite eqb_sym. change (ascii_of_nat 62) with ">"%char in Hgt. by rewrite Hgt.
Qed.

Lemma lazy_url_plain (u tail rel : string) :
  all_chars url_char u = true →
  Re.link_tail tail = Some rel →
  Re.lazy_url (u +:+ tail) = Some (u, rel).
Proof.
  intros Hu Htail. induction u as [|c u IH].
  - change ("" +:+ tail) with tail. destruct tail; cbn [Re.lazy_url]; by rewrite Htail.
  - cbn [all_chars] in Hu. apply andb_true_iff in Hu as [Hc Hu].
    change (Re.lazy_url (String c (u +:+ tail)) = Some (String c u, rel)).
    cbn [Re.lazy_url]. rewrite (link_tail_url_char c _ Hc), (IH Hu).
    unfold url_char in Hc. by apply andb_true_iff in Hc as [[-> _]%andb_true_iff _].
Qed.

Lemma strip_prefix_step (q : ascii) (p t : string) :
  (∀ b, all_chars no_equals b = true → strip_prefix p (b +:+ "page=" +:+ t) = None) →
  q ≠ "p"%char →
  ∀ b, all_chars no_equals b = true →
    strip_prefix (String q p) (b +:+ "page=" +:+ t) = None.
Proof.
  intros Hp Hq [|c b] Hb.
  - change (strip_prefix (String q p) (String "p" ("age=" +:+ t)) = None).
    cbn [strip_prefix]. by rewrite (proj2 (eqb_neq _ _) Hq).
  - cbn [all_chars] in Hb. apply andb_true_iff in Hb as [_ Hb].
    change (strip_prefix (String q p) (String c (b +:+ "page=" +:+ t)) = None).
    cbn [strip_prefix]. destruct (Ascii.eqb q c); [by apply Hp|done].
Qed.

Lemma page_at_inside (c : ascii) (b t : string) :
  all_chars no_equals (String c b) = true →
  Re.page_at (String c b +:+ "page=" +:+ t) = None.
Proof.
  intros Hb. unfold Re.page_at.
  assert (H4 : ∀ b, all_chars no_equals b = true →
                 strip_prefix "=" (b +:+ "page=" +:+ t) = None).
  { intros [|a b'] Hb'; [done|]. cbn [all_chars] in Hb'.
    apply andb_true_iff in Hb' as [Ha _]. unfold no_equals in Ha.
    apply negb_true_iff in Ha. rewrite is_char_eqb in Ha by lia.
    change (strip_prefix "=" (String a (b' +:+ "page=" +:+ t)) = None).
    cbn [strip_prefix]. rewrite eqb_sym. change (ascii_of_nat 61) with "="%char in Ha.
    by rewrite Ha. }
  pose proof (strip_prefix_step "e" _ t H4 ltac:(discriminate)) as H3.
  pose proof (strip_prefix_step "g" _ t H3 ltac:(discriminate)) as H2.
  pose proof (strip_prefix_step "a" _ t H2 ltac:(discriminate)) as H1.
  cbn [all_chars] in Hb. apply andb_true_iff in Hb as [_ Hb].
  change (strip_prefix "page=" (String c b +:+ "page=" +:+ t))
    with (if Ascii.eqb "p" c then strip_prefix "age=" (b +:+ "page=" +:+ t) else None).
  destruct (Ascii.eqb "p" c); [|done]. by rewrite H1.
Qed.

Lemma search_page_first (b t ds : string) :
  all_chars no_equals b = true →
  Re.page_at ("page=" +:+ t) = Some ds →
  Re.search_page (b +:+ "page=" +:+ t) = Some ds.
Proof.
  intros Hb Hat. induction b as [|c b IH].
  - change ("" +:+ "page=" +:+ t) with (String "p" ("age=" +:+ t)).
    cbn [Re.search_page]. change (String "p" ("age=" +:+ t)) with ("page=" +:+ t).
    by rewrite Hat.
  - pose proof (page_at_inside c b t Hb) as Hnone.
    cbn [all_chars] in Hb. apply andb_true_iff in Hb as [_ Hb].
    change (String c b +:+ "page=" +:+ t) with (String c (b +:+ "page=" +:+ t)) in *.
    cbn [Re.search_page]. by rewrite Hnone, IH.
Qed.

(** X18: a Link header of the usual shape.  For a header with one entry
    whose URL has no line feed, closing angle bracket or comma, the parser
    stores under the entry's relation the number after the first [page=] of
    the URL; what comes before that has no equals sign, so a [per_page=]
    parameter in front of the page parameter is the one that is read. *)
Theorem parse_link_header_canonical (prefix : string) (n : Z) (suffix rel : string) :
  0 ≤ n →
  all_chars url_char prefix = true →
  all_chars no_equals prefix = true →
  all_chars url_char suffix = true →
  no_leading_digit suffix →
  rel ≠ "" →
  all_chars rel_char rel = true →
  parse_link_header (canonical_link prefix n suffix rel)
  = <[rel := Some n]> pagination_init.
Proof.
  intros Hn Hprefix Heq Hsuffix Hlead Hrel Hrelc.
  destruct (pretty_Z_decimal n Hn) as (Hd & Hne & Hv).
  set (url := prefix +:+ "page=" +:+ pretty n +:+ suffix).
  set (tail := ">; rel=" +:+ dq +:+ rel +:+ dq).
  assert (Hdigit_url : ∀ c, is_digit c = true → url_char c = true).
  { intros c Hc%is_digit_range. unfold url_char, is_dot, is_char.
    rewrite !andb_true_iff, !negb_true_iff, !Nat.eqb_neq. lia. }
  assert (Hurl : all_chars url_char url = true).
  { unfold url. rewrite !all_chars_app, Hprefix, Hsuffix.
    by rewrite (all_chars_impl is_digit url_char (pretty n) Hdigit_url Hd). }
  assert (Hcomma : ∀ f s, (∀ c, f c = true → negb (is_char c 44) = true) →
                     all_chars f s = true →
                     all_chars (λ c, negb (is_char c 44)) s = true).
  { intros f s Hf. by apply all_chars_impl. }
  assert (Hsplit : split_on comma (canonical_link prefix n suffix rel)
                   = [canonical_link prefix n suffix rel]).
  { apply split_on_none. unfold canonical_link. fold url.
    rewrite !all_chars_app.
    rewrite (Hcomma url_char url), (Hcomma rel_char rel); [done|..|done| |done].
    - intros c. unfold rel_char. by intros [_ ?]%andb_true_iff.
    - intros c. unfold url_char. by intros [_ ?]%andb_true_iff. }
  assert (Hpage : Re.search_page url = Some (pretty n)).
  { unfold url. apply search_page_first; [done|]. unfold Re.page_at.
    rewrite strip_prefix_app. cbn [mbind option_bind].
    rewrite take_while_app by done. by destruct (pretty n). }
  assert (Hlink : Re.search_link (canonical_link prefix n suffix rel) = Some (url, rel)).
  { unfold canonical_link. fold url. fold tail.
    destruct url as [|c u] eqn:Eu.
    { unfold url in Eu. destruct prefix; discriminate Eu. }
    cbn [all_chars] in Hurl. apply andb_true_iff in Hurl as [Hc Hu].
    change ("<" +:+ String c u +:+ tail) with (String "<" (String c (u +:+ tail))).
    cbn [Re.search_link]. unfold Re.link_at.
    change (is_char "<" 60) with true.
    rewrite (lazy_url_plain u tail rel Hu (link_tail_rel rel Hrel Hrelc)).
    unfold url_char in Hc. by apply andb_true_iff in Hc as [[-> _]%andb_true_iff _]. }
  assert (Hentry : link_entry (canonical_link prefix n suffix rel) = Some (rel, n)).
  { unfold link_entry. rewrite Hlink. cbn [mbind option_bind]. rewrite Hpage.
    cbn [mbind option_bind]. by rewrite Hv. }
  unfold parse_link_header. rewrite Hsplit. cbn [foldl]. unfold parse_link_step.
  rewrite Hentry. by destruct (canonical_link prefix n suffix rel).
Qed.

End CanonicalLink.

Lemma parse_link_header_canonical_witness :
  parse_link_header
    ("<https://x.freshservice.com/api/v2/agents?per_page=30&page=2>; rel="
     +:+ PyStr.dq +:+ "next" +:+ PyStr.dq)
  = <["next" := Some 30]> pagination_init.
Proof.
  apply (parse_link_header_canonical "https://x.freshservice.com/api/v2/agents?per_" 30
           "&page=2" "next"); try (vm_compute; reflexivity); [lia|discriminate].
Defined.

(** ** The paged listings *)

Section ListingFacts.

Context (server : request → response).

Lemma pagination_get_cursor (link : option string) (rel : string) :
  pagination_get (parse_link_header (default EmptyString link)) rel = cursor rel link.
Proof. apply pagination_get_last. Qed.

Lemma valid_page_tests (page per_page : Z) :
  ((page <? 1) = false ∧ ((per_page <? 1) || (100 <? per_page)) = false)
  ↔ valid_page page per_page.
Proof.
  unfold valid_page. rewrite orb_false_iff, !Z.ltb_ge. lia.
Qed.

(** X20: [get_tickets] always returns a dict.  It never raises and never
    runs on; with a page below 1 or a page size outside 1..100 it returns an
    error without sending a request, otherwise it sends exactly one request,
    for that page and size; it returns the page exactly when the arguments
    are valid and the request succeeds, and then [next_page] and [prev_page]
    are the numbers of the last valid next and prev entries of the Link
    header. *)
Theorem get_tickets_law (page per_page : Z) (w : world) :
  ∃ reply w',
    get_tickets server page per_page w = Val reply w'
    ∧ w' = (if decide (valid_page page per_page)
            then sent [listing_request "/api/v2/tickets" page per_page] w else w)
    ∧ match reply with
      | TicketsPage body pagination =>
          valid_page page per_page
          ∧ ∃ link,
              server (listing_request "/api/v2/tickets" page per_page) = Ok200 body link
              ∧ pagination
                = mk_page_info page (cursor "next" link) (cursor "prev" link) per_page
      | TicketsError _ =>
          ¬ valid_page page per_page
          ∨ ∀ body link,
              server (listing_request "/api/v2/tickets" page per_page) ≠ Ok200 body link
      end.
Proof.
  pose proof (valid_page_tests page per_page) as Hv. unfold get_tickets.
  destruct (page <? 1) eqn:Hp.
  { rewrite decide_False by (intros H; apply Hv in H as [[=] _]).
    eexists _, _. split; [reflexivity|]. split; [done|]. left.
    intros H. by apply Hv in H as [[=] _]. }
  destruct ((per_page <? 1) || (100 <? per_page)) eqn:Hpp.
  { rewrite decide_False by (intros H; apply Hv in H as [_ [=]]).
    eexists _, _. split; [reflexivity|]. split; [done|]. left.
    intros H. by apply Hv in H as [_ [=]]. }
  assert (Hvalid : valid_page page per_page) by (by apply Hv).
  rewrite decide_True by done.
  unfold try_except, bind, http_get, listing_request, sent.
  destruct (server _) as [data link|msg st body|msg] eqn:Hs.
  - eexists _, _. split; [reflexivity|]. split; [done|]. split; [done|].
    exists link. split; [done|]. by rewrite !pagination_get_cursor.
  - eexists _, _. split; [reflexivity|]. split; [done|]. right. done.
  - eexists _, _. split; [reflexivity|]. split; [done|]. right. done.
Qed.

(** X21: the outcomes of [get_all_agents].  With invalid arguments it
    returns the validation failure and sends nothing; with valid ones it
    sends one request and returns the page when the request succeeds, with
    [has_more] set exactly when the Link header has a valid next entry (a
    next entry naming page 0 counts); it returns the error dict with status
    code and details on an HTTP status error; and on any other failure of the
    request it raises. *)
Theorem get_all_agents_law (page per_page : Z) (w : world) :
  let rq := listing_request "/api/v2/agents" page per_page in
  match get_all_agents server page per_page w with
  | Val (AgentsInvalid _) w' => ¬ valid_page page per_page ∧ w' = w
  | Val (AgentsPage agents pagination has_more) w' =>
      valid_page page per_page ∧ w' = sent [rq] w
      ∧ ∃ data link,
          server rq = Ok200 data link
          ∧ agents = envelope data "agents"
          ∧ pagination = mk_page_info page (cursor "next" link) (cursor "prev" link) per_page
          ∧ has_more = bool_decide (is_Some (cursor "next" link))
  | Val (AgentsHttpError error status_code details) w' =>
      valid_page page per_page ∧ w' = sent [rq] w
      ∧ ∃ msg, server rq = StatusError msg status_code details
               ∧ error = "Failed to get all agents: " +:+ msg
  | Exc e w' =>
      valid_page page per_page ∧ w' = sent [rq] w
      ∧ ∃ msg, server rq = Broken msg ∧ e = OtherException msg
  | Diverge => False
  end.
Proof.
  cbv zeta. pose proof (valid_page_tests page per_page) as Hv. unfold get_all_agents.
  destruct (page <? 1) eqn:Hp.
  { cbn. split; [|done]. intros H. by apply Hv in H as [[=] _]. }
  destruct ((per_page <? 1) || (100 <? per_page)) eqn:Hpp.
  { cbn. split; [|done]. intros H. by apply Hv in H as [_ [=]]. }
  assert (Hvalid : valid_page page per_page) by (by apply Hv).
  unfold bind, http_get, listing_request, sent.
  destruct (server _) as [data link|msg st body|msg] eqn:Hs; cbn [ret].
  - split; [done|]. split; [done|]. exists data, link.
    by rewrite !pagination_get_cursor.
  - split; [done|]. split; [done|]. by exists msg.
  - split; [done|]. split; [done|]. by exists msg.
Qed.

Lemma filter_agents_loop_chunks query (chunks : list (list py_dict)) :
  serves_chunks server query chunks →
  ∀ fuel (i : nat) acc w,
    (i < length chunks)%nat →
    (length chunks - i ≤ fuel)%nat →
    filter_agents_loop server fuel query acc (Z.of_nat (S i)) w
    = Val (acc ++ concat (drop i chunks))
          (sent (agents_query_request query
                   <$> seqZ (Z.of_nat (S i)) (Z.of_nat (length chunks - i))) w).
Proof.
  intros Hserve. induction fuel as [|fuel IH]; intros i acc w Hi Hfuel; [lia|].
  destruct (lookup_lt_is_Some_2 chunks i Hi) as [chunk Hchunk].
  destruct (Hserve i chunk Hchunk) as (data & link & Hget & Henv & Hnext).
  cbn [filter_agents_loop]. erewrite bind_Val by (by apply http_get_ok).
  cbv beta iota zeta. rewrite Henv, Hnext.
  rewrite (drop_S _ _ _ Hchunk). cbn [concat].
  case_bool_decide as Hmore.
  - rewrite (IH (S i)) by lia. unfold sent. cbn [w_cache w_log w_ticks].
    rewrite (assoc_L (++)). do 2 f_equal.
    rewrite <- (assoc_L (++)). f_equal.
    rewrite (seqZ_cons (Z.of_nat (S i))) by lia. cbn [fmap list_fmap].
    do 3 f_equal; lia.
  - assert (Hlast : drop (S i) chunks = []) by (apply drop_ge; lia).
    rewrite Hlast. cbn [concat]. rewrite app_nil_r. unfold ret, sent. do 3 f_equal.
    replace (length chunks - i)%nat with 1%nat by lia. reflexivity.
Qed.

(** X22: [filter_agents] against a paged answer.  When the collaborator
    answers the pages of the quoted query with lists of any sizes (an empty
    page in the middle included) and names the following page on every page
    but the last, the call returns all records in order, after one request
    for each page. *)
Theorem filter_agents_complete fuel query (chunks : list (list py_dict)) (w : world) :
  chunks ≠ [] →
  serves_chunks server query chunks →
  (length chunks ≤ fuel)%nat →
  filter_agents server fuel query w
  = Val (concat chunks)
        (sent (agents_query_request query <$> seqZ 1 (Z.of_nat (length chunks))) w).
Proof.
  intros Hne Hserve Hfuel. unfold filter_agents.
  change (filter_agents_loop server fuel query [] 1 w)
    with (filter_agents_loop server fuel query [] (Z.of_nat 1) w).
  rewrite (filter_agents_loop_chunks query chunks Hserve fuel 0 [] w);
    [|destruct chunks; [done|cbn; lia]|lia].
  by rewrite drop_0, Nat.sub_0_r.
Qed.

(** X23: [filter_agents] has no bound on its loop.  When the answer to
    the first page names the first page as the next one, no amount of fuel
    lets the call return. *)
Theorem filter_agents_unbounded query data link :
  server (agents_query_request query 1) = Ok200 data link →
  link_next link = Some 1 →
  ∀ fuel w, filter_agents server fuel query w = Diverge.
Proof.
  intros Hget Hnext fuel. unfold filter_agents. generalize (@nil py_dict).
  induction fuel as [|fuel IH]; intros acc w; [done|].
  cbn [filter_agents_loop]. erewrite bind_Val by (by apply http_get_ok).
  cbv beta iota zeta. rewrite Hnext. apply IH.
Qed.

End ListingFacts.

Lemma get_tickets_law_witness :
  ∃ reply w',
    get_tickets failing_server 0 30 initial_world = Val reply w'
    ∧ w' = initial_world.
Proof.
  destruct (get_tickets_law failing_server 0 30 initial_world) as (reply & w' & Hrun & Hw & _).
  exists reply, w'. split; [exact Hrun|]. rewrite Hw. apply decide_False.
  unfold valid_page. lia.
Defined.

Lemma chunk_server_serves (query : string) :
  serves_chunks (chunk_server [[agent 1 "A" "B"]; []; [agent 2 "C" "D"]]) query
    [[agent 1 "A" "B"]; []; [agent 2 "C" "D"]].
Proof.
  intros i chunk Hi. eexists _, _. split; [reflexivity|].
  cbn [agents_query_request rq_page].
  replace (Z.to_nat (Z.of_nat (S i) - 1)) with i by lia.
  split; [unfold envelope; by rewrite lookup_singleton_eq, Hi|].
  destruct i as [|[|[|i]]]; [vm_compute; reflexivity..|discriminate Hi].
Qed.

Lemma filter_agents_complete_witness :
  filter_agents (chunk_server [[agent 1 "A" "B"]; []; [agent 2 "C" "D"]]) 3 "active:true"
    initial_world
  = Val [agent 1 "A" "B"; agent 2 "C" "D"]
        (sent (agents_query_request "active:true" <$> [1; 2; 3]) initial_world).
Proof.
  apply (filter_agents_complete (chunk_server [[agent 1 "A" "B"]; []; [agent 2 "C" "D"]])
           3 "active:true" [[agent 1 "A" "B"]; []; [agent 2 "C" "D"]] initial_world).
  - discriminate.
  - apply chunk_server_serves.
  - cbn. lia.
Defined.

Lemma filter_agents_unbounded_witness :
  filter_agents stuck_server 1000 "active:true" initial_world = Diverge.
Proof.
  apply (filter_agents_unbounded stuck_server "active:true" ∅ (Some (next_header 1)));
    [reflexivity|vm_compute; reflexivity].
Defined.

(** ** The uncapped walk at its edges *)

Section WalkEdges.

Context (server : request → response) (clock : nat → Z) (isoformat : Z → string).

(** X25: short pages without a cursor end the walk of [get_ticket_stats]
    after the first page.  When the collaborator serves the matching tickets
    in pages of fewer than 30 and sends no next relation, a successful call
    counts the first page only, whatever the number of matching tickets. *)
Theorem get_ticket_stats_short_pages fuel group_id created_after created_before
    workspace_id per_page xs w lk w0 :
  stats_query_parts group_id created_after created_before ≠ [] →
  get_agent_lookup server clock isoformat fuel w = Val (Success lk) w0 →
  (per_page < 30)%nat →
  serves_tickets server
    (join_and (stats_query_parts group_id created_after created_before))
    workspace_id per_page xs →
  (∀ page data link,
     server (tickets_request
               (join_and (stats_query_parts group_id created_after created_before))
               workspace_id page) = Ok200 data link →
     link_next link = None) →
  (0 < fuel)%nat →
  ∃ r w',
    get_ticket_stats server clock isoformat fuel group_id created_after created_before
      workspace_id w = Val (Success r) w'
    ∧ st_stats r = aggregate_stats (lk_agents lk) (take per_page xs)
    ∧ total_tickets (st_stats r) = (per_page `min` length xs)%nat.
Proof.
  intros Hparts Hlookup Hpp Hserve Hnext Hfuel.
  unfold get_ticket_stats. fold (stats_query_parts group_id created_after created_before).
  destruct (stats_query_parts _ _ _) as [|p ps] eqn:Hq; [done|].
  unfold bind. rewrite Hlookup. unfold try_fetch.
  destruct fuel as [|fuel]; [lia|].
  destruct (Hserve 1 ltac:(lia)) as (data & link & Hget & Henv).
  assert (Hloop : ∃ w', tickets_loop server (S fuel) (join_and (p :: ps)) workspace_id [] 1 w0
                        = Val (take per_page xs) w').
  { cbn [tickets_loop]. erewrite bind_Val by (by apply http_get_ok).
    cbv beta iota zeta. rewrite Henv, (Hnext 1 data link Hget).
    unfold page_of. change (Z.to_nat (1 - 1) * per_page)%nat with 0%nat. rewrite drop_0.
    destruct (take per_page xs) as [|t ts] eqn:Htake; [unfold ret; eauto|].
    rewrite <- Htake. rewrite (proj2 (Z.ltb_lt _ _)) by (rewrite length_take; lia).
    cbn [andb negb]. rewrite bool_decide_eq_false_2 by (by intros [? ?]).
    cbn [negb]. unfold ret. eauto. }
  destruct Hloop as [w' ->]. unfold ret. eexists _, _. split; [reflexivity|].
  split; [reflexivity|].
  cbn [st_stats].
  pose proof (aggregate_stats_sums (lk_agents lk) (take per_page xs)) as Hsums.
  cbv zeta in Hsums. destruct Hsums as [-> _]. apply length_take.
Qed.

Lemma tickets_loop_endless query workspace_id :
  (∀ page, 1 ≤ page →
     ∃ data link,
       server (tickets_request query workspace_id page) = Ok200 data link
       ∧ (30 ≤ length (envelope data "tickets"))%nat) →
  ∀ fuel acc page w,
    1 ≤ page → tickets_loop server fuel query workspace_id acc page w = Diverge.
Proof.
  intros Hfull. induction fuel as [|fuel IH]; intros acc page w Hpage; [done|].
  destruct (Hfull page Hpage) as (data & link & Hget & Hlen).
  cbn [tickets_loop]. erewrite bind_Val by (by apply http_get_ok).
  cbv beta iota zeta. destruct (envelope data "tickets") as [|t ts] eqn:Henv;
    [cbn in Hlen; lia|].
  rewrite (proj2 (Z.ltb_ge _ _)) by lia. cbn [andb]. apply IH. lia.
Qed.

(** X26: the walk of [get_ticket_stats] has no bound.  When every page
    of the query holds at least 30 tickets, a call whose lookup has succeeded
    never returns: there is no cap on pages or records. *)
Theorem get_ticket_stats_unbounded fuel group_id created_after created_before
    workspace_id w lk w0 :
  stats_query_parts group_id created_after created_before ≠ [] →
  get_agent_lookup server clock isoformat fuel w = Val (Success lk) w0 →
  (∀ page, 1 ≤ page →
     ∃ data link,
       server (tickets_request
                 (join_and (stats_query_parts group_id created_after created_before))
                 workspace_id page) = Ok200 data link
       ∧ (30 ≤ length (envelope data "tickets"))%nat) →
  get_ticket_stats server clock isoformat fuel group_id created_after created_before
    workspace_id w = Diverge.
Proof.
  intros Hparts Hlookup Hfull.
  unfold get_ticket_stats. fold (stats_query_parts group_id created_after created_before).
  destruct (stats_query_parts _ _ _) as [|p ps] eqn:Hq; [done|].
  unfold bind. rewrite Hlookup. unfold try_fetch.
  by rewrite (tickets_loop_endless _ workspace_id Hfull fuel [] 1 w0).
Qed.

End WalkEdges.

Lemma get_ticket_stats_short_pages_witness :
  ∃ r w',
    get_ticket_stats (short_page_server 20 (tickets_with_status 2 1 45)) example_clock
      Iso.isoformat 5 (Some 1) None None None initial_world = Val (Success r) w'
    ∧ total_tickets (st_stats r) = 20%nat.
Proof.
  assert (Hs : succeeded (get_agent_lookup (short_page_server 20 (tickets_with_status 2 1 45))
                            example_clock Iso.isoformat 5 initial_world) = true)
    by (vm_compute; reflexivity).
  destruct (get_agent_lookup _ _ _ _ _) as [[lk|? ? ?] w0|? ?|] eqn:Hlookup;
    try discriminate Hs.
  destruct (get_ticket_stats_short_pages (short_page_server 20 (tickets_with_status 2 1 45))
              example_clock Iso.isoformat 5 (Some 1) None None None 20
              (tickets_with_status 2 1 45) initial_world lk w0)
    as (r & w' & Hrun & _ & Htotal).
  - discriminate.
  - exact Hlookup.
  - lia.
  - intros page Hpage. eexists _, _. split; [reflexivity|].
    unfold envelope. by rewrite lookup_singleton_eq.
  - intros page data link [= _ <-]. reflexivity.
  - lia.
  - exists r, w'. split; [exact Hrun|exact Htotal].
Defined.

Lemma get_ticket_stats_unbounded_witness :
  get_ticket_stats endless_server example_clock Iso.isoformat 1000 (Some 1) None None None
    fresh_world = Diverge.
Proof.
  assert (Hs : succeeded (get_agent_lookup endless_server example_clock Iso.isoformat 1000
                            fresh_world) = true)
    by (vm_compute; reflexivity).
  destruct (get_agent_lookup _ _ _ _ _) as [[lk|? ? ?] w0|? ?|] eqn:Hlookup;
    try discriminate Hs.
  apply (get_ticket_stats_unbounded endless_server example_clock Iso.isoformat 1000
           (Some 1) None None None fresh_world lk w0).
  - discriminate.
  - exact Hlookup.
  - intros page Hpage. eexists _, _. split; [reflexivity|].
    unfold envelope. rewrite lookup_singleton_eq. vm_compute. lia.
Defined.

(** ** Resolution times *)

Section Hours.
Local Open Scope Q_scope.

Lemma float_of_int_3600 : (float_of_int 3600 == 3600)%Q.
Proof. vm_compute. reflexivity. Qed.

Lemma hours_error_pos (delta : Z) :
  (0 < delta)%Z →
  inject_Z delta / 3600000000 * (1 - (1 # 2251799813685248))
  <= float_div (total_seconds delta) (float_of_int 3600)
  ∧ float_div (total_seconds delta) (float_of_int 3600)
    <= inject_Z delta / 3600000000 * (1 + (1 # 2251799813685248)).
Proof.
  intros Hd. unfold float_div, total_seconds, int_truediv.
  assert (Hd' : 1 <= inject_Z delta).
  { change 1 with (inject_Z 1). rewrite <- Zle_Qle. lia. }
  assert (Hsmall : 2 ^ (-1022) <= 1 # 1099511627776).
  { assert (H : 2 ^ (-1022) <= 2 ^ (-40)) by (apply pow2_le; lia).
    assert (E : 2 ^ (-40) == 1 # 1099511627776) by (vm_compute; reflexivity).
    lra. }
  set (x1 := inject_Z delta / inject_Z 1000000).
  assert (E1 : x1 == inject_Z delta * (1 # 1000000)) by reflexivity.
  destruct (binary64_error x1) as [L1 U1]; [lra|].
  set (s1 := binary64 x1) in *.
  set (x2 := s1 / float_of_int 3600).
  assert (E2 : x2 == s1 * (1 # 3600)).
  { unfold x2, Qdiv. rewrite float_of_int_3600. reflexivity. }
  destruct (binary64_error x2) as [L2 U2]; [lra|].
  set (h := binary64 x2) in *.
  assert (E : inject_Z delta / 3600000000 == inject_Z delta * (1 # 3600000000))
    by reflexivity.
  rewrite E. split; nra.
Qed.
Lemma hours_opp (delta : Z) :
  (float_div (total_seconds (- delta)) (float_of_int 3600)
   == - float_div (total_seconds delta) (float_of_int 3600))%Q.
Proof.
  unfold float_div, total_seconds, int_truediv.
  assert (E1 : (binary64 (inject_Z (- delta) / inject_Z 1000000)
                == - binary64 (inject_Z delta / inject_Z 1000000))%Q).
  { rewrite <- binary64_opp. apply binary64_compat. rewrite inject_Z_opp.
    unfold Qdiv. ring. }
  rewrite <- binary64_opp. apply binary64_compat. rewrite E1. unfold Qdiv. ring.
Qed.

(** The hours of a difference in microseconds, within two roundings of the
    exact quotient. *)
Lemma hours_error (delta : Z) :
  Qabs (float_div (total_seconds delta) (float_of_int 3600) - inject_Z delta / 3600000000)
  <= Qabs (inject_Z delta / 3600000000) * (1 # 2251799813685248).
Proof.
  assert (E : ∀ d, inject_Z d / 3600000000 == inject_Z d * (1 # 3600000000))
    by (intros d; reflexivity).
  assert (Hpos : ∀ d, (0 < d)%Z →
            Qabs (float_div (total_seconds d) (float_of_int 3600) - inject_Z d / 3600000000)
            <= Qabs (inject_Z d / 3600000000) * (1 # 2251799813685248)).
  { intros d Hd. destruct (hours_error_pos d Hd) as [L U].
    assert (Hd' : 0 < inject_Z d).
    { change 0 with (inject_Z 0). rewrite <- Zlt_Qlt. lia. }
    rewrite E in *. rewrite (Qabs_pos (inject_Z d * _)) by lra.
    apply Qabs_Qle_condition. split; lra. }
  destruct (Z.lt_trichotomy delta 0) as [Hneg|[->|Hd]]; [| |by apply Hpos].
  - specialize (Hpos (- delta)%Z ltac:(lia)).
    rewrite hours_opp, !E, inject_Z_opp in Hpos. rewrite E.
    assert (E1 : - float_div (total_seconds delta) (float_of_int 3600)
                 - - inject_Z delta * (1 # 3600000000)
                 == - (float_div (total_seconds delta) (float_of_int 3600)
                       - inject_Z delta * (1 # 3600000000))) by ring.
    assert (E2 : - inject_Z delta * (1 # 3600000000)
                 == - (inject_Z delta * (1 # 3600000000))) by ring.
    rewrite E1, E2, !Qabs_opp in Hpos. exact Hpos.
  - vm_compute. discriminate.
Qed.
End Hours.

Section ResolutionTime.

Context (fromisoformat : string → option parsed_datetime).

Lemma hours_nonneg (delta : Z) :
  0 ≤ delta → (0 <= float_div (total_seconds delta) (float_of_int 3600))%Q.
Proof.
  intros H. unfold float_div, total_seconds, int_truediv.
  assert (H1 : (0 <= binary64 (inject_Z delta / inject_Z 1000000))%Q).
  { apply binary64_nonneg. apply Qle_shift_div_l; [reflexivity|].
    unfold Qle. cbn. lia. }
  apply binary64_nonneg. rewrite float_of_int_3600.
  apply Qle_shift_div_l; [reflexivity|]. lra.
Qed.

(** X27: the resolution time is the signed time between the two
    instants, in hours.  It is defined exactly when both values are strings
    that [fromisoformat] accepts (with Z read as +00:00) and both or neither
    carry an offset; swapping the arguments negates it; it differs from the
    exact number of hours between the two instants by at most 2^-51 of that
    number, the error of its two float divisions; and it is not negative
    when the resolution is not before the creation and not positive when it
    is not after it, so a ticket resolved before its creation has a time
    that is negative or zero. *)
Theorem _calculate_resolution_time_signed (a b : py_value) :
  (is_Some (_calculate_resolution_time fromisoformat a b)
   ↔ ∃ sa sb da db,
       a = PStr sa ∧ b = PStr sb
       ∧ fromisoformat (replace_Z sa) = Some da ∧ fromisoformat (replace_Z sb) = Some db
       ∧ pd_aware da = pd_aware db)
  ∧ (∀ h, _calculate_resolution_time fromisoformat a b = Some h →
          ∃ h', _calculate_resolution_time fromisoformat b a = Some h' ∧ (h' == - h)%Q)
  ∧ (∀ h sa sb da db,
       _calculate_resolution_time fromisoformat a b = Some h →
       a = PStr sa → b = PStr sb →
       fromisoformat (replace_Z sa) = Some da → fromisoformat (replace_Z sb) = Some db →
       let hours := (inject_Z (pd_usec db - pd_usec da) / 3600000000)%Q in
       (Qabs (h - hours) <= Qabs hours * (1 # 2251799813685248))%Q
       ∧ (pd_usec da ≤ pd_usec db → (0 <= h)%Q)
       ∧ (pd_usec db ≤ pd_usec da → (h <= 0)%Q)).
Proof.
  unfold _calculate_resolution_time. split; [|split].
  - split.
    + intros [h Hh]. destruct a as [| |sa], b as [| |sb]; try discriminate.
      destruct (fromisoformat (replace_Z sa)) as [da|] eqn:Ea; [|discriminate].
      destruct (fromisoformat (replace_Z sb)) as [db|] eqn:Eb; [|discriminate].
      cbn in Hh. destruct (Bool.eqb _ _) eqn:E; [|discriminate].
      apply Bool.eqb_prop in E. by exists sa, sb, da, db.
    + intros (sa & sb & da & db & -> & -> & -> & -> & E). cbn.
      rewrite E, Bool.eqb_reflx. by eexists.
  - intros h. destruct a as [| |sa], b as [| |sb]; try discriminate.
    destruct (fromisoformat (replace_Z sa)) as [da|]; [|discriminate].
    destruct (fromisoformat (replace_Z sb)) as [db|]; [|discriminate].
    cbn. destruct (Bool.eqb (pd_aware da) (pd_aware db)) eqn:E; [|discriminate].
    apply Bool.eqb_prop in E. rewrite E, Bool.eqb_reflx. intros [= <-].
    eexists. split; [reflexivity|].
    replace (pd_usec da - pd_usec db) with (- (pd_usec db - pd_usec da)) by lia.
    apply hours_opp.
  - intros h sa sb da db Hh -> -> Ea Eb. rewrite Ea, Eb in Hh. cbn in Hh.
    destruct (Bool.eqb _ _); [|discriminate]. injection Hh as <-. cbv zeta.
    split; [apply hours_error|]. split; intros Hle.
    + apply hours_nonneg. lia.
    + pose proof (hours_nonneg (pd_usec da - pd_usec db) ltac:(lia)) as Hn.
      replace (pd_usec da - pd_usec db) with (- (pd_usec db - pd_usec da)) in Hn by lia.
      rewrite hours_opp in Hn. lra.
Qed.

End ResolutionTime.

Lemma _calculate_resolution_time_signed_witness :
  ∃ h', _calculate_resolution_time Iso.fromisoformat (PStr "2024-01-01T00:03:45Z")
          (PStr "2024-01-01T00:00:00Z") = Some h'
        ∧ (h' == - (1 # 16))%Q.
Proof.
  destruct (_calculate_resolution_time_signed Iso.fromisoformat
              (PStr "2024-01-01T00:00:00Z") (PStr "2024-01-01T00:03:45Z"))
    as (_ & Hswap & _).
  destruct (Hswap (float_div (total_seconds 225000000) (float_of_int 3600)))
    as (h' & Hrun & Heq).
  - vm_compute. reflexivity.
  - exists h'. split; [exact Hrun|]. rewrite Heq. vm_compute. reflexivity.
Defined.
